(** * Shopify Insights Fetcher: the scraper service, embedded and verified

    A shallow embedding of [app/services/scraper.py] (class [ShopifyScraper])
    with the models of [app/models/insights.py] and the exceptions of
    [app/core/exceptions.py].

    - Python [str] is [string], a sequence of code points below 256; the
      character classes, [str.lower] and [str.strip] are Python's on that
      range (the Unicode-aware ones of [str] patterns).
    - The libraries the scraper calls are modelled by the fragment it uses:
      [re] by a backtracking matcher ([Re]), a decoded JSON value by
      [Json.t], a BeautifulSoup tree by [Bs4.node].  The HTML parser, the
      JSON decoder, [urljoin], [urlparse], [str] of a container, the order
      in which a [set] is listed and pydantic's validation of a [Product]
      are the fields of [Lib]; the properties hold for every instance.
    - The network is a function from the requests made so far and the
      requested URL to the outcome of the GET.
    - The scraper's methods are computations in an exception-and-state monad
      over the instance attributes; three ghost fields record the URLs
      requested, the sessions created and the [session.close()] calls.

    Part I has the definitions: the embedding, the vocabulary of the
    properties, and a small storefront for the examples.  Part II has the
    proofs. *)

From stdpp Require Import base option list gmap strings pretty.
From Stdlib Require Import Ascii.

Local Open Scope string_scope.
Local Open Scope list_scope.

Set Warnings "-register-all".
Set Default Proof Using "Type".

(** * Part I: definitions *)

(** ** Python strings *)

Module Py.

Definition chars (s : string) : list ascii := String.list_ascii_of_string s.
Definition text (l : list ascii) : string := String.string_of_list_ascii l.

Definition code (c : ascii) : nat := nat_of_ascii c.

Definition in_range (lo hi : nat) (c : ascii) : bool :=
  (lo <=? code c)%nat && (code c <=? hi)%nat.

(** [\d], [\s] (which is also [str.isspace], the test of [str.strip]),
    [[a-zA-Z]] and [\w] of a [str] pattern, on the code points below 256:
    beside the ASCII ones, NEL and the no-break space are spaces, and the
    letters and numbers of Latin-1 are word characters. *)
Definition is_digit (c : ascii) : bool := in_range 48 57 c.
Definition is_space (c : ascii) : bool :=
  in_range 9 13 c || in_range 28 32 c || in_range 133 133 c
  || in_range 160 160 c.
Definition is_alpha (c : ascii) : bool :=
  in_range 65 90 c || in_range 97 122 c.
Definition is_word (c : ascii) : bool :=
  is_alpha c || is_digit c || Ascii.eqb c "_"
  || in_range 170 170 c || in_range 178 179 c || in_range 181 181 c
  || in_range 185 186 c || in_range 188 190 c || in_range 192 214 c
  || in_range 216 246 c || in_range 248 255 c.

(** [str.lower()]: the capitals of ASCII and of Latin-1 (the multiplication
    sign, 215, is not one). *)
Definition lower_char (c : ascii) : ascii :=
  if in_range 65 90 c || in_range 192 214 c || in_range 216 222 c
  then ascii_of_nat (code c + 32) else c.
Definition lower (s : string) : string := text (map lower_char (chars s)).

(** [str.strip()] *)
Fixpoint lstrip_chars (l : list ascii) : list ascii :=
  match l with
  | c :: t => if is_space c then lstrip_chars t else l
  | [] => []
  end.
Definition strip (s : string) : string :=
  text (rev (lstrip_chars (rev (lstrip_chars (chars s))))).

(** [sep] is a prefix of [l]. *)
Fixpoint starts_with (sep l : list ascii) : bool :=
  match sep, l with
  | [], _ => true
  | a :: sep', b :: l' => Ascii.eqb a b && starts_with sep' l'
  | _ :: _, [] => false
  end.

(** [needle in hay] *)
Fixpoint occurs (needle hay : list ascii) : bool :=
  starts_with needle hay ||
  match hay with
  | [] => false
  | _ :: t => occurs needle t
  end.
Definition contains (needle hay : string) : bool :=
  occurs (chars needle) (chars hay).

(** [s.split(sep)] for a non-empty separator: the pieces between the
    non-overlapping occurrences of [sep], scanned from the left.  [cur] is
    the current piece reversed, [skip] counts the characters of an
    occurrence still to be passed over. *)
Fixpoint split_go (sep : list ascii) (cur : list ascii) (skip : nat)
    (l : list ascii) : list string :=
  match l with
  | [] => [text (rev cur)]
  | c :: t =>
      match skip with
      | S k => split_go sep cur k t
      | O =>
          if starts_with sep l
          then text (rev cur) :: split_go sep [] (length sep - 1) t
          else split_go sep (c :: cur) 0 t
      end
  end.
Definition split (sep s : string) : list string :=
  split_go (chars sep) [] 0 (chars s).

(** [s.replace(old, '')] for a non-empty [old]. *)
Fixpoint remove_go (old : list ascii) (skip : nat) (l : list ascii)
    : list ascii :=
  match l with
  | [] => []
  | c :: t =>
      match skip with
      | S k => remove_go old k t
      | O =>
          if starts_with old l
          then remove_go old (length old - 1) t
          else c :: remove_go old 0 t
      end
  end.
Definition remove (old s : string) : string :=
  text (remove_go (chars old) 0 (chars s)).

(** [l[0]] and [l[-1]] of a list of strings; [split] never returns the
    empty list, so the default is not reached there. *)
Definition first (l : list string) : string := default "" (head l).
Definition final (l : list string) : string := default "" (last l).

(** The line feed, ['\n'] *)
Definition nl : string := String "010" EmptyString.

(** [any(l)] *)
Definition any (l : list bool) : bool := existsb (λ b, b) l.

(** [sep.join(l)] *)
Fixpoint join (sep : string) (l : list string) : string :=
  match l with
  | [] => ""
  | [x] => x
  | x :: t => x +:+ sep +:+ join sep t
  end.

End Py.

(** ** Regular expressions: the fragment of [re] the scraper's patterns use *)

Module Re.

Inductive t : Type :=
| Eps
| Lit (s : string)                                 (* literal text *)
| Dot                                              (* [.], no DOTALL *)
| Cls (p : ascii -> bool)                          (* one character of a class *)
| Seq (r1 r2 : t)
| Alt (r1 r2 : t)                                  (* [r1|r2] *)
| Opt (r : t)                                      (* [r?], greedy *)
| Rep (p : ascii -> bool) (lo : nat) (hi : option nat)   (* [[p]{lo,hi}], greedy *)
| Grp (r : t).                                     (* [(r)], capturing *)

Definition cat (rs : list t) : t := foldr Seq Eps rs.
Definition alts (r : t) (rs : list t) : t := foldl Alt r rs.
Definition plus (p : ascii -> bool) : t := Rep p 1 None.
Definition not_newline (c : ascii) : bool := negb (Ascii.eqb c "010").
Definition dot_star : t := Rep not_newline 0 None.
Definition one_of (cs : string) (c : ascii) : bool :=
  existsb (Ascii.eqb c) (Py.chars cs).

Fixpoint groups (r : t) : nat :=
  match r with
  | Seq r1 r2 | Alt r1 r2 => groups r1 + groups r2
  | Opt r => groups r
  | Grp r => S (groups r)
  | _ => 0
  end.

(** Length of the longest prefix of [l] in class [p], cut at [hi]. *)
Fixpoint run (p : ascii -> bool) (hi : option nat) (l : list ascii) : nat :=
  match l, hi with
  | _, Some O => 0
  | c :: l', _ => if p c then S (run p (pred <$> hi) l') else 0
  | [], _ => 0
  end.

(** [n, n-1, ..., lo]: the lengths a greedy repetition tries, in order. *)
Fixpoint downto (lo n : nat) : list nat :=
  if (n <? lo)%nat then []
  else n :: match n with O => [] | S k => downto lo k end.

Definition caps : Type := list (option string).

(** All ways [r] matches a prefix of [l], in the order a backtracking
    matcher tries them: the groups captured and the input left. *)
Fixpoint ms (r : t) (l : list ascii) : list (caps * list ascii) :=
  match r with
  | Eps => [([], l)]
  | Lit s =>
      if Py.starts_with (Py.chars s) l
      then [([], drop (length (Py.chars s)) l)] else []
  | Dot =>
      match l with
      | c :: l' => if not_newline c then [([], l')] else []
      | [] => []
      end
  | Cls p =>
      match l with
      | c :: l' => if p c then [([], l')] else []
      | [] => []
      end
  | Seq r1 r2 =>
      x1 ← ms r1 l;
      x2 ← ms r2 x1.2;
      [((x1.1 ++ x2.1 : caps), x2.2)]
  | Alt r1 r2 =>
      ((λ x : caps * list ascii, (x.1 ++ replicate (groups r2) None, x.2))
         <$> ms r1 l)
      ++ ((λ x : caps * list ascii, (replicate (groups r1) None ++ x.1, x.2))
            <$> ms r2 l)
  | Opt r => ms r l ++ [(replicate (groups r) None, l)]
  | Rep p lo hi => (λ n, ([], drop n l)) <$> downto lo (run p hi l)
  | Grp r =>
      (λ x : caps * list ascii,
         (Some (Py.text (take (length l - length x.2) l)) :: x.1, x.2))
        <$> ms r l
  end.

(** A match object: [group(0)] and the numbered groups. *)
Record m : Type := Match { whole : string; grps : caps }.

Definition group (n : nat) (x : m) : option string :=
  match n with
  | O => Some (whole x)
  | S k => mjoin (grps x !! k)
  end.

(** Truth value of [match.group(n)]: [None] and [''] are false. *)
Definition group_true (n : nat) (x : m) : bool :=
  match group n x with
  | Some s => negb (String.eqb s "")
  | None => false
  end.

(** [re.match]: the first way [r] matches at the start of [l]. *)
Definition match_at (r : t) (l : list ascii) : option m :=
  '(c, l') ← head (ms r l);
  Some (Match (Py.text (take (length l - length l') l)) c).

Definition match_ (r : t) (s : string) : option m := match_at r (Py.chars s).

(** [re.search]: the leftmost position with a match. *)
Fixpoint search_at (r : t) (l : list ascii) : option m :=
  match match_at r l with
  | Some x => Some x
  | None =>
      match l with
      | [] => None
      | _ :: l' => search_at r l'
      end
  end.

Definition search (r : t) (s : string) : option m := search_at r (Py.chars s).
Definition found (r : t) (s : string) : bool := bool_decide (is_Some (search r s)).

(** [re.findall] for a pattern without groups that matches no empty
    string (true of the two patterns it is called with): the
    non-overlapping matches, leftmost first. *)
Fixpoint findall_go (r : t) (skip : nat) (l : list ascii) : list string :=
  match l with
  | [] => []
  | _ :: l' =>
      match skip with
      | S k => findall_go r k l'
      | O =>
          match head (ms r l) with
          | Some (_, rest) =>
              match length l - length rest with
              | S k => Py.text (take (S k) l) :: findall_go r k l'
              | O => findall_go r 0 l'
              end
          | None => findall_go r 0 l'
          end
      end
  end.
Definition findall (r : t) (s : string) : list string :=
  findall_go r 0 (Py.chars s).

(** [re.sub(r, '', s)], same proviso. *)
Fixpoint delete_go (r : t) (skip : nat) (l : list ascii) : list ascii :=
  match l with
  | [] => []
  | c :: l' =>
      match skip with
      | S k => delete_go r k l'
      | O =>
          match head (ms r l) with
          | Some (_, rest) =>
              match length l - length rest with
              | S k => delete_go r k l'
              | O => c :: delete_go r 0 l'
              end
          | None => c :: delete_go r 0 l'
          end
      end
  end.
Definition delete (r : t) (s : string) : string :=
  Py.text (delete_go r 0 (Py.chars s)).

End Re.

(** ** Decoded JSON: the values [json.loads] returns *)

Module Json.

(** A float is kept as its [repr]. *)
Inductive t : Type :=
| Null
| Bool (b : bool)
| Int (z : Z)
| Float (repr : string)
| Str (s : string)
| Arr (l : list t)
| Obj (kv : list (string * t)).

Definition lookup (k : string) (kv : list (string * t)) : option t :=
  snd <$> List.find (λ p, String.eqb (fst p) k) kv.

(** [d.get(k, dflt)]; [None] when the receiver has no [get] (AttributeError). *)
Definition get (k : string) (dflt : t) (d : t) : option t :=
  match d with
  | Obj kv => Some (default dflt (lookup k kv))
  | _ => None
  end.

Definition is_str (k : string) (v : t) : bool :=
  match v with
  | Str s => String.eqb s k
  | _ => false
  end.

(** [k in v]; [None] when [v] is not a container (TypeError). *)
Definition contains (k : string) (v : t) : option bool :=
  match v with
  | Obj kv => Some (bool_decide (is_Some (lookup k kv)))
  | Arr l => Some (existsb (is_str k) l)
  | Str s => Some (Py.contains k s)
  | _ => None
  end.

(** [v[k]] for a string key; [None] on KeyError and TypeError. *)
Definition item (k : string) (v : t) : option t :=
  match v with
  | Obj kv => lookup k kv
  | _ => None
  end.

(** [v[0]]; [None] on IndexError, KeyError and TypeError. *)
Definition item0 (v : t) : option t :=
  match v with
  | Arr (x :: _) => Some x
  | Str (String c _) => Some (Str (String c EmptyString))
  | _ => None
  end.

(** The elements [for x in v] visits; [None] when [v] is not iterable. *)
Definition iter (v : t) : option (list t) :=
  match v with
  | Arr l => Some l
  | Obj kv => Some ((λ p, Str (fst p)) <$> kv)
  | Str s => Some ((λ c, Str (String c EmptyString)) <$> Py.chars s)
  | _ => None
  end.

(** Truth value. *)
Definition truthy (v : t) : bool :=
  match v with
  | Null => false
  | Bool b => b
  | Int z => negb (z =? 0)%Z
  | Float r => negb (String.eqb r "0.0" || String.eqb r "-0.0")
  | Str s => negb (String.eqb s "")
  | Arr l => negb (bool_decide (l = []))
  | Obj kv => negb (bool_decide (kv = []))
  end.

Definition is_list (v : t) : bool :=
  match v with
  | Arr _ => true
  | _ => false
  end.

End Json.

(** ** BeautifulSoup trees *)

Module Bs4.

(** Text nodes and tags; an attribute value is kept as written (also
    [class], whose patterns below contain no white space, so that
    searching the value is searching its tokens). *)
Inductive node : Type :=
| Text (s : string)
| Tag (name : string) (attrs : list (string * string)) (kids : list node).

Fixpoint flat (n : node) : list node :=
  n :: match n with
       | Text _ => []
       | Tag _ _ kids => mjoin (map flat kids)
       end.

(** [tag.descendants]: everything below [n], in document order. *)
Definition descendants (n : node) : list node :=
  match n with
  | Text _ => []
  | Tag _ _ kids => mjoin (map flat kids)
  end.

(** [tag.get(k)] *)
Definition attr (k : string) (n : node) : option string :=
  match n with
  | Text _ => None
  | Tag _ attrs _ => snd <$> List.find (λ p, String.eqb (fst p) k) attrs
  end.

(** [tag.get(k, '')] *)
Definition get (k : string) (n : node) : string := default "" (attr k n).

Definition named (names : list string) (n : node) : bool :=
  match n with
  | Text _ => false
  | Tag name _ _ => existsb (String.eqb name) names
  end.

(** Attribute filters: [k=True] and [k=re.compile(r)]. *)
Definition has (k : string) (n : node) : bool := bool_decide (is_Some (attr k n)).
Definition matches (k : string) (r : Re.t) (n : node) : bool :=
  match attr k n with
  | Some v => Re.found r v
  | None => false
  end.
Definition any (n : node) : bool := true.

(** [tag.find_all(names, filter)] and [tag.find(names, filter)] *)
Definition find_all (names : list string) (f : node -> bool) (n : node)
    : list node :=
  List.filter (λ d, named names d && f d) (descendants n).
Definition find (names : list string) (f : node -> bool) (n : node)
    : option node :=
  head (find_all names f n).

(** The text strings below [n], in document order. *)
Definition strings (n : node) : list string :=
  omap (λ d, match d with Text s => Some s | Tag _ _ _ => None end)
       (descendants n).

(** [tag.get_text()] *)
Definition get_text (n : node) : string := Py.join "" (strings n).

(** [tag.get_text(separator=sep, strip=True)] *)
Definition get_text_strip (sep : string) (n : node) : string :=
  Py.join sep
    (List.filter (λ s, negb (String.eqb s "")) (Py.strip <$> strings n)).

(** Every node of the document paired with the nodes after it in document
    order: [q.find_next(names)] is the first of those named in [names]. *)
Fixpoint with_next (ds : list node) : list (node * list node) :=
  match ds with
  | [] => []
  | d :: rest => (d, rest) :: with_next rest
  end.
Definition find_next (names : list string) (following : list node)
    : option node :=
  head (List.filter (named names) following).

End Bs4.

(** ** The models of [app/models/insights.py] *)

Record FAQ : Type := mkFAQ { question : string; answer : string }.

Record Socials : Type := mkSocials {
  instagram : option string;
  facebook : option string;
  tiktok : option string;
  twitter : option string;
  youtube : option string;
  linkedin : option string;
  pinterest : option string }.

Record Contact : Type := mkContact {
  emails : list string;
  phones : list string }.

Record Policies : Type := mkPolicies {
  privacy : option string;
  return_policy : option string;
  refund : option string;
  terms : option string }.

Record Links : Type := mkLinks {
  order_tracking : option string;
  contact_us : option string;
  blogs : option string;
  shipping : option string;
  careers : option string }.

Record Product : Type := mkProduct {
  id : option string;
  title : string;
  handle : option string;
  description : option string;
  price : option string;
  image : option string;
  url : option string;
  tags : list string;
  variants : option (list Json.t) }.

Record BrandContext : Type := mkBrandContext {
  brand : string;
  products : list Product;
  hero_products : list Product;
  policies : Policies;
  faqs : list FAQ;
  socials : Socials;
  contact : Contact;
  about : option string;
  links : Links }.

(** The field defaults of the models: [Socials()], [Contact()],
    [Policies()], [Links()]. *)
Definition Socials_default : Socials := mkSocials None None None None None None None.
Definition Contact_default : Contact := mkContact [] [].
Definition Policies_default : Policies := mkPolicies None None None None.
Definition Links_default : Links := mkLinks None None None None None.

(** The keyword arguments [_fetch_products] passes to [Product(...)],
    before validation. *)
Record ProductArgs : Type := mkProductArgs {
  arg_id : string;
  arg_title : Json.t;
  arg_handle : Json.t;
  arg_description : Json.t;
  arg_price : Json.t;
  arg_image : Json.t;
  arg_url : string;
  arg_tags : Json.t;
  arg_variants : Json.t }.

(** ** The libraries behind the scraper *)

Class Lib : Type := {
  (** [json.loads]; [None]: JSONDecodeError *)
  json_loads : string -> option Json.t;
  (** [BeautifulSoup(content, 'html.parser')]; [None]:
      ParserRejectedMarkup, for markup [html.parser] gives up on *)
  BeautifulSoup : string -> option Bs4.node;
  (** [urljoin(base, url)]; [None]: ValueError *)
  urljoin : string -> string -> option string;
  (** [urlparse(url).netloc] *)
  netloc : string -> string;
  (** [str(v)] of a list or a dict *)
  repr : Json.t -> string;
  (** pydantic's validation of [Product(...)]; [None]: ValidationError *)
  Product_init : ProductArgs -> option Product;
  (** [list(s)] of a set of strings: its elements, in the order the hash
      table has them *)
  list_of_set : gset string -> list string;
  list_of_set_perm : ∀ X, list_of_set X ≡ₚ elements X }.

(** [str(v)] of a scalar, and of any value *)
Definition str_scalar (v : Json.t) : option string :=
  match v with
  | Json.Null => Some "None"
  | Json.Bool true => Some "True"
  | Json.Bool false => Some "False"
  | Json.Int z => Some (pretty z)
  | Json.Float r => Some r
  | Json.Str s => Some s
  | Json.Arr _ | Json.Obj _ => None
  end.

Definition str `{Lib} (v : Json.t) : string := default (repr v) (str_scalar v).

(** ** Exceptions ([app/core/exceptions.py]) and the outcome of a GET *)

Inductive exn : Type :=
| WebsiteNotFoundException (detail : string)
| InvalidShopifyStoreError
| OtherException (name : string)   (* any other subclass of [Exception] *)
| BaseExceptionOnly (name : string).
    (* not a subclass of [Exception]: CancelledError, KeyboardInterrupt *)

(** What [except Exception] catches. *)
Definition is_Exception (e : exn) : bool :=
  match e with
  | BaseExceptionOnly _ => false
  | _ => true
  end.

Inductive outcome : Type :=
| Response (body : string) (status : Z)
| ClientError (msg : string)     (* [aiohttp.ClientError] *)
| Failure (e : exn).             (* anything else [session.get] raises *)

(** The network: the outcome of a GET, given the URLs requested before it. *)
Definition network : Type := list string -> string -> outcome.

(** ** The scraper object and its methods' monad *)

Record scraper : Type := mkScraper {
  base_url : string;
  session : bool;                 (* [self.session is not None] *)
  soup : option Bs4.node;
  is_shopify : bool;
  requested : list string;        (* ghost: the URLs fetched, oldest first *)
  opens : nat;                    (* ghost: calls of [aiohttp.ClientSession()] *)
  closes : nat }.                 (* ghost: calls of [session.close()] *)

(** [ShopifyScraper(website_url)], given the normalized URL. *)
Definition new_scraper (url : string) : scraper :=
  mkScraper url false None false [] 0 0.

Inductive result (A : Type) : Type :=
| Ok (a : A)
| Raise (e : exn).
Arguments Ok {A} a.
Arguments Raise {A} e.

Definition M (A : Type) : Type := scraper -> result A * scraper.

Definition ret {A} (a : A) : M A := λ s, (Ok a, s).
Definition raise {A} (e : exn) : M A := λ s, (Raise e, s).
Definition bind {A B} (m : M A) (k : A -> M B) : M B :=
  λ s, match m s with
       | (Ok a, s') => k a s'
       | (Raise e, s') => (Raise e, s')
       end.

Notation "x <- m ;; k" := (bind m (λ x, k))
  (at level 100, m at next level, right associativity).
Notation "m ;;; k" := (bind m (λ _, k))
  (at level 100, right associativity).

(** [try: m  except Exception: h] *)
Definition try_except {A} (m : M A) (h : M A) : M A :=
  λ s, match m s with
       | (Raise e, s') => if is_Exception e then h s' else (Raise e, s')
       | r => r
       end.

(** [try: m  finally: f] *)
Definition try_finally {A} (m : M A) (f : M unit) : M A :=
  λ s, match m s with
       | (r, s') =>
           match f s' with
           | (Ok _, s'') => (r, s'')
           | (Raise e, s'') => (Raise e, s'')
           end
       end.

(** An expression that raises some [Exception] when it has no value. *)
Definition value {A} (name : string) (o : option A) : M A :=
  match o with
  | Some a => ret a
  | None => raise (OtherException name)
  end.

(** How one iteration of a [for] loop ends, with the loop's variable. *)
Inductive flow (A : Type) : Type :=
| Break (a : A)
| Continue (a : A).
Arguments Break {A} a.
Arguments Continue {A} a.

Definition self : M scraper := λ s, (Ok s, s).
Definition update (f : scraper -> scraper) : M unit := λ s, (Ok tt, f s).

Definition set_session (b : bool) (s : scraper) : scraper :=
  mkScraper (base_url s) b (soup s) (is_shopify s) (requested s) (opens s)
            (closes s).
Definition set_soup (sp : Bs4.node) (s : scraper) : scraper :=
  mkScraper (base_url s) (session s) (Some sp) (is_shopify s) (requested s)
            (opens s) (closes s).
Definition set_is_shopify (b : bool) (s : scraper) : scraper :=
  mkScraper (base_url s) (session s) (soup s) b (requested s) (opens s)
            (closes s).
Definition log_request (u : string) (s : scraper) : scraper :=
  mkScraper (base_url s) (session s) (soup s) (is_shopify s) (requested s ++ [u])
            (opens s) (closes s).
Definition log_open (s : scraper) : scraper :=
  mkScraper (base_url s) (session s) (soup s) (is_shopify s) (requested s)
            (S (opens s)) (closes s).
Definition log_close (s : scraper) : scraper :=
  mkScraper (base_url s) (session s) (soup s) (is_shopify s) (requested s)
            (opens s) (S (closes s)).

(** ** The patterns of [scraper.py] *)

Module Pat.
Import Re.

Definition cdn : t := Lit "cdn.shopify.com".
Definition product_path : t := Lit "/products/".
Definition mailto : t := Lit "mailto:".
Definition tel : t := Lit "tel:".

(** [(content|main|page).*] and the FAQ class patterns *)
Definition keywords (k : string) (ks : list string) : t :=
  cat [Grp (alts (Lit k) (Lit <$> ks)); dot_star].
Definition main_class : t := keywords "content" ["main"; "page"].
Definition accordion_class : t := keywords "accordion" ["faq-item"; "collapse"].
Definition question_class : t := keywords "question" ["header"; "title"].
Definition answer_class : t := keywords "answer" ["content"; "body"].
Definition flat_question_class : t := keywords "question" ["faq-question"].

(** [[\w\.-]+@[\w\.-]+\.[a-zA-Z]{2,}] *)
Definition email_char (c : ascii) : bool := Py.is_word c || one_of ".-" c.
Definition email_pattern : t :=
  cat [plus email_char; Lit "@"; plus email_char; Lit "."; Rep Py.is_alpha 2 None].

(** [\+?[\d\s\(\)\-]{10,20}] *)
Definition phone_char (c : ascii) : bool :=
  Py.is_digit c || Py.is_space c || one_of "()-" c.
Definition phone_pattern : t :=
  cat [Opt (Lit "+"); Rep phone_char 10 (Some 20)].

(** [[\s\(\)\-]+] *)
Definition phone_filler (c : ascii) : bool := Py.is_space c || one_of "()-" c.
Definition phone_fill : t := plus phone_filler.

End Pat.

(** The keys of [social_patterns], in the order of the dict. *)
Inductive platform : Type :=
| Instagram | Facebook | Tiktok | Twitter | Youtube | Linkedin | Pinterest.

Definition platforms : list platform :=
  [Instagram; Facebook; Tiktok; Twitter; Youtube; Linkedin; Pinterest].

#[global] Instance platform_eq_dec : EqDecision platform.
Proof. solve_decision. Defined.

Definition social_patterns (p : platform) : Re.t :=
  match p with
  | Instagram => Re.Grp (Re.Alt (Re.Lit "instagram.com") (Re.Lit "instagram"))
  | Facebook => Re.Grp (Re.Alt (Re.Lit "facebook.com") (Re.Lit "facebook"))
  | Tiktok => Re.Grp (Re.Alt (Re.Lit "tiktok.com") (Re.Lit "tiktok"))
  | Twitter => Re.Grp (Re.Alt (Re.Lit "twitter.com") (Re.Lit "x.com"))
  | Youtube => Re.Grp (Re.Alt (Re.Lit "youtube.com") (Re.Lit "youtube"))
  | Linkedin => Re.Grp (Re.Alt (Re.Lit "linkedin.com") (Re.Lit "linkedin"))
  | Pinterest => Re.Grp (Re.Alt (Re.Lit "pinterest.com") (Re.Lit "pinterest"))
  end.

(** The [patterns] of [_extract_social_username]. *)
Definition username_patterns (p : platform) : Re.t :=
  let word_or (cs : string) (c : ascii) := Py.is_word c || Re.one_of cs c in
  match p with
  | Instagram => Re.cat [Re.Lit "instagram.com/"; Re.Grp (Re.plus (word_or "._"))]
  | Facebook => Re.cat [Re.Lit "facebook.com/"; Re.Grp (Re.plus (word_or "."))]
  | Tiktok =>
      Re.cat [Re.Lit "tiktok.com/"; Re.Opt (Re.Lit "@"); Re.Grp (Re.plus (word_or "."))]
  | Twitter =>
      Re.cat [Re.Grp (Re.Alt (Re.Lit "twitter") (Re.Lit "x")); Re.Lit ".com/";
              Re.Grp (Re.plus Py.is_word)]
  | Youtube =>
      Re.cat [Re.Lit "youtube.com/"; Re.Grp (Re.Alt (Re.Lit "user") (Re.Lit "channel"));
              Re.Lit "/"; Re.Grp (Re.plus Py.is_word)]
  | Linkedin =>
      Re.cat [Re.Lit "linkedin.com/"; Re.Grp (Re.Alt (Re.Lit "company") (Re.Lit "in"));
              Re.Lit "/"; Re.Grp (Re.plus (word_or "-"))]
  | Pinterest => Re.cat [Re.Lit "pinterest.com/"; Re.Grp (Re.plus Py.is_word)]
  end.

(** [setattr(socials, social, v)] and [getattr(socials, social)] *)
Definition set_social (p : platform) (v : string) (x : Socials) : Socials :=
  match p with
  | Instagram => mkSocials (Some v) (facebook x) (tiktok x) (twitter x) (youtube x) (linkedin x) (pinterest x)
  | Facebook => mkSocials (instagram x) (Some v) (tiktok x) (twitter x) (youtube x) (linkedin x) (pinterest x)
  | Tiktok => mkSocials (instagram x) (facebook x) (Some v) (twitter x) (youtube x) (linkedin x) (pinterest x)
  | Twitter => mkSocials (instagram x) (facebook x) (tiktok x) (Some v) (youtube x) (linkedin x) (pinterest x)
  | Youtube => mkSocials (instagram x) (facebook x) (tiktok x) (twitter x) (Some v) (linkedin x) (pinterest x)
  | Linkedin => mkSocials (instagram x) (facebook x) (tiktok x) (twitter x) (youtube x) (Some v) (pinterest x)
  | Pinterest => mkSocials (instagram x) (facebook x) (tiktok x) (twitter x) (youtube x) (linkedin x) (Some v)
  end.

Definition get_social (p : platform) (x : Socials) : option string :=
  match p with
  | Instagram => instagram x
  | Facebook => facebook x
  | Tiktok => tiktok x
  | Twitter => twitter x
  | Youtube => youtube x
  | Linkedin => linkedin x
  | Pinterest => pinterest x
  end.

(** The keys of [link_patterns], in the order of the dict. *)
Inductive link_type : Type :=
| OrderTracking | ContactUs | Blogs | Shipping | Careers.

Definition link_types : list link_type :=
  [OrderTracking; ContactUs; Blogs; Shipping; Careers].

#[global] Instance link_type_eq_dec : EqDecision link_type.
Proof. solve_decision. Defined.

Definition link_patterns (k : link_type) : Re.t :=
  let gap (a b : string) := Re.cat [Re.Lit a; Re.Opt Re.Dot; Re.Lit b] in
  match k with
  | OrderTracking =>
      Re.Grp (Re.alts (gap "order" "tracking") [gap "track" "order"; gap "track" "package"])
  | ContactUs => Re.Grp (Re.Alt (Re.Lit "contact") (gap "contact" "us"))
  | Blogs => Re.Grp (Re.alts (Re.Lit "blog") [Re.Lit "news"; Re.Lit "articles"])
  | Shipping => Re.Grp (Re.Alt (Re.Lit "shipping") (Re.Lit "delivery"))
  | Careers =>
      Re.Grp (Re.alts (Re.Lit "careers")
                [Re.Lit "jobs"; gap "join" "us";
                 Re.cat [Re.Lit "work"; Re.Opt Re.Dot; Re.Lit "with"; Re.Opt Re.Dot; Re.Lit "us"]])
  end.

Definition set_link (k : link_type) (v : string) (x : Links) : Links :=
  match k with
  | OrderTracking => mkLinks (Some v) (contact_us x) (blogs x) (shipping x) (careers x)
  | ContactUs => mkLinks (order_tracking x) (Some v) (blogs x) (shipping x) (careers x)
  | Blogs => mkLinks (order_tracking x) (contact_us x) (Some v) (shipping x) (careers x)
  | Shipping => mkLinks (order_tracking x) (contact_us x) (blogs x) (Some v) (careers x)
  | Careers => mkLinks (order_tracking x) (contact_us x) (blogs x) (shipping x) (Some v)
  end.

Definition get_link (k : link_type) (x : Links) : option string :=
  match k with
  | OrderTracking => order_tracking x
  | ContactUs => contact_us x
  | Blogs => blogs x
  | Shipping => shipping x
  | Careers => careers x
  end.

(** The keys of [policy_paths], in the order of the dict. *)
Inductive policy_type : Type :=
| Privacy | ReturnPolicy | Refund | Terms.

Definition policy_types : list policy_type := [Privacy; ReturnPolicy; Refund; Terms].

#[global] Instance policy_type_eq_dec : EqDecision policy_type.
Proof. solve_decision. Defined.

Definition policy_paths (k : policy_type) : list string :=
  match k with
  | Privacy => ["/policies/privacy-policy"; "/pages/privacy-policy"; "/pages/privacy"]
  | ReturnPolicy =>
      ["/policies/refund-policy"; "/pages/refund-policy"; "/pages/returns";
       "/pages/return-policy"]
  | Refund => ["/policies/refund-policy"; "/pages/refund-policy"; "/pages/refunds"]
  | Terms =>
      ["/policies/terms-of-service"; "/pages/terms-of-service"; "/pages/terms";
       "/pages/terms-conditions"]
  end.

Definition set_policy (k : policy_type) (v : string) (x : Policies) : Policies :=
  match k with
  | Privacy => mkPolicies (Some v) (return_policy x) (refund x) (terms x)
  | ReturnPolicy => mkPolicies (privacy x) (Some v) (refund x) (terms x)
  | Refund => mkPolicies (privacy x) (return_policy x) (Some v) (terms x)
  | Terms => mkPolicies (privacy x) (return_policy x) (refund x) (Some v)
  end.

Definition get_policy (k : policy_type) (x : Policies) : option string :=
  match k with
  | Privacy => privacy x
  | ReturnPolicy => return_policy x
  | Refund => refund x
  | Terms => terms x
  end.

Definition product_endpoints : list string :=
  ["/products.json?limit=250"; "/collections/all/products.json?limit=250"].
Definition faq_paths : list string :=
  ["/faq"; "/pages/faq"; "/pages/faqs"; "/pages/frequently-asked-questions"].
Definition contact_paths : list string :=
  ["/contact"; "/pages/contact"; "/pages/contact-us"].
Definition about_paths : list string :=
  ["/about"; "/pages/about"; "/pages/about-us"; "/pages/our-story"; "/pages/story"].

(** ** [ShopifyScraper] *)

Section Scraper.
Context `{L : Lib} (net : network).

Definition _init_session : M unit :=
  s <- self ;;
  if session s then ret tt
  else update log_open ;;; update (set_session true).

Definition _close_session : M unit :=
  s <- self ;;
  if session s then update log_close ;;; update (set_session false)
  else ret tt.

(** The GET itself: the request is recorded, the network answers. *)
Definition session_get (url : string) : M (string * Z) :=
  λ s, let s' := log_request url s in
       match net (requested s) url with
       | Response content status => (Ok (content, status), s')
       | ClientError msg =>
           (Raise (WebsiteNotFoundException
                     ("Failed to fetch " +:+ url +:+ ": " +:+ msg)), s')
       | Failure e => (Raise e, s')
       end.

Definition _fetch_url (url : string) : M (string * Z) :=
  _init_session ;;; session_get url.

(** [await self._fetch_url(urljoin(self.base_url, path))], the first
    statement of every candidate loop. *)
Definition fetch_path (path : string) : M (string * Z) :=
  s <- self ;;
  url <- value "ValueError" (urljoin (base_url s) path) ;;
  _fetch_url url.

Definition shopify_indicators (content : string) (sp : Bs4.node) : list bool :=
  [ Py.contains "Shopify.theme" content;
    Py.contains "cdn.shopify.com" content;
    Py.contains "myshopify.com" content;
    bool_decide (is_Some (Bs4.find ["link"] (Bs4.matches "href" Pat.cdn) sp));
    bool_decide (is_Some (Bs4.find ["script"] (Bs4.matches "src" Pat.cdn) sp)) ].

Definition _check_is_shopify : M bool :=
  s <- self ;;
  page <- _fetch_url (base_url s) ;;
  let '(content, status) := page in
  if negb (status =? 200)%Z
  then raise (WebsiteNotFoundException
                ("Website returned status code " +:+ pretty status))
  else
    sp <- value "ParserRejectedMarkup" (BeautifulSoup content) ;;
    update (set_soup sp) ;;;
    let b := Py.any (shopify_indicators content sp) in
    update (set_is_shopify b) ;;;
    ret b.

(** *** Products *)

(** [None] below stands for a raised exception; Python's [None] is
    [Json.Null]. *)
Definition _get_product_price (product_data : Json.t) : option Json.t :=
  has ← Json.contains "variants" product_data;
  if (has : bool) then
    vs ← Json.item "variants" product_data;
    if Json.truthy vs then
      variant ← Json.item0 vs;
      has_price ← Json.contains "price" variant;
      if (has_price : bool) then Json.item "price" variant else Some Json.Null
    else Some Json.Null
  else Some Json.Null.

Definition _get_product_image (product_data : Json.t) : option Json.t :=
  has ← Json.contains "images" product_data;
  if (has : bool) then
    imgs ← Json.item "images" product_data;
    if Json.truthy imgs then
      image ← Json.item0 imgs;
      has_src ← Json.contains "src" image;
      if (has_src : bool) then Json.item "src" image else Some Json.Null
    else Some Json.Null
  else Some Json.Null.

(** The [tags] argument: the list as it is, or the string split on
    [', ']. *)
Definition product_tags (product_data : Json.t) : option Json.t :=
  v ← Json.get "tags" Json.Null product_data;
  if Json.is_list v then Json.get "tags" (Json.Arr []) product_data
  else
    w ← Json.get "tags" (Json.Str "") product_data;
    match w with
    | Json.Str s => Some (Json.Arr (Json.Str <$> Py.split ", " s))
    | _ => None
    end.

(** The body of the loop over [data['products']]: the [Product(...)] of
    one record. *)
Definition new_product (base : string) (product_data : Json.t) : option Product :=
  v_id ← Json.get "id" Json.Null product_data;
  v_title ← Json.get "title" (Json.Str "") product_data;
  v_handle ← Json.get "handle" (Json.Str "") product_data;
  v_description ← Json.get "body_html" (Json.Str "") product_data;
  v_price ← _get_product_price product_data;
  v_image ← _get_product_image product_data;
  h ← Json.get "handle" Json.Null product_data;
  v_url ← urljoin base ("/products/" +:+ str h);
  v_tags ← product_tags product_data;
  v_variants ← Json.get "variants" (Json.Arr []) product_data;
  Product_init
    (mkProductArgs (str v_id) v_title v_handle v_description v_price v_image
                   v_url v_tags v_variants).

(** The loop over [data['products']]: the list after the appends made, and
    whether the loop ran to its end ([false]: a record raised). *)
Fixpoint append_products (base : string) (items : list Json.t)
    (products : list Product) : list Product * bool :=
  match items with
  | [] => (products, true)
  | product_data :: rest =>
      match new_product base product_data with
      | Some product => append_products base rest (products ++ [product])
      | None => (products, false)
      end
  end.

(** The loop over [product_endpoints].  An exception raised among the
    appends leaves in [products] what was appended before it, and the
    handler goes on to the next endpoint. *)
Fixpoint products_loop (endpoints : list string) (products : list Product)
    : M (list Product) :=
  match endpoints with
  | [] => ret products
  | endpoint :: rest =>
      r <- try_except
             (s <- self ;;
              page <- fetch_path endpoint ;;
              let '(content, status) := page in
              if (status =? 200)%Z then
                data <- value "JSONDecodeError" (json_loads content) ;;
                has <- value "TypeError" (Json.contains "products" data) ;;
                if (has : bool) then
                  items <- value "TypeError"
                             (Json.item "products" data ≫= Json.iter) ;;
                  match append_products (base_url s) items products with
                  | (products', true) => ret (Break products')
                  | (products', false) => ret (Continue products')
                  end
                else ret (Continue products)
              else ret (Continue products))
             (ret (Continue products)) ;;
      match r with
      | Break products' => ret products'
      | Continue products' => products_loop rest products'
      end
  end.

Definition _fetch_products : M (list Product) :=
  products_loop product_endpoints [].

(** *** Hero products *)

(** [if not self.soup: ...], the opening of five methods. *)
Definition homepage_soup : M Bs4.node :=
  s <- self ;;
  match soup s with
  | Some sp => ret sp
  | None =>
      page <- _fetch_url (base_url s) ;;
      sp <- value "ParserRejectedMarkup" (BeautifulSoup page.1) ;;
      update (set_soup sp) ;;; ret sp
  end.

Definition handle_of_href (href : string) : string :=
  Py.first (Py.split "?" (Py.final (Py.split "/" href))).

Definition matching_product (all_products : list Product) (h : string)
    : option Product :=
  List.find (λ p, bool_decide (handle p = Some h)) all_products.

Fixpoint hero_loop (all_products : list Product) (product_links : list Bs4.node)
    (hero_products : list Product) (product_handles : gset string)
    : list Product :=
  match product_links with
  | [] => hero_products
  | link :: rest =>
      let href := Bs4.get "href" link in
      let h := handle_of_href href in
      if negb (String.eqb h "") && bool_decide (h ∉ product_handles) then
        let product_handles' := product_handles ∪ {[h]} in
        match matching_product all_products h with
        | Some p => hero_loop all_products rest (hero_products ++ [p]) product_handles'
        | None => hero_loop all_products rest hero_products product_handles'
        end
      else hero_loop all_products rest hero_products product_handles
  end.

Definition _fetch_hero_products (all_products : list Product) : M (list Product) :=
  sp <- homepage_soup ;;
  let product_links := Bs4.find_all ["a"] (Bs4.matches "href" Pat.product_path) sp in
  ret (take 10 (hero_loop all_products product_links [] ∅)).

(** *** Policies and about *)

(** [soup.find('main')], else the first [div] whose class matches; the
    text of what was found. *)
Definition main_content (sp : Bs4.node) : option Bs4.node :=
  match Bs4.find ["main"] Bs4.any sp with
  | Some m => Some m
  | None => Bs4.find ["div"] (Bs4.matches "class" Pat.main_class) sp
  end.

Definition text_block (sp : Bs4.node) : option string :=
  Bs4.get_text_strip Py.nl <$> main_content sp.

(** The loop over [about_paths] in [_fetch_about], which is also the inner
    loop over [paths] in [_fetch_policies]: the text of the first page that
    answers 200 and has a main content, where the loop breaks. *)
Fixpoint text_page_loop (paths : list string) : M (option string) :=
  match paths with
  | [] => ret None
  | path :: rest =>
      r <- try_except
             (page <- fetch_path path ;;
              let '(content, status) := page in
              if (status =? 200)%Z then
                sp <- value "ParserRejectedMarkup" (BeautifulSoup content) ;;
                ret (text_block sp)
              else ret None)
             (ret None) ;;
      match r with
      | Some page_text => ret (Some page_text)
      | None => text_page_loop rest
      end
  end.

Fixpoint policies_loop (types : list policy_type) (policies : Policies)
    : M Policies :=
  match types with
  | [] => ret policies
  | policy_type :: rest =>
      r <- text_page_loop (policy_paths policy_type) ;;
      policies_loop rest
        match r with
        | Some policy_text => set_policy policy_type policy_text policies
        | None => policies
        end
  end.

Definition _fetch_policies : M Policies :=
  policies_loop policy_types Policies_default.

Definition _fetch_about : M (option string) :=
  text_page_loop about_paths.

(** *** FAQs *)

(** Method 1: the accordion items with a question and an answer. *)
Definition accordion_pair (item : Bs4.node) : option FAQ :=
  question_elem ←
    Bs4.find ["summary"; "h3"; "h4"; "button"; "div"]
             (Bs4.matches "class" Pat.question_class) item;
  answer_elem ←
    Bs4.find ["div"; "p"] (Bs4.matches "class" Pat.answer_class) item;
  let q := Bs4.get_text_strip "" question_elem in
  let a := Bs4.get_text_strip "" answer_elem in
  if negb (String.eqb q "") && negb (String.eqb a "")
  then Some (mkFAQ q a) else None.

Definition accordion_faqs (sp : Bs4.node) : list FAQ :=
  omap accordion_pair
    (Bs4.find_all ["details"; "div"] (Bs4.matches "class" Pat.accordion_class) sp).

(** Method 2: each question heading with the next [p] or [div]. *)
Definition flat_pair (q : Bs4.node * list Bs4.node) : option FAQ :=
  let qtext := Bs4.get_text_strip "" q.1 in
  answer_elem ← Bs4.find_next ["p"; "div"] q.2;
  let a := Bs4.get_text_strip "" answer_elem in
  if negb (String.eqb qtext "") && negb (String.eqb a "")
  then Some (mkFAQ qtext a) else None.

Definition flat_faqs (sp : Bs4.node) : list FAQ :=
  omap flat_pair
    (List.filter
       (λ q, Bs4.named ["h3"; "h4"; "strong"] q.1
             && Bs4.matches "class" Pat.flat_question_class q.1)
       (Bs4.with_next (Bs4.descendants sp))).

(** What one page does to [faqs]: method 1 appends; method 2 runs
    [if not faqs]. *)
Definition page_faqs (sp : Bs4.node) (faqs : list FAQ) : list FAQ :=
  let faqs1 := faqs ++ accordion_faqs sp in
  if bool_decide (faqs1 = []) then faqs1 ++ flat_faqs sp else faqs1.

Fixpoint faqs_loop (paths : list string) (faqs : list FAQ) : M (list FAQ) :=
  match paths with
  | [] => ret faqs
  | path :: rest =>
      r <- try_except
             (page <- fetch_path path ;;
              let '(content, status) := page in
              if (status =? 200)%Z then
                sp <- value "ParserRejectedMarkup" (BeautifulSoup content) ;;
                let faqs' := page_faqs sp faqs in
                if bool_decide (faqs' = []) then ret (Continue faqs')
                else ret (Break faqs')
              else ret (Continue faqs))
             (ret (Continue faqs)) ;;
      match r with
      | Break faqs' => ret faqs'
      | Continue faqs' => faqs_loop rest faqs'
      end
  end.

Definition _fetch_faqs : M (list FAQ) := faqs_loop faq_paths [].

(** *** Social handles *)

Definition _extract_social_username (p : platform) (url : string)
    : option string :=
  match Re.search (username_patterns p) url with
  | Some m =>
      if bool_decide (p = Twitter) && Re.group_true 2 m
      then Some ("@" +:+ default "" (Re.group 2 m))
      else if bool_decide (p = Youtube) && Re.group_true 2 m
      then Some (default "" (Re.group 2 m))
      else if Re.group_true 1 m
      then Some ("@" +:+ default "" (Re.group 1 m))
      else None
  | None => None
  end.

(** [username or href] *)
Definition social_value (p : platform) (href : string) : string :=
  match _extract_social_username p href with
  | Some username => if String.eqb username "" then href else username
  | None => href
  end.

(** The inner loop, over [social_patterns.items()]. *)
Fixpoint social_patterns_loop (ps : list platform) (href : string)
    (socials : Socials) : Socials :=
  match ps with
  | [] => socials
  | social :: rest =>
      social_patterns_loop rest href
        (if Re.found (social_patterns social) href
         then set_social social (social_value social href) socials
         else socials)
  end.

(** The outer loop, over [links]. *)
Fixpoint socials_loop (anchors : list Bs4.node) (socials : Socials) : Socials :=
  match anchors with
  | [] => socials
  | link :: rest =>
      let href := Py.lower (Bs4.get "href" link) in
      socials_loop rest (social_patterns_loop platforms href socials)
  end.

Definition _fetch_social_handles : M Socials :=
  sp <- homepage_soup ;;
  let anchors := Bs4.find_all ["a"] (Bs4.has "href") sp in
  ret (socials_loop anchors Socials_default).

(** *** Contact *)

(** The loop over [contact_paths]: the first page that answers 200. *)
Fixpoint contact_page_loop (paths : list string) : M (option Bs4.node) :=
  match paths with
  | [] => ret None
  | path :: rest =>
      r <- try_except
             (page <- fetch_path path ;;
              let '(content, status) := page in
              if (status =? 200)%Z then
                sp <- value "ParserRejectedMarkup" (BeautifulSoup content) ;;
                ret (Some sp)
              else ret None)
             (ret None) ;;
      match r with
      | Some contact_soup => ret (Some contact_soup)
      | None => contact_page_loop rest
      end
  end.

Fixpoint mailto_loop (mailto_links : list Bs4.node) (emails : gset string)
    : gset string :=
  match mailto_links with
  | [] => emails
  | link :: rest =>
      let href := Bs4.get "href" link in
      let email := Py.strip (Py.first (Py.split "?" (Py.remove "mailto:" href))) in
      mailto_loop rest
        (if bool_decide (is_Some (Re.match_ Pat.email_pattern email))
         then emails ∪ {[email]} else emails)
  end.

Definition clean_phone (phone : string) : string :=
  Re.delete Pat.phone_fill phone.

(** The test of the loop over [found_phones]. *)
Definition phone_kept (phone : string) : bool :=
  (10 <=? String.length (clean_phone phone))%nat.

Fixpoint found_phones_loop (found_phones : list string) (phones : gset string)
    : gset string :=
  match found_phones with
  | [] => phones
  | phone :: rest =>
      found_phones_loop rest
        (if phone_kept phone then phones ∪ {[Py.strip phone]} else phones)
  end.

Fixpoint tel_loop (tel_links : list Bs4.node) (phones : gset string)
    : gset string :=
  match tel_links with
  | [] => phones
  | link :: rest =>
      let href := Bs4.get "href" link in
      tel_loop rest (phones ∪ {[Py.strip (Py.remove "tel:" href)]})
  end.

(** The phones found in the visible text, and all phones. *)
Definition text_phones (page_text : string) : gset string :=
  found_phones_loop (Re.findall Pat.phone_pattern page_text) ∅.

(** The sets [emails] and [phones] at the end of [_fetch_contact_info]. *)
Definition emails_of (contact_soup : Bs4.node) : gset string :=
  mailto_loop
    (Bs4.find_all ["a"] (Bs4.matches "href" Pat.mailto) contact_soup)
    (list_to_set (Re.findall Pat.email_pattern (Bs4.get_text contact_soup))).

Definition phones_of (contact_soup : Bs4.node) : gset string :=
  tel_loop
    (Bs4.find_all ["a"] (Bs4.matches "href" Pat.tel) contact_soup)
    (text_phones (Bs4.get_text contact_soup)).

(** [contact.emails = list(emails)], [contact.phones = list(phones)] *)
Definition contact_of (contact_soup : Bs4.node) : Contact :=
  mkContact (list_of_set (emails_of contact_soup))
            (list_of_set (phones_of contact_soup)).

Definition _fetch_contact_info : M Contact :=
  sp <- homepage_soup ;;
  found <- contact_page_loop contact_paths ;;
  ret (contact_of (default sp found)).

(** *** Important links *)

(** The inner loop, over [link_patterns.items()]; [None]: [urljoin]
    raised. *)
Fixpoint link_patterns_loop (ks : list link_type) (base href anchor_text : string)
    (links : Links) : option Links :=
  match ks with
  | [] => Some links
  | link_type :: rest =>
      if Re.found (link_patterns link_type) href
         || Re.found (link_patterns link_type) anchor_text
      then
        full_url ← urljoin base href;
        link_patterns_loop rest base href anchor_text
          (set_link link_type full_url links)
      else link_patterns_loop rest base href anchor_text links
  end.

(** The outer loop, over [all_links]. *)
Fixpoint links_loop (base : string) (all_links : list Bs4.node) (links : Links)
    : option Links :=
  match all_links with
  | [] => Some links
  | link :: rest =>
      let href := Py.lower (Bs4.get "href" link) in
      let anchor_text := Py.lower (Bs4.get_text link) in
      links' ← link_patterns_loop link_types base href anchor_text links;
      links_loop base rest links'
  end.

Definition links_of (base : string) (sp : Bs4.node) : option Links :=
  links_loop base (Bs4.find_all ["a"] (Bs4.has "href") sp) Links_default.

Definition _fetch_important_links : M Links :=
  sp <- homepage_soup ;;
  s <- self ;;
  value "ValueError" (links_of (base_url s) sp).

(** *** The run *)

(** The [try] block of [get_brand_context]. *)
Definition run_body : M BrandContext :=
  ok <- _check_is_shopify ;;
  if negb ok then raise InvalidShopifyStoreError
  else
    s <- self ;;
    let v_brand := netloc (base_url s) in
    v_products <- _fetch_products ;;
    v_hero_products <- _fetch_hero_products v_products ;;
    v_policies <- _fetch_policies ;;
    v_faqs <- _fetch_faqs ;;
    v_socials <- _fetch_social_handles ;;
    v_contact <- _fetch_contact_info ;;
    v_about <- _fetch_about ;;
    v_links <- _fetch_important_links ;;
    ret (mkBrandContext v_brand v_products v_hero_products v_policies
                        v_faqs v_socials v_contact v_about v_links).

Definition get_brand_context : M BrandContext :=
  try_finally run_body _close_session.

End Scraper.

(** ** The vocabulary of the properties *)

(** The frame of a method, which every method but the detector and the
    finaliser respects: the URL, the number of closes and a parsed homepage
    stay, an open session stays open and no other is created, requests are
    only added. *)
Record ext (s s' : scraper) : Prop := mkExt {
  ext_base_url : base_url s' = base_url s;
  ext_closes : closes s' = closes s;
  ext_session : session s = true → session s' = true;
  ext_opens : session s = true → opens s' = opens s;
  ext_soup : ∀ sp, soup s = Some sp → soup s' = Some sp;
  ext_requested : requested s `prefix_of` requested s' }.

(** [m] only extends the state it starts from. *)
Definition framed {A} (m : M A) : Prop := ∀ s, ext s (m s).2.

(** The state once the session exists. *)
Definition opened (s : scraper) : scraper :=
  if session s then s else set_session true (log_open s).

(** The state after the homepage was fetched and parsed into [sp]. *)
Definition checked (content : string) (sp : Bs4.node) (s : scraper) : scraper :=
  set_is_shopify (Py.any (shopify_indicators content sp))
    (set_soup sp (log_request (base_url s) (opened s))).

(** The tests of the two inner loops, for one anchor. *)
Definition social_match (p : platform) (link : Bs4.node) : bool :=
  Re.found (social_patterns p) (Py.lower (Bs4.get "href" link)).

Definition link_match (k : link_type) (link : Bs4.node) : bool :=
  Re.found (link_patterns k) (Py.lower (Bs4.get "href" link))
  || Re.found (link_patterns k) (Py.lower (Bs4.get_text link)).

(** The records of a feed: the document decodes, has [products], and
    [data['products']] can be iterated. *)
Definition feed_records `{L : Lib} (content : string) : option (list Json.t) :=
  data ← json_loads content;
  has ← Json.contains "products" data;
  if (has : bool) then Json.item "products" data ≫= Json.iter else None.

(** The words of a pattern. *)
Inductive lang : Re.t → list ascii → Prop :=
| lang_eps : lang Re.Eps []
| lang_lit s : lang (Re.Lit s) (Py.chars s)
| lang_dot c : Re.not_newline c = true → lang Re.Dot [c]
| lang_cls (p : ascii → bool) c : p c = true → lang (Re.Cls p) [c]
| lang_seq r1 r2 w1 w2 : lang r1 w1 → lang r2 w2 → lang (Re.Seq r1 r2) (w1 ++ w2)
| lang_alt_l r1 r2 w : lang r1 w → lang (Re.Alt r1 r2) w
| lang_alt_r r1 r2 w : lang r2 w → lang (Re.Alt r1 r2) w
| lang_opt_some r w : lang r w → lang (Re.Opt r) w
| lang_opt_none r : lang (Re.Opt r) []
| lang_rep (p : ascii → bool) lo hi w :
    Forall (λ c, p c = true) w →
    (lo ≤ length w)%nat →
    (∀ h, hi = Some h → (length w ≤ h)%nat) →
    lang (Re.Rep p lo hi) w
| lang_grp r w : lang r w → lang (Re.Grp r) w.

(** A fetch fails: the answer is not 200, or [session.get] raises an
    [Exception]. *)
Definition fails (o : outcome) : Prop :=
  match o with
  | Response _ status => status ≠ 200%Z
  | ClientError _ => True
  | Failure e => is_Exception e = true
  end.

(** The candidate paths and endpoints of the extractors. *)
Definition candidates : list string :=
  product_endpoints ++ (policy_types ≫= policy_paths) ++ faq_paths
  ++ contact_paths ++ about_paths.

(** Every fetch of a candidate made after the requests [log] fails. *)
Definition all_fail_after `{L : Lib} (net : network) (base : string)
    (log : list string) : Prop :=
  ∀ l path url,
    log `prefix_of` l → path ∈ candidates → urljoin base path = Some url →
    fails (net l url).

(** The socials the homepage gives. *)
Definition socials_of (sp : Bs4.node) : Socials :=
  socials_loop (Bs4.find_all ["a"] (Bs4.has "href") sp) Socials_default.

(** ** A storefront to run the scraper on

    The library instance of the examples: a parser and a decoder that know
    the documents below (the feeds are named, not spelled out), [urljoin]
    for absolute URLs and absolute paths, pydantic's coercion of scalars to
    [str]. *)

Module Demo.

Definition base : string := "https://shop.example".

Definition document (kids : list Bs4.node) : Bs4.node :=
  Bs4.Tag "[document]" [] kids.
Definition anchor (href label : string) : Bs4.node :=
  Bs4.Tag "a" [("href", href)] [Bs4.Text label].

(** The homepage: a platform script, two Instagram links, a product link,
    a contact link, a phone number and an address. *)
Definition home_html : string :=
  "<script src=https://cdn.shopify.com/s/theme.js></script>"
  +:+ "<a href=https://instagram.com/first>Insta</a>"
  +:+ "<a href=https://www.instagram.com/second/>Insta 2</a>"
  +:+ "<a href=/products/red-shirt?variant=1>Red</a>"
  +:+ "<a href=/pages/contact>Contact us</a>"
  +:+ "call +12345-6789 or mail joe@shop.example".
Definition home_soup : Bs4.node :=
  document
    [ Bs4.Tag "script" [("src", "https://cdn.shopify.com/s/theme.js")] [];
      anchor "https://instagram.com/first" "Insta";
      anchor "https://www.instagram.com/second/" "Insta 2";
      anchor "/products/red-shirt?variant=1" "Red";
      anchor "/pages/contact" "Contact us";
      Bs4.Text "call +12345-6789 or mail joe@shop.example" ].

(** A page of another platform, with no main content, and the same page
    with a marked section [html.parser] does not know. *)
Definition odd_html : string := "<p>Hello</p><![foo]>".
Definition plain_html : string := "<p>Hello</p>".
Definition plain_soup : Bs4.node := document [Bs4.Tag "p" [] [Bs4.Text "Hello"]].

(** A page with a main landmark. *)
Definition story_html : string := "<main><p>Our story</p></main>".
Definition story_soup : Bs4.node :=
  document [Bs4.Tag "main" [] [Bs4.Tag "p" [] [Bs4.Text "Our story"]]].

(** A FAQ page with one accordion item and one flat question. *)
Definition faq_html : string :=
  "<div class=faq-item><h3 class=question>Q1?</h3><p class=answer>A1</p></div>"
  +:+ "<h4 class=faq-question>Q2?</h4><p>A2</p>".
Definition faq_soup : Bs4.node :=
  document
    [ Bs4.Tag "div" [("class", "faq-item")]
        [ Bs4.Tag "h3" [("class", "question")] [Bs4.Text "Q1?"];
          Bs4.Tag "p" [("class", "answer")] [Bs4.Text "A1"] ];
      Bs4.Tag "h4" [("class", "faq-question")] [Bs4.Text "Q2?"];
      Bs4.Tag "p" [] [Bs4.Text "A2"] ].

Definition pages : list (string * Bs4.node) :=
  [(home_html, home_soup); (plain_html, plain_soup); (story_html, story_soup);
   (faq_html, faq_soup)].

Definition record (n : Z) (name slug : string) : Json.t :=
  Json.Obj [("id", Json.Int n); ("title", Json.Str name); ("handle", Json.Str slug)].

(** The feeds, by name:
    - [feed:empty] is {"products": []};
    - [feed:three] has three records of the form
      {"id": 1, "title": "Red shirt", "handle": "red-shirt"};
    - [feed:null-tags] is {"products": [{"id": 7, "title": "Scarf",
      "handle": "scarf", "tags": null}]};
    - [feed:good-then-bad] is {"products": [{"id": 9, "title": "Belt",
      "handle": "belt"}, 5]}. *)
Definition feeds : list (string * Json.t) :=
  [ ("feed:empty", Json.Obj [("products", Json.Arr [])]);
    ("feed:three",
     Json.Obj [("products",
                Json.Arr [record 1 "Red shirt" "red-shirt";
                          record 2 "Blue shirt" "blue-shirt";
                          record 3 "Hat" "hat"])]);
    ("feed:null-tags",
     Json.Obj [("products",
                Json.Arr [Json.Obj [("id", Json.Int 7); ("title", Json.Str "Scarf");
                                    ("handle", Json.Str "scarf");
                                    ("tags", Json.Null)]])]);
    ("feed:good-then-bad",
     Json.Obj [("products", Json.Arr [record 9 "Belt" "belt"; Json.Int 5])]) ].

Definition table {A} (k : string) (t : list (string * A)) : option A :=
  snd <$> List.find (λ p, String.eqb (fst p) k) t.

(** Markup [html.parser] gives up on: a marked section with an unknown
    keyword. *)
Definition rejected_by_parser (body : string) : bool :=
  Py.contains "<![foo]>" body.

(** The parser of the examples: the pages it knows by their trees, any
    other text as a document with that one string. *)
Definition parse_page (pages : list (string * Bs4.node)) (body : string)
    : option Bs4.node :=
  if rejected_by_parser body then None
  else Some (default (document [Bs4.Text body]) (table body pages)).

Definition as_str (v : Json.t) : option string :=
  match v with
  | Json.Null => None
  | _ => str_scalar v
  end.
Definition as_optional_str (v : Json.t) : option (option string) :=
  match v with
  | Json.Null => Some None
  | _ => Some <$> as_str v
  end.
Definition as_str_list (v : Json.t) : option (list string) :=
  match v with
  | Json.Arr l => mapM as_str l
  | _ => None
  end.
Definition as_variants (v : Json.t) : option (option (list Json.t)) :=
  match v with
  | Json.Null => Some None
  | Json.Arr l =>
      if forallb (λ x, match x with Json.Obj _ => true | _ => false end) l
      then Some (Some l) else None
  | _ => None
  end.

Definition validate (a : ProductArgs) : option Product :=
  v_title ← as_str (arg_title a);
  v_handle ← as_optional_str (arg_handle a);
  v_description ← as_optional_str (arg_description a);
  v_price ← as_optional_str (arg_price a);
  v_image ← as_optional_str (arg_image a);
  v_tags ← as_str_list (arg_tags a);
  v_variants ← as_variants (arg_variants a);
  Some (mkProduct (Some (arg_id a)) v_title v_handle v_description v_price
                  v_image (Some (arg_url a)) v_tags v_variants).

Definition join_url (b u : string) : option string :=
  if Py.contains "[" u then None
  else if Py.starts_with (Py.chars "http") (Py.chars u) then Some u
  else Some (b +:+ u).

#[global] Instance lib : Lib := {|
  json_loads body := table body feeds;
  BeautifulSoup := parse_page pages;
  urljoin := join_url;
  netloc u := Py.remove "https://" u;
  repr _ := "[...]";
  Product_init := validate;
  list_of_set := elements;
  list_of_set_perm X := reflexivity (elements X) |}.

Definition not_found : outcome := Response "Not Found" 404.

(** The storefront whose homepage is [home_html] and which has nothing
    else. *)
Definition bare_store : network :=
  λ _ u, if String.eqb u base then Response home_html 200 else not_found.

(** A site of another platform, and one whose homepage the parser
    rejects. *)
Definition other_site : network :=
  λ _ u, if String.eqb u base then Response plain_html 200 else not_found.
Definition odd_site : network :=
  λ _ u, if String.eqb u base then Response odd_html 200 else not_found.

(** Sites that cannot be scraped: no connection, no homepage, a time-out. *)
Definition down_site : network := λ _ _, ClientError "Cannot connect to host".
Definition missing_site : network := λ _ _, not_found.
Definition slow_site : network := λ _ _, Failure (OtherException "TimeoutError").

(** A storefront that answers every path with the same page: one without
    main content, the FAQ. *)
Definition hollow_store : network := λ _ _, Response plain_html 200.
Definition faq_store : network := λ _ _, Response faq_html 200.

(** A storefront whose first about, FAQ and refund-policy paths answer 200
    with a page that holds nothing of use, and whose second ones hold the
    story, the FAQ and the story again. *)
Definition late_store : network :=
  λ _ u,
    if existsb (String.eqb u) [base +:+ "/about"; base +:+ "/faq";
                               base +:+ "/policies/refund-policy"]
    then Response plain_html 200
    else if existsb (String.eqb u) [base +:+ "/pages/about";
                                    base +:+ "/pages/refund-policy"]
    then Response story_html 200
    else if String.eqb u (base +:+ "/pages/faq") then Response faq_html 200
    else not_found.

(** Storefronts by their two product feeds: the first answers with
    [first], the second with [second]. *)
Definition feed_store (first second : string) : network :=
  λ _ u,
    if String.eqb u (base +:+ "/products.json?limit=250")
    then Response first 200
    else if String.eqb u (base +:+ "/collections/all/products.json?limit=250")
    then Response second 200
    else not_found.

(** The [Product] of [record n name slug], and the catalog of
    [feed:three]. *)
Definition product (n : string) (name slug : string) : Product :=
  mkProduct (Some n) name (Some slug) (Some "") None None
            (Some (base +:+ "/products/" +:+ slug)) [""] (Some []).
Definition catalog : list Product :=
  [product "1" "Red shirt" "red-shirt"; product "2" "Blue shirt" "blue-shirt";
   product "3" "Hat" "hat"].

(** A scraper that has the homepage parsed. *)
Definition at_home : scraper :=
  mkScraper base true (Some home_soup) true [base] 1 0.

End Demo.

(** ** The boundary: the request model, the constructor and the endpoint

    [InsightsRequest.validate_website_url] of [app/models/insights.py],
    [ShopifyScraper.__init__] with [_normalize_url], and [get_insights] of
    [app/api/v1/endpoints/insights.py], with the default detail
    [InvalidShopifyStoreError] has in [app/core/exceptions.py]. *)

(** [url.startswith(('http://', 'https://'))] *)
Definition has_scheme (url : string) : bool :=
  Py.starts_with (Py.chars "http://") (Py.chars url)
  || Py.starts_with (Py.chars "https://") (Py.chars url).

(** The validator of [InsightsRequest.website_url]. *)
Definition validate_website_url (v : string) : string :=
  if negb (has_scheme v) then "https://" +:+ v else v.

(** [s.rstrip('/')] *)
Fixpoint lstrip_slashes (l : list ascii) : list ascii :=
  match l with
  | c :: t => if Ascii.eqb c "/" then lstrip_slashes t else l
  | [] => []
  end.
Definition rstrip_slashes (s : string) : string :=
  Py.text (rev (lstrip_slashes (rev (Py.chars s)))).

(** What [_normalize_url] reads of [urlparse(url)]. *)
Record ParseResult : Type := mkParseResult {
  url_scheme : string;
  url_netloc : string;
  url_path : string }.

(** What a call of [get_insights] ends with: the document, an
    [HTTPException], or an exception it does not catch. *)
Inductive reply : Type :=
| Document (doc : BrandContext)
| HTTPException (status_code : Z) (detail : string)
| Uncaught (e : exn).

Section Boundary.
Context `{L : Lib}.
(** [urlparse]; [None]: ValueError *)
Variable urlparse : string -> option ParseResult.
(** [str(e)] of an exception that is not the application's *)
Variable exception_text : exn -> string.
Variable net : network.

Definition _normalize_url (url : string) : option string :=
  let url := if negb (has_scheme url) then "https://" +:+ url else url in
  parsed ← urlparse url;
  Some (url_scheme parsed +:+ "://" +:+ url_netloc parsed
        +:+ rstrip_slashes (url_path parsed)).

(** [ShopifyScraper(website_url)] *)
Definition ShopifyScraper (website_url : string) : option scraper :=
  new_scraper <$> _normalize_url website_url.

(** The three [except] clauses of [get_insights]; an exception that is not
    an [Exception] passes through. *)
Definition handlers (e : exn) : reply :=
  match e with
  | WebsiteNotFoundException detail => HTTPException 401 detail
  | InvalidShopifyStoreError =>
      HTTPException 400 "The provided URL is not a valid Shopify store"
  | OtherException name =>
      HTTPException 500 ("Internal server error: " +:+ exception_text e)
  | BaseExceptionOnly name => Uncaught e
  end.

(** [get_insights(request)], given [request.website_url]; the constructor
    runs inside the [try]. *)
Definition get_insights (website_url : string) : reply :=
  match ShopifyScraper website_url with
  | None => handlers (OtherException "ValueError")
  | Some scraper =>
      match (get_brand_context net scraper).1 with
      | Ok doc => Document doc
      | Raise e => handlers e
      end
  end.

End Boundary.

(** ** More vocabulary *)

(** The two alternatives of [social_patterns]. *)
Definition social_keywords (p : platform) : string * string :=
  match p with
  | Instagram => ("instagram.com", "instagram")
  | Facebook => ("facebook.com", "facebook")
  | Tiktok => ("tiktok.com", "tiktok")
  | Twitter => ("twitter.com", "x.com")
  | Youtube => ("youtube.com", "youtube")
  | Linkedin => ("linkedin.com", "linkedin")
  | Pinterest => ("pinterest.com", "pinterest")
  end.

(** The mail address of a [mailto:] link and the number of a [tel:] link,
    as the two loops of [_fetch_contact_info] compute them. *)
Definition mailto_address (link : Bs4.node) : string :=
  Py.strip (Py.first (Py.split "?" (Py.remove "mailto:" (Bs4.get "href" link)))).
Definition tel_number (link : Bs4.node) : string :=
  Py.strip (Py.remove "tel:" (Bs4.get "href" link)).

(** A storefront for the further examples: the pages of [Demo] and a
    homepage with a link that [urljoin] rejects. *)
Module Shop.

(** The homepage: a platform script and a contact link to a malformed
    host. *)
Definition broken_html : string :=
  "<script src=https://cdn.shopify.com/s/theme.js></script>"
  +:+ "<a href=http://[contact>Contact</a>".
Definition broken_soup : Bs4.node :=
  Demo.document
    [ Bs4.Tag "script" [("src", "https://cdn.shopify.com/s/theme.js")] [];
      Demo.anchor "http://[contact" "Contact" ].

(** A contact page with an address, two phone links and a mail link. *)
Definition contact_html : string :=
  "<p>Write to help@shop.example or call (555) 123-4567.</p>"
  +:+ "<a href=tel:911>Emergency</a><a href=tel:911>Again</a>"
  +:+ "<a href=mailto:sales@shop.example?subject=Hi>Sales</a>".
Definition contact_soup : Bs4.node :=
  Demo.document
    [ Bs4.Tag "p" [] [Bs4.Text "Write to help@shop.example or call (555) 123-4567."];
      Demo.anchor "tel:911" "Emergency";
      Demo.anchor "tel:911" "Again";
      Demo.anchor "mailto:sales@shop.example?subject=Hi" "Sales" ].

Definition pages : list (string * Bs4.node) :=
  Demo.pages ++ [(broken_html, broken_soup); (contact_html, contact_soup)].

Definition lib : Lib := {|
  json_loads body := Demo.table body Demo.feeds;
  BeautifulSoup := Demo.parse_page pages;
  urljoin := Demo.join_url;
  netloc u := Py.remove "https://" u;
  repr _ := "[...]";
  Product_init := Demo.validate;
  list_of_set X := reverse (elements X);
  list_of_set_perm X := reverse_Permutation (elements X) |}.

(** The storefront with the broken homepage and nothing else, and one
    whose requests are cancelled. *)
Definition broken_store : network :=
  λ _ u, if String.eqb u Demo.base then Response broken_html 200 else Demo.not_found.
Definition cancelled_site : network :=
  λ _ _, Failure (BaseExceptionOnly "CancelledError").

(** A storefront whose first contact path answers with markup the parser
    rejects, and every other path with the contact page. *)
Definition contact_late : network :=
  λ _ u,
    if String.eqb u (Demo.base +:+ "/contact") then Response Demo.odd_html 200
    else Response contact_html 200.

(** [urlparse] for URLs of the form [scheme://host/path]. *)
Definition parse (url : string) : option ParseResult :=
  if Py.contains "[" url then None
  else
    match Py.split "://" url with
    | [sch; rest] =>
        let host := Py.first (Py.split "/" rest) in
        Some (mkParseResult sch host
                (Py.text (drop (String.length host) (Py.chars rest))))
    | _ => None
    end.

Definition text_of (e : exn) : string :=
  match e with
  | WebsiteNotFoundException detail => detail
  | InvalidShopifyStoreError => "The provided URL is not a valid Shopify store"
  | OtherException name | BaseExceptionOnly name => name
  end.

(** A scraper that has the homepage parsed, with the first product twice
    on it. *)
Definition twice_soup : Bs4.node :=
  Demo.document
    [ Demo.anchor "/products/red-shirt" "Red";
      Demo.anchor "/collections/all/products/red-shirt?variant=2" "Red again";
      Demo.anchor "/products/hat" "Hat" ].
Definition at_twice : scraper :=
  mkScraper Demo.base true (Some twice_soup) true [Demo.base] 1 0.

End Shop.

(** * Part II: properties *)

(** ** The frame of a method: what every method but the detector and the
    finaliser leaves alone *)

#[global] Instance ext_refl : Reflexive ext.
Proof. intros s. split; auto. Qed.

#[global] Instance ext_trans : Transitive ext.
Proof.
  intros s1 s2 s3 [B1 C1 S1 O1 P1 R1] [B2 C2 S2 O2 P2 R2].
  split; [congruence | congruence | auto | | auto | by etrans].
  intros H. rewrite O2, O1; auto.
Qed.

Section Frame.
Context `{L : Lib} (net : network).

Lemma framed_ret {A} (a : A) : framed (ret a).
Proof. intros s. reflexivity. Qed.

Lemma framed_raise {A} (e : exn) : framed (@raise A e).
Proof. intros s. reflexivity. Qed.

Lemma framed_self : framed self.
Proof. intros s. reflexivity. Qed.

Lemma framed_value {A} name (o : option A) : framed (value name o).
Proof. destruct o; [apply framed_ret | apply framed_raise]. Qed.

Lemma framed_bind {A B} (m : M A) (k : A → M B) :
  framed m → (∀ a, framed (k a)) → framed (bind m k).
Proof.
  intros Hm Hk s. unfold bind. specialize (Hm s).
  destruct (m s) as [[a|e] s1]; simpl in *; [|done].
  etrans; [exact Hm | apply Hk].
Qed.

Lemma framed_try_except {A} (m h : M A) :
  framed m → framed h → framed (try_except m h).
Proof.
  intros Hm Hh s. unfold try_except. specialize (Hm s).
  destruct (m s) as [[a|e] s1]; simpl in *; [done|].
  destruct (is_Exception e); [|done].
  etrans; [exact Hm | apply Hh].
Qed.

Lemma framed_init_session : framed _init_session.
Proof.
  intros s. unfold _init_session, bind, self, update, ret.
  destruct (session s) eqn:E; simpl; [reflexivity|].
  split; simpl; auto; congruence.
Qed.

Lemma framed_session_get url : framed (session_get net url).
Proof.
  intros s. unfold session_get.
  assert (ext s (log_request url s)).
  { split; simpl; auto. by apply prefix_app_r. }
  destruct (net (requested s) url); simpl; done.
Qed.

Lemma framed_fetch_url url : framed (_fetch_url net url).
Proof.
  apply framed_bind; [apply framed_init_session|].
  intros _. apply framed_session_get.
Qed.

Lemma framed_fetch_path path : framed (fetch_path net path).
Proof.
  apply framed_bind; [apply framed_self|]. intros s.
  apply framed_bind; [apply framed_value|]. intros url.
  apply framed_fetch_url.
Qed.

Lemma framed_homepage_soup : framed (homepage_soup net).
Proof.
  intros s. unfold homepage_soup, bind, self.
  destruct (soup s) eqn:E; simpl; [reflexivity|].
  pose proof (framed_fetch_url (base_url s) s) as H.
  destruct (_fetch_url net (base_url s) s) as [[page|e] s1]; simpl in *; [|done].
  destruct (BeautifulSoup page.1) as [sp|]; simpl; [|done].
  destruct H as [B C S O P R]. split; simpl; auto.
  intros sp' Hsp. congruence.
Qed.

End Frame.

(** Steps through a computation built from the combinators. *)
Ltac frame :=
  repeat first
    [ progress intros
    | apply framed_ret | apply framed_raise | apply framed_self
    | apply framed_value | apply framed_fetch_path | apply framed_fetch_url
    | apply framed_homepage_soup
    | apply framed_bind | apply framed_try_except
    | match goal with
      | |- framed (let '(_, _) := ?p in _) => destruct p
      | |- framed (if ?b then _ else _) => destruct b
      | |- framed (match ?x with _ => _ end) => destruct x
      end ].

Section FrameMethods.
Context `{L : Lib} (net : network).

Lemma framed_products_loop endpoints products :
  framed (products_loop net endpoints products).
Proof.
  revert products. induction endpoints as [|e rest IH]; intros products; simpl.
  - frame.
  - frame; apply IH.
Qed.

Lemma framed_fetch_products : framed (_fetch_products net).
Proof. apply framed_products_loop. Qed.

Lemma framed_fetch_hero_products all_products :
  framed (_fetch_hero_products net all_products).
Proof. unfold _fetch_hero_products. frame. Qed.

Lemma framed_text_page_loop paths : framed (text_page_loop net paths).
Proof. induction paths as [|p rest IH]; simpl; frame. apply IH. Qed.

Lemma framed_policies_loop types policies :
  framed (policies_loop net types policies).
Proof.
  revert policies. induction types as [|k rest IH]; intros policies; simpl.
  - frame.
  - apply framed_bind; [apply framed_text_page_loop|]. intros r. apply IH.
Qed.

Lemma framed_fetch_policies : framed (_fetch_policies net).
Proof. apply framed_policies_loop. Qed.

Lemma framed_fetch_about : framed (_fetch_about net).
Proof. apply framed_text_page_loop. Qed.

Lemma framed_faqs_loop paths faqs : framed (faqs_loop net paths faqs).
Proof.
  revert faqs. induction paths as [|p rest IH]; intros faqs; simpl.
  - frame.
  - frame; apply IH.
Qed.

Lemma framed_fetch_faqs : framed (_fetch_faqs net).
Proof. apply framed_faqs_loop. Qed.

Lemma framed_fetch_social_handles : framed (_fetch_social_handles net).
Proof. unfold _fetch_social_handles. frame. Qed.

Lemma framed_contact_page_loop paths : framed (contact_page_loop net paths).
Proof. induction paths as [|p rest IH]; simpl; frame. apply IH. Qed.

Lemma framed_fetch_contact_info : framed (_fetch_contact_info net).
Proof.
  unfold _fetch_contact_info.
  apply framed_bind; [apply framed_homepage_soup|]. intros sp.
  apply framed_bind; [apply framed_contact_page_loop|]. intros found.
  apply framed_ret.
Qed.

Lemma framed_fetch_important_links : framed (_fetch_important_links net).
Proof. unfold _fetch_important_links. frame. Qed.

(** The extractors, one after the other, as in [get_brand_context]. *)
Lemma framed_extractors (v_brand : string) :
  framed
    (v_products <- _fetch_products net ;;
     v_hero_products <- _fetch_hero_products net v_products ;;
     v_policies <- _fetch_policies net ;;
     v_faqs <- _fetch_faqs net ;;
     v_socials <- _fetch_social_handles net ;;
     v_contact <- _fetch_contact_info net ;;
     v_about <- _fetch_about net ;;
     v_links <- _fetch_important_links net ;;
     ret (mkBrandContext v_brand v_products v_hero_products v_policies
                         v_faqs v_socials v_contact v_about v_links)).
Proof.
  apply framed_bind; [apply framed_fetch_products|]; intros ?.
  apply framed_bind; [apply framed_fetch_hero_products|]; intros ?.
  apply framed_bind; [apply framed_fetch_policies|]; intros ?.
  apply framed_bind; [apply framed_fetch_faqs|]; intros ?.
  apply framed_bind; [apply framed_fetch_social_handles|]; intros ?.
  apply framed_bind; [apply framed_fetch_contact_info|]; intros ?.
  apply framed_bind; [apply framed_fetch_about|]; intros ?.
  apply framed_bind; [apply framed_fetch_important_links|]; intros ?.
  apply framed_ret.
Qed.

End FrameMethods.

(** ** The detector and the run *)

Section Run.
Context `{L : Lib} (net : network).

Lemma bind_eq {A B} (m : M A) (k : A → M B) s :
  bind m k s = match m s with
               | (Ok a, s') => k a s'
               | (Raise e, s') => (Raise e, s')
               end.
Proof. reflexivity. Qed.

Lemma fetch_url_run url s :
  _fetch_url net url s = session_get net url (opened s).
Proof.
  unfold _fetch_url, _init_session, bind, self, update, ret, opened.
  by destruct (session s).
Qed.

Lemma opened_session s : session (opened s) = true.
Proof. unfold opened. by destruct (session s) eqn:E. Qed.

Lemma opened_requested s : requested (opened s) = requested s.
Proof. unfold opened. by destruct (session s). Qed.

Lemma opened_closes s : closes (opened s) = closes s.
Proof. unfold opened. by destruct (session s). Qed.

Lemma opened_base_url s : base_url (opened s) = base_url s.
Proof. unfold opened. by destruct (session s). Qed.

Lemma check_is_shopify_run s :
  _check_is_shopify net s =
  match net (requested s) (base_url s) with
  | Response content status =>
      if (status =? 200)%Z
      then
        match BeautifulSoup content with
        | Some sp =>
            (Ok (Py.any (shopify_indicators content sp)), checked content sp s)
        | None =>
            (Raise (OtherException "ParserRejectedMarkup"),
             log_request (base_url s) (opened s))
        end
      else (Raise (WebsiteNotFoundException
                     ("Website returned status code " +:+ pretty status)),
            log_request (base_url s) (opened s))
  | ClientError msg =>
      (Raise (WebsiteNotFoundException
                ("Failed to fetch " +:+ base_url s +:+ ": " +:+ msg)),
       log_request (base_url s) (opened s))
  | Failure e => (Raise e, log_request (base_url s) (opened s))
  end.
Proof.
  unfold _check_is_shopify, bind, self. rewrite fetch_url_run.
  unfold session_get. rewrite opened_requested.
  destruct (net (requested s) (base_url s)) as [content status|msg|e]; try done.
  destruct (status =? 200)%Z; [|done]. simpl.
  by destruct (BeautifulSoup content).
Qed.

Lemma opened_opens s :
  opens (opened s) = if session s then opens s else S (opens s).
Proof. unfold opened. by destruct (session s). Qed.

Lemma check_is_shopify_opens s :
  session (_check_is_shopify net s).2 = true
  ∧ closes (_check_is_shopify net s).2 = closes s.
Proof.
  rewrite check_is_shopify_run.
  destruct (net (requested s) (base_url s)) as [content status|msg|e];
    [destruct (status =? 200)%Z; [destruct (BeautifulSoup content)|]|..]; simpl;
    by rewrite ?opened_session, ?opened_closes.
Qed.

Lemma get_brand_context_run s :
  get_brand_context net s = try_finally (run_body net) _close_session s.
Proof. reflexivity. Qed.

Lemma run_body_opens s :
  session (run_body net s).2 = true ∧ closes (run_body net s).2 = closes s.
Proof.
  unfold run_body. rewrite bind_eq.
  pose proof (check_is_shopify_opens s) as [Hs Hc].
  destruct (_check_is_shopify net s) as [[ok|e] s1]; simpl in *; [|done].
  destruct ok; simpl; [|done].
  rewrite bind_eq. unfold self.
  pose proof (framed_extractors net (netloc (base_url s1)) s1) as [B C S O P R].
  split; [by apply S | congruence].
Qed.

Lemma try_finally_close {A} (m : M A) s :
  session (m s).2 = true →
  try_finally m _close_session s
  = ((m s).1, set_session false (log_close (m s).2)).
Proof.
  intros H. unfold try_finally, _close_session, bind, self, update.
  destruct (m s) as [r s1]; simpl in *. by rewrite H.
Qed.

End Run.

(** ** The platform check and the release of the session *)

(** C4, as the scraper has it.  When the homepage answers 200, the parser
    accepts the page and none of the five signatures matches,
    [get_brand_context] raises [InvalidShopifyStoreError]: no document is
    returned, and the homepage is the only URL that was requested. *)
Theorem rejected_after_one_fetch `{L : Lib} (net : network) (s : scraper)
    (content : string) (sp : Bs4.node) :
  net (requested s) (base_url s) = Response content 200 →
  BeautifulSoup content = Some sp →
  Py.any (shopify_indicators content sp) = false →
  (get_brand_context net s).1 = Raise InvalidShopifyStoreError
  ∧ requested (get_brand_context net s).2 = requested s ++ [base_url s].
Proof.
  intros Hnet Hsp Hsig.
  assert (run_body net s = (Raise InvalidShopifyStoreError, checked content sp s))
    as Hbody.
  { unfold run_body. rewrite bind_eq, check_is_shopify_run, Hnet, Hsp.
    change (200 =? 200)%Z with true. cbv beta iota. by rewrite Hsig. }
  rewrite get_brand_context_run, try_finally_close; rewrite Hbody; simpl.
  - by rewrite opened_requested.
  - apply opened_session.
Qed.

Lemma rejected_after_one_fetch_witness :
  (get_brand_context Demo.other_site (new_scraper Demo.base)).1
  = Raise InvalidShopifyStoreError
  ∧ requested (get_brand_context Demo.other_site (new_scraper Demo.base)).2
    = [Demo.base].
Proof.
  apply (rejected_after_one_fetch Demo.other_site (new_scraper Demo.base)
           Demo.plain_html Demo.plain_soup); reflexivity.
Defined.

(** C4 as stated does not hold: a homepage that answers 200 and carries no
    signature, but which the parser rejects, ends the run with the parser's
    exception, not with [InvalidShopifyStoreError]; the page is parsed
    before any signature is looked at. *)
Lemma unparsed_homepage_is_not_rejected :
  Demo.odd_site [] Demo.base = Response Demo.odd_html 200
  ∧ Py.contains "Shopify.theme" Demo.odd_html = false
  ∧ Py.contains "cdn.shopify.com" Demo.odd_html = false
  ∧ Py.contains "myshopify.com" Demo.odd_html = false
  ∧ (get_brand_context Demo.odd_site (new_scraper Demo.base)).1
    = Raise (OtherException "ParserRejectedMarkup")
  ∧ (get_brand_context Demo.odd_site (new_scraper Demo.base)).1
    ≠ Raise InvalidShopifyStoreError.
Proof. repeat split; try (vm_compute; reflexivity). vm_compute. discriminate. Qed.

(** The four ways a run fails, and a run that succeeds: each ends with one
    close and no session. *)
Example run_of_down_site :
  get_brand_context Demo.down_site (new_scraper Demo.base)
  = (Raise (WebsiteNotFoundException
              "Failed to fetch https://shop.example: Cannot connect to host"),
     mkScraper Demo.base false None false [Demo.base] 1 1).
Proof. vm_compute. reflexivity. Qed.

Example run_of_missing_site :
  get_brand_context Demo.missing_site (new_scraper Demo.base)
  = (Raise (WebsiteNotFoundException "Website returned status code 404"),
     mkScraper Demo.base false None false [Demo.base] 1 1).
Proof. vm_compute. reflexivity. Qed.

Example run_of_other_site :
  get_brand_context Demo.other_site (new_scraper Demo.base)
  = (Raise InvalidShopifyStoreError,
     mkScraper Demo.base false (Some Demo.plain_soup) false [Demo.base] 1 1).
Proof. vm_compute. reflexivity. Qed.

Example run_of_slow_site :
  get_brand_context Demo.slow_site (new_scraper Demo.base)
  = (Raise (OtherException "TimeoutError"),
     mkScraper Demo.base false None false [Demo.base] 1 1).
Proof. vm_compute. reflexivity. Qed.

Example run_of_bare_store :
  closes (get_brand_context Demo.bare_store (new_scraper Demo.base)).2 = 1%nat
  ∧ session (get_brand_context Demo.bare_store (new_scraper Demo.base)).2 = false
  ∧ length (requested (get_brand_context Demo.bare_store (new_scraper Demo.base)).2)
    = 29%nat.
Proof. vm_compute. done. Qed.

(** C5. Every run of [get_brand_context], whatever the network answers and
    whether the run returns a document or raises, calls [session.close()]
    exactly once, and the session is gone when the result or the exception
    reaches the caller. *)
Theorem session_released_exactly_once `{L : Lib} (net : network) (s : scraper) :
  closes (get_brand_context net s).2 = S (closes s)
  ∧ session (get_brand_context net s).2 = false.
Proof.
  pose proof (run_body_opens net s) as [Hs Hc].
  rewrite get_brand_context_run, try_finally_close by done.
  simpl. by rewrite Hc.
Qed.

(** ** Hero products *)

Section Hero.
Context `{L : Lib} (net : network).

Lemma matching_product_spec all_products h p :
  matching_product all_products h = Some p →
  p ∈ all_products ∧ handle p = Some h.
Proof.
  unfold matching_product. intros H.
  apply List.find_some in H as [Hin Hh].
  split; [by apply list_elem_of_In | by apply bool_decide_eq_true_1 in Hh].
Qed.

Lemma hero_loop_subset all_products product_links hero_products product_handles :
  hero_products ⊆ all_products →
  hero_loop all_products product_links hero_products product_handles
    ⊆ all_products.
Proof.
  revert hero_products product_handles.
  induction product_links as [|link rest IH]; intros acc handles Hacc; simpl.
  - done.
  - destruct (negb _ && bool_decide _); [|by apply IH].
    destruct (matching_product all_products _) as [p|] eqn:E; [|by apply IH].
    apply IH. apply matching_product_spec in E as [Hin _].
    intros x [Hx|Hx%list_elem_of_singleton]%elem_of_app; [by apply Hacc | by subst].
Qed.

Lemma homepage_soup_cached s r s' :
  homepage_soup net s = (Ok r, s') → soup s' = Some r.
Proof.
  unfold homepage_soup. rewrite bind_eq. unfold self.
  destruct (soup s) as [sp0|] eqn:E.
  - unfold ret. intros [= <- <-]. done.
  - rewrite bind_eq. destruct (_fetch_url net (base_url s) s) as [[page|e] s1]; [|done].
    rewrite bind_eq. destruct (BeautifulSoup page.1) as [sp|]; [|done]. simpl.
    rewrite bind_eq. unfold update, ret. by intros [= <- <-].
Qed.

End Hero.

(** C2. Whatever the homepage and the catalog, every product
    [_fetch_hero_products] returns is one of the catalog's (so its handle is
    the handle of a catalog product), and at most 10 are returned. *)
Theorem hero_products_from_catalog `{L : Lib} (net : network)
    (all_products : list Product) (s s' : scraper) (hero : list Product) :
  _fetch_hero_products net all_products s = (Ok hero, s') →
  (∀ h, h ∈ hero →
        h ∈ all_products ∧ ∃ p, p ∈ all_products ∧ handle p = handle h)
  ∧ (length hero ≤ 10)%nat.
Proof.
  unfold _fetch_hero_products. rewrite bind_eq.
  destruct (homepage_soup net s) as [[sp|e] s1]; [|done].
  unfold ret. intros [= <- <-]. split.
  - intros h Hh. apply elem_of_take in Hh as (i & Hh & _).
    apply list_elem_of_lookup_2 in Hh.
    apply (hero_loop_subset all_products) in Hh; [|by intros x Hx%elem_of_nil].
    eauto.
  - rewrite length_take. lia.
Qed.

Lemma hero_products_from_catalog_witness :
  (∀ h, h ∈ [Demo.product "1" "Red shirt" "red-shirt"] →
        h ∈ Demo.catalog ∧ ∃ p, p ∈ Demo.catalog ∧ handle p = handle h)
  ∧ (length [Demo.product "1" "Red shirt" "red-shirt"] ≤ 10)%nat.
Proof.
  apply (hero_products_from_catalog Demo.bare_store Demo.catalog
           Demo.at_home Demo.at_home).
  vm_compute. reflexivity.
Defined.

(** ** Socials and links: the last matching anchor decides *)

#[local] Arguments Re.found : simpl never.
#[local] Arguments social_value : simpl never.
#[local] Arguments social_patterns_loop : simpl never.
#[local] Arguments link_patterns_loop : simpl never.
#[local] Arguments Py.lower : simpl never.
#[local] Arguments Bs4.get : simpl never.
#[local] Arguments Bs4.get_text : simpl never.

Section LastMatch.
Context `{L : Lib} (net : network).

Lemma get_set_social p q v x :
  get_social p (set_social q v x) = if decide (p = q) then Some v else get_social p x.
Proof. by destruct p, q. Qed.

Lemma get_set_link k j v x :
  get_link k (set_link j v x) = if decide (k = j) then Some v else get_link k x.
Proof. by destruct k, j. Qed.

Lemma social_patterns_loop_cons q rest href x :
  social_patterns_loop (q :: rest) href x =
  social_patterns_loop rest href
    (if Re.found (social_patterns q) href
     then set_social q (social_value q href) x else x).
Proof. reflexivity. Qed.

Lemma link_patterns_loop_cons j rest base href anchor_text x :
  link_patterns_loop (j :: rest) base href anchor_text x =
  if Re.found (link_patterns j) href || Re.found (link_patterns j) anchor_text
  then full_url ← urljoin base href;
       link_patterns_loop rest base href anchor_text (set_link j full_url x)
  else link_patterns_loop rest base href anchor_text x.
Proof. reflexivity. Qed.

Lemma social_patterns_loop_get p ps href x :
  get_social p (social_patterns_loop ps href x) =
  if bool_decide (p ∈ ps) && Re.found (social_patterns p) href
  then Some (social_value p href) else get_social p x.
Proof.
  revert x. induction ps as [|q rest IH]; intros x.
  - done.
  - rewrite social_patterns_loop_cons, IH.
    destruct (decide (p ∈ rest)) as [Hin|Hin].
    + rewrite (bool_decide_eq_true_2 _ Hin).
      rewrite (bool_decide_eq_true_2 (p ∈ q :: rest)) by (by right).
      simpl. destruct (Re.found (social_patterns p) href) eqn:Ep; [done|].
      destruct (Re.found (social_patterns q) href) eqn:Eq; [|done].
      rewrite get_set_social. destruct (decide (p = q)) as [->|]; [congruence | done].
    + rewrite (bool_decide_eq_false_2 _ Hin). simpl.
      destruct (decide (p = q)) as [->|Hne].
      * rewrite (bool_decide_eq_true_2 (q ∈ q :: rest)) by (by left). simpl.
        destruct (Re.found (social_patterns q) href); [|done].
        rewrite get_set_social. by destruct (decide (q = q)).
      * rewrite (bool_decide_eq_false_2 (p ∈ q :: rest)).
        2:{ intros [?|?]%elem_of_cons; done. }
        simpl. destruct (Re.found (social_patterns q) href); [|done].
        rewrite get_set_social. by destruct (decide (p = q)).
Qed.

Lemma platforms_all p : p ∈ platforms.
Proof. destruct p; unfold platforms; set_solver. Qed.

Lemma link_types_all k : k ∈ link_types.
Proof. destruct k; unfold link_types; set_solver. Qed.

Lemma socials_loop_app l1 l2 x :
  socials_loop (l1 ++ l2) x = socials_loop l2 (socials_loop l1 x).
Proof. revert x. induction l1 as [|a l1 IH]; intros x; simpl; [done | apply IH]. Qed.

Lemma socials_loop_unmatched p after x :
  forallb (λ b, negb (social_match p b)) after = true →
  get_social p (socials_loop after x) = get_social p x.
Proof.
  revert x. induction after as [|b rest IH]; intros x; simpl; [done|].
  intros [Hb Hrest]%andb_true_iff. rewrite IH by done.
  rewrite social_patterns_loop_get. unfold social_match in Hb.
  apply negb_true_iff in Hb. rewrite Hb. by rewrite andb_false_r.
Qed.

Lemma socials_loop_last p before a after x :
  social_match p a = true →
  forallb (λ b, negb (social_match p b)) after = true →
  get_social p (socials_loop (before ++ a :: after) x)
  = Some (social_value p (Py.lower (Bs4.get "href" a))).
Proof.
  intros Ha Hafter. rewrite socials_loop_app. simpl.
  rewrite socials_loop_unmatched by done.
  rewrite social_patterns_loop_get. unfold social_match in Ha. rewrite Ha.
  by rewrite (bool_decide_eq_true_2 _ (platforms_all p)).
Qed.

Lemma link_patterns_loop_get k ks base href anchor_text x y :
  link_patterns_loop ks base href anchor_text x = Some y →
  get_link k y =
  if bool_decide (k ∈ ks)
     && (Re.found (link_patterns k) href || Re.found (link_patterns k) anchor_text)
  then urljoin base href else get_link k x.
Proof.
  revert x. induction ks as [|j rest IH]; intros x.
  - by intros [= ->].
  - rewrite link_patterns_loop_cons.
    set (mj := Re.found (link_patterns j) href || Re.found (link_patterns j) anchor_text).
    set (mk := Re.found (link_patterns k) href || Re.found (link_patterns k) anchor_text).
    intros H.
    assert (∃ x', link_patterns_loop rest base href anchor_text x' = Some y
                  ∧ get_link k x' =
                    if bool_decide (k = j) && mj then urljoin base href
                    else get_link k x) as (x' & Hx' & Hget).
    { destruct mj eqn:Emj.
      - destruct (urljoin base href) as [u|] eqn:Eu; [|done]. simpl in H.
        exists (set_link j u x). split; [done|].
        rewrite get_set_link. rewrite andb_true_r.
        by destruct (decide (k = j)) as [->|Hne];
          [rewrite bool_decide_eq_true_2 | rewrite bool_decide_eq_false_2].
      - exists x. split; [done|]. by rewrite andb_false_r. }
    rewrite (IH _ Hx'), Hget. fold mk.
    destruct (decide (k = j)) as [->|Hne].
    + change mk with mj.
      rewrite (bool_decide_eq_true_2 (j = j)) by done.
      rewrite (bool_decide_eq_true_2 (j ∈ j :: rest)) by (by left).
      by destruct (bool_decide (j ∈ rest)), mj.
    + rewrite (bool_decide_eq_false_2 (k = j)) by done.
      replace (bool_decide (k ∈ j :: rest)) with (bool_decide (k ∈ rest)); [done|].
      apply bool_decide_ext. rewrite elem_of_cons. split; [by right | by intros [?|?]].
Qed.

Lemma links_loop_app base l1 l2 x :
  links_loop base (l1 ++ l2) x = links_loop base l1 x ≫= links_loop base l2.
Proof.
  revert x. induction l1 as [|a l1 IH]; intros x; simpl; [done|].
  destruct (link_patterns_loop _ _ _ _ _) as [x'|]; simpl; [apply IH | done].
Qed.

Lemma links_loop_unmatched k base after x y :
  forallb (λ b, negb (link_match k b)) after = true →
  links_loop base after x = Some y →
  get_link k y = get_link k x.
Proof.
  revert x. induction after as [|b rest IH]; intros x; simpl.
  - by intros _ [= ->].
  - intros [Hb Hrest]%andb_true_iff H.
    destruct (link_patterns_loop _ _ _ _ _) as [x'|] eqn:E; [|done]. simpl in H.
    rewrite (IH _ Hrest H). rewrite (link_patterns_loop_get k _ _ _ _ _ _ E).
    unfold link_match in Hb. apply negb_true_iff in Hb. rewrite Hb.
    by rewrite andb_false_r.
Qed.

Lemma links_loop_last k base before a after x y :
  link_match k a = true →
  forallb (λ b, negb (link_match k b)) after = true →
  links_loop base (before ++ a :: after) x = Some y →
  get_link k y = urljoin base (Py.lower (Bs4.get "href" a)).
Proof.
  intros Ha Hafter. rewrite links_loop_app.
  destruct (links_loop base before x) as [x1|]; [|done]. simpl.
  destruct (link_patterns_loop _ _ _ _ _) as [x2|] eqn:E; [|done]. simpl.
  intros H. rewrite (links_loop_unmatched k _ _ _ _ Hafter H).
  rewrite (link_patterns_loop_get k _ _ _ _ _ _ E).
  unfold link_match in Ha. rewrite Ha.
  by rewrite (bool_decide_eq_true_2 _ (link_types_all k)).
Qed.

End LastMatch.

(** C6. Socials and links, last match wins.  On a homepage whose anchors
    are [before ++ a :: after], where [a] matches the pattern of a platform
    (of a link category) and no anchor of [after] does, the field holds the
    value derived from [a]: the user name, else the href, for a platform;
    the resolved URL for a link category.  Anchors of [before] that match
    the same pattern are overwritten. *)
Theorem last_match_wins `{L : Lib} (net : network) (s : scraper) (sp : Bs4.node) :
  soup s = Some sp →
  (∀ p before a after,
     Bs4.find_all ["a"] (Bs4.has "href") sp = before ++ a :: after →
     social_match p a = true →
     forallb (λ b, negb (social_match p b)) after = true →
     ∃ v_socials,
       _fetch_social_handles net s = (Ok v_socials, s)
       ∧ get_social p v_socials
         = Some (social_value p (Py.lower (Bs4.get "href" a))))
  ∧ (∀ k before a after v_links,
       Bs4.find_all ["a"] (Bs4.has "href") sp = before ++ a :: after →
       link_match k a = true →
       forallb (λ b, negb (link_match k b)) after = true →
       links_of (base_url s) sp = Some v_links →
       _fetch_important_links net s = (Ok v_links, s)
       ∧ get_link k v_links
         = urljoin (base_url s) (Py.lower (Bs4.get "href" a))).
Proof.
  intros Hsoup.
  assert (homepage_soup net s = (Ok sp, s)) as Hhome.
  { unfold homepage_soup. rewrite bind_eq. unfold self. by rewrite Hsoup. }
  split.
  - intros p before a after Hanchors Ha Hafter.
    unfold _fetch_social_handles. rewrite bind_eq, Hhome, Hanchors.
    eexists. split; [reflexivity|]. by apply socials_loop_last.
  - intros k before a after v_links Hanchors Ha Hafter Hlinks. split.
    + unfold _fetch_important_links. rewrite bind_eq, Hhome, bind_eq.
      unfold self. by rewrite Hlinks.
    + unfold links_of in Hlinks. rewrite Hanchors in Hlinks.
      by eapply links_loop_last.
Qed.

Lemma last_match_wins_witness :
  (∃ v_socials,
     _fetch_social_handles Demo.bare_store Demo.at_home = (Ok v_socials, Demo.at_home)
     ∧ get_social Instagram v_socials = Some "@second")
  ∧ (_fetch_important_links Demo.bare_store Demo.at_home
     = (Ok (mkLinks None (Some "https://shop.example/pages/contact") None None None),
        Demo.at_home)
     ∧ get_link ContactUs
         (mkLinks None (Some "https://shop.example/pages/contact") None None None)
       = Some "https://shop.example/pages/contact").
Proof.
  destruct (last_match_wins Demo.bare_store Demo.at_home Demo.home_soup eq_refl)
    as [Hsocials Hlinks].
  split.
  - apply (Hsocials Instagram
             [Demo.anchor "https://instagram.com/first" "Insta"]
             (Demo.anchor "https://www.instagram.com/second/" "Insta 2")
             [Demo.anchor "/products/red-shirt?variant=1" "Red";
              Demo.anchor "/pages/contact" "Contact us"]);
      vm_compute; reflexivity.
  - apply (Hlinks ContactUs
             [Demo.anchor "https://instagram.com/first" "Insta";
              Demo.anchor "https://www.instagram.com/second/" "Insta 2";
              Demo.anchor "/products/red-shirt?variant=1" "Red"]
             (Demo.anchor "/pages/contact" "Contact us") []);
      vm_compute; reflexivity.
Defined.

(** ** Candidate loops *)

#[local] Arguments Bs4.find_all : simpl never.
#[local] Arguments text_block : simpl never.
#[local] Arguments page_faqs : simpl never.

Section Candidates.
Context `{L : Lib} (net : network).

Lemma session_get_run url s :
  session_get net url s =
  match net (requested s) url with
  | Response content status => (Ok (content, status), log_request url s)
  | ClientError msg =>
      (Raise (WebsiteNotFoundException
                ("Failed to fetch " +:+ url +:+ ": " +:+ msg)),
       log_request url s)
  | Failure e => (Raise e, log_request url s)
  end.
Proof. reflexivity. Qed.

Lemma fetch_path_run path s :
  fetch_path net path s =
  match urljoin (base_url s) path with
  | Some url => session_get net url (opened s)
  | None => (Raise (OtherException "ValueError"), s)
  end.
Proof.
  unfold fetch_path. rewrite bind_eq. unfold self.
  destruct (urljoin (base_url s) path) as [url|]; rewrite bind_eq; simpl; [|done].
  rewrite fetch_url_run. by destruct (session_get net url (opened s)) as [[?|?] ?].
Qed.

(** A page that was fetched: the answer to some request. *)
Lemma fetch_path_ok path s content status s' :
  fetch_path net path s = (Ok (content, status), s') →
  ∃ url, urljoin (base_url s) path = Some url
         ∧ net (requested s) url = Response content status
         ∧ s' = log_request url (opened s).
Proof.
  rewrite fetch_path_run.
  destruct (urljoin (base_url s) path) as [url|]; [|done].
  rewrite session_get_run, opened_requested.
  destruct (net (requested s) url) eqn:E; [|done..].
  intros [= <- <- <-]. eauto.
Qed.

(** A candidate that answers 200. *)
Lemma fetch_path_hit path s url content :
  urljoin (base_url s) path = Some url →
  net (requested s) url = Response content 200 →
  fetch_path net path s = (Ok (content, 200%Z), log_request url (opened s)).
Proof.
  intros Hurl Hnet.
  by rewrite fetch_path_run, Hurl, session_get_run, opened_requested, Hnet.
Qed.

(** *** Text blocks *)

Lemma text_page_loop_cons path rest s :
  text_page_loop net (path :: rest) s =
  match fetch_path net path s with
  | (Ok (content, status), s1) =>
      if (status =? 200)%Z then
        match BeautifulSoup content ≫= text_block with
        | Some page_text => (Ok (Some page_text), s1)
        | None => text_page_loop net rest s1
        end
      else text_page_loop net rest s1
  | (Raise e, s1) =>
      if is_Exception e then text_page_loop net rest s1 else (Raise e, s1)
  end.
Proof.
  cbn [text_page_loop]. rewrite bind_eq. unfold try_except. rewrite bind_eq.
  destruct (fetch_path net path s) as [[[content status]|e] s1].
  - destruct (status =? 200)%Z; [|done]. rewrite bind_eq.
    destruct (BeautifulSoup content) as [sp|]; simpl; [|done].
    by destruct (text_block sp).
  - by destruct (is_Exception e).
Qed.

Lemma text_page_loop_app pre rest s :
  text_page_loop net (pre ++ rest) s =
  match text_page_loop net pre s with
  | (Ok None, s1) => text_page_loop net rest s1
  | r => r
  end.
Proof.
  revert s. induction pre as [|path pre IH]; intros s; [done|].
  rewrite <- app_comm_cons, !text_page_loop_cons.
  destruct (fetch_path net path s) as [[[content status]|e] s1].
  - destruct (status =? 200)%Z; [|apply IH].
    destruct (BeautifulSoup content ≫= text_block); [done | apply IH].
  - destruct (is_Exception e); [apply IH | done].
Qed.

Lemma text_page_loop_hit pre path post s s1 url content sp page_text :
  text_page_loop net pre s = (Ok None, s1) →
  urljoin (base_url s1) path = Some url →
  net (requested s1) url = Response content 200 →
  BeautifulSoup content = Some sp →
  text_block sp = Some page_text →
  text_page_loop net (pre ++ path :: post) s
  = (Ok (Some page_text), log_request url (opened s1)).
Proof.
  intros Hpre Hurl Hnet Hsp Htext.
  rewrite text_page_loop_app, Hpre, text_page_loop_cons.
  rewrite (fetch_path_hit _ _ _ _ Hurl Hnet).
  change (200 =? 200)%Z with true. cbv iota. rewrite Hsp. simpl. by rewrite Htext.
Qed.

Lemma policies_loop_cons k rest policies s :
  policies_loop net (k :: rest) policies s =
  match text_page_loop net (policy_paths k) s with
  | (Ok (Some policy_text), s1) =>
      policies_loop net rest (set_policy k policy_text policies) s1
  | (Ok None, s1) => policies_loop net rest policies s1
  | (Raise e, s1) => (Raise e, s1)
  end.
Proof.
  cbn [policies_loop]. rewrite bind_eq.
  by destruct (text_page_loop net (policy_paths k) s) as [[[?|]|?] ?].
Qed.

Lemma policies_loop_app before after policies s :
  policies_loop net (before ++ after) policies s =
  match policies_loop net before policies s with
  | (Ok policies1, s1) => policies_loop net after policies1 s1
  | (Raise e, s1) => (Raise e, s1)
  end.
Proof.
  revert policies s. induction before as [|k before IH]; intros policies s; [done|].
  rewrite <- app_comm_cons, !policies_loop_cons.
  by destruct (text_page_loop net (policy_paths k) s) as [[[?|]|?] ?].
Qed.

Lemma get_set_policy k j v x :
  get_policy k (set_policy j v x) = if decide (k = j) then Some v else get_policy k x.
Proof. by destruct k, j. Qed.

Lemma policy_types_NoDup : NoDup policy_types.
Proof. by apply (bool_decide_unpack (NoDup policy_types)). Qed.

(** The types still to come leave the field of [k] alone. *)
Lemma policies_loop_keeps k types policies s policies' s' :
  k ∉ types →
  policies_loop net types policies s = (Ok policies', s') →
  get_policy k policies' = get_policy k policies.
Proof.
  revert policies s. induction types as [|j types IH]; intros policies s Hk.
  - by intros [= <- <-].
  - rewrite policies_loop_cons. apply not_elem_of_cons in Hk as [Hne Hk].
    destruct (text_page_loop net (policy_paths j) s) as [[[t|]|?] s1]; [| |done].
    + intros H. rewrite (IH _ _ Hk H), get_set_policy. by destruct (decide (k = j)).
    + by apply IH.
Qed.

(** *** FAQs *)

Lemma page_faqs_nil sp :
  page_faqs sp [] =
  if bool_decide (accordion_faqs sp = []) then flat_faqs sp else accordion_faqs sp.
Proof.
  unfold page_faqs. rewrite app_nil_l.
  destruct (bool_decide (accordion_faqs sp = [])) eqn:E; [|done].
  apply bool_decide_eq_true_1 in E. by rewrite E.
Qed.

Lemma faqs_loop_cons path rest faqs s :
  faqs_loop net (path :: rest) faqs s =
  match fetch_path net path s with
  | (Ok (content, status), s1) =>
      if (status =? 200)%Z then
        match BeautifulSoup content with
        | Some sp =>
            let faqs' := page_faqs sp faqs in
            if bool_decide (faqs' = []) then faqs_loop net rest faqs' s1
            else (Ok faqs', s1)
        | None => faqs_loop net rest faqs s1
        end
      else faqs_loop net rest faqs s1
  | (Raise e, s1) =>
      if is_Exception e then faqs_loop net rest faqs s1 else (Raise e, s1)
  end.
Proof.
  cbn [faqs_loop]. rewrite bind_eq. unfold try_except. rewrite bind_eq.
  destruct (fetch_path net path s) as [[[content status]|e] s1].
  - destruct (status =? 200)%Z; [|done]. rewrite bind_eq.
    destruct (BeautifulSoup content) as [sp|]; simpl; [|done].
    by destruct (bool_decide (page_faqs sp faqs = [])) eqn:E;
      [apply bool_decide_eq_true_1 in E; rewrite E|].
  - by destruct (is_Exception e).
Qed.

(** Every page is processed with [faqs] empty, and the list returned is
    empty or what one page gave. *)
Lemma faqs_loop_one_page paths s faqs s' :
  faqs_loop net paths [] s = (Ok faqs, s') →
  faqs = []
  ∨ ∃ log url content sp,
      net log url = Response content 200
      ∧ BeautifulSoup content = Some sp
      ∧ faqs ≠ []
      ∧ faqs = page_faqs sp [].
Proof.
  revert s. induction paths as [|path rest IH]; intros s.
  - intros [= <- <-]. by left.
  - rewrite faqs_loop_cons.
    destruct (fetch_path net path s) as [[[content status]|e] s1] eqn:Ef.
    + destruct (status =? 200)%Z eqn:Est; [|apply IH].
      destruct (BeautifulSoup content) as [sp|] eqn:Esp; [|apply IH]. cbv zeta.
      destruct (bool_decide (page_faqs sp [] = [])) eqn:E.
      * apply bool_decide_eq_true_1 in E. rewrite E. apply IH.
      * apply bool_decide_eq_false_1 in E. intros [= <- <-]. right.
        apply fetch_path_ok in Ef as (url & _ & Hnet & _).
        apply Z.eqb_eq in Est as ->. eauto 8.
    + destruct (is_Exception e); [apply IH | done].
Qed.

(** The loop goes on, with no pair, as long as no page gives one. *)
Lemma faqs_loop_app pre rest s :
  faqs_loop net (pre ++ rest) [] s =
  match faqs_loop net pre [] s with
  | (Ok [], s1) => faqs_loop net rest [] s1
  | r => r
  end.
Proof.
  revert s. induction pre as [|path pre IH]; intros s; [done|].
  rewrite <- app_comm_cons, !faqs_loop_cons.
  destruct (fetch_path net path s) as [[[content status]|e] s1].
  - destruct (status =? 200)%Z; [|apply IH].
    destruct (BeautifulSoup content) as [sp|]; [|apply IH]. cbv zeta.
    destruct (bool_decide (page_faqs sp [] = [])) eqn:E.
    + apply bool_decide_eq_true_1 in E. rewrite E. apply IH.
    + apply bool_decide_eq_false_1 in E.
      by destruct (page_faqs sp []).
  - destruct (is_Exception e); [apply IH | done].
Qed.

(** The page the loop reaches with no pair, parsed into [sp]. *)
Lemma faqs_loop_page pre path post s s1 url content sp :
  faqs_loop net pre [] s = (Ok [], s1) →
  urljoin (base_url s1) path = Some url →
  net (requested s1) url = Response content 200 →
  BeautifulSoup content = Some sp →
  faqs_loop net (pre ++ path :: post) [] s =
  if bool_decide (page_faqs sp [] = [])
  then faqs_loop net post [] (log_request url (opened s1))
  else (Ok (page_faqs sp []), log_request url (opened s1)).
Proof.
  intros Hpre Hurl Hnet Hsp.
  rewrite faqs_loop_app, Hpre, faqs_loop_cons.
  rewrite (fetch_path_hit _ _ _ _ Hurl Hnet).
  change (200 =? 200)%Z with true. cbv iota. rewrite Hsp. cbv zeta.
  destruct (bool_decide (page_faqs sp [] = [])) eqn:E; [|done].
  apply bool_decide_eq_true_1 in E. by rewrite E.
Qed.

End Candidates.

(** C7. On the page the FAQ loop reaches with no pair collected (every path
    before it failed or gave no pair), fetched with status 200 and parsed:
    when the accordion strategy finds a pair there, the result of
    [_fetch_faqs] is the accordion pairs of that page and nothing else, the
    pairs of the flat heuristic are not added; when it finds none and the
    flat heuristic finds a pair, the result is the flat pairs; when neither
    finds one, the loop goes on to the next path with no pair.  In the first
    two cases the request for that page is the last one made. *)
Theorem faq_strategies_not_merged `{L : Lib} (net : network)
    (pre post : list string) (path url content : string) (sp : Bs4.node)
    (s s1 : scraper) :
  faq_paths = pre ++ path :: post →
  faqs_loop net pre [] s = (Ok [], s1) →
  urljoin (base_url s1) path = Some url →
  net (requested s1) url = Response content 200 →
  BeautifulSoup content = Some sp →
  (accordion_faqs sp ≠ [] →
   _fetch_faqs net s = (Ok (accordion_faqs sp), log_request url (opened s1)))
  ∧ (accordion_faqs sp = [] → flat_faqs sp ≠ [] →
     _fetch_faqs net s = (Ok (flat_faqs sp), log_request url (opened s1)))
  ∧ (accordion_faqs sp = [] → flat_faqs sp = [] →
     _fetch_faqs net s = faqs_loop net post [] (log_request url (opened s1))).
Proof.
  intros Hpaths Hpre Hurl Hnet Hsp. unfold _fetch_faqs. rewrite Hpaths.
  rewrite (faqs_loop_page net _ _ _ _ _ _ _ _ Hpre Hurl Hnet Hsp), page_faqs_nil.
  split; [|split].
  - intros Ha. rewrite (bool_decide_eq_false_2 (accordion_faqs sp = [])) by done.
    by rewrite (bool_decide_eq_false_2 (accordion_faqs sp = [])).
  - intros Ha Hb. rewrite (bool_decide_eq_true_2 (accordion_faqs sp = [])) by done.
    by rewrite (bool_decide_eq_false_2 (flat_faqs sp = [])).
  - intros Ha Hb. rewrite (bool_decide_eq_true_2 (accordion_faqs sp = [])) by done.
    by rewrite (bool_decide_eq_true_2 (flat_faqs sp = [])).
Qed.

Lemma faq_strategies_not_merged_witness :
  flat_faqs Demo.faq_soup = [mkFAQ "Q1?" "A1"; mkFAQ "Q2?" "A2"]
  ∧ _fetch_faqs Demo.late_store (new_scraper Demo.base)
    = (Ok [mkFAQ "Q1?" "A1"],
       mkScraper Demo.base true None false
         ["https://shop.example/faq"; "https://shop.example/pages/faq"] 1 0).
Proof.
  split; [vm_compute; reflexivity|].
  apply (faq_strategies_not_merged Demo.late_store ["/faq"]
           ["/pages/faqs"; "/pages/frequently-asked-questions"] "/pages/faq"
           "https://shop.example/pages/faq" Demo.faq_html Demo.faq_soup
           (new_scraper Demo.base)
           (mkScraper Demo.base true None false ["https://shop.example/faq"] 1 0));
    try (vm_compute; reflexivity).
  vm_compute. discriminate.
Defined.

(** C8, as the scraper has it.  For the about text, and for each policy,
    whose candidate paths are [pre ++ path :: post]: when no path of [pre]
    gave a text, and [path] answers 200 with a page the parser accepts and
    that has a main content (a [main] element, else a [div] whose class
    matches), the field of the result is the text of that page, and the
    request for [path] is the last one made for that field: no path of
    [post] is fetched for it.  For a policy, [policies0] and [s0] are the
    policies and the state when its turn comes. *)
Theorem text_block_stops_at_first_content `{L : Lib} (net : network)
    (pre post : list string) (path url content page_text : string)
    (sp : Bs4.node) (s s1 : scraper) :
  urljoin (base_url s1) path = Some url →
  net (requested s1) url = Response content 200 →
  BeautifulSoup content = Some sp →
  text_block sp = Some page_text →
  (about_paths = pre ++ path :: post →
   text_page_loop net pre s = (Ok None, s1) →
   (_fetch_about net s).1 = Ok (Some page_text)
   ∧ requested (_fetch_about net s).2 = requested s1 ++ [url])
  ∧ (∀ k before after policies0 s0,
       policy_types = before ++ k :: after →
       policy_paths k = pre ++ path :: post →
       policies_loop net before Policies_default s = (Ok policies0, s0) →
       text_page_loop net pre s0 = (Ok None, s1) →
       policies_loop net (before ++ [k]) Policies_default s
       = (Ok (set_policy k page_text policies0), log_request url (opened s1))
       ∧ ∀ v_policies s',
           _fetch_policies net s = (Ok v_policies, s') →
           get_policy k v_policies = Some page_text).
Proof.
  intros Hurl Hnet Hsp Htext. split.
  - intros Hpaths Hpre. unfold _fetch_about. rewrite Hpaths.
    rewrite (text_page_loop_hit net _ _ _ _ _ _ _ _ _ Hpre Hurl Hnet Hsp Htext).
    simpl. by rewrite opened_requested.
  - intros k before after policies0 s0 Htypes Hpaths Hbefore Hpre.
    assert (text_page_loop net (policy_paths k) s0
            = (Ok (Some page_text), log_request url (opened s1))) as Hk.
    { rewrite Hpaths.
      apply (text_page_loop_hit net _ _ _ _ _ _ _ _ _ Hpre Hurl Hnet Hsp Htext). }
    split.
    + by rewrite policies_loop_app, Hbefore, policies_loop_cons, Hk.
    + intros v_policies s'. unfold _fetch_policies.
      rewrite Htypes, policies_loop_app, Hbefore, policies_loop_cons, Hk.
      intros H. assert (k ∉ after) as Hafter.
      { pose proof policy_types_NoDup as Hnd.
        rewrite Htypes in Hnd. apply NoDup_app in Hnd as (_ & _ & Hnd).
        by apply NoDup_cons in Hnd as [? _]. }
      rewrite (policies_loop_keeps net k _ _ _ _ _ Hafter H), get_set_policy.
      by destruct (decide (k = k)).
Qed.

Lemma text_block_stops_at_first_content_witness :
  ((_fetch_about Demo.late_store (new_scraper Demo.base)).1 = Ok (Some "Our story")
   ∧ requested (_fetch_about Demo.late_store (new_scraper Demo.base)).2
     = ["https://shop.example/about"] ++ ["https://shop.example/pages/about"])
  ∧ (policies_loop Demo.late_store ([Privacy] ++ [ReturnPolicy]) Policies_default
       (new_scraper Demo.base)
     = (Ok (set_policy ReturnPolicy "Our story" Policies_default),
        mkScraper Demo.base true None false
          [ "https://shop.example/policies/privacy-policy";
            "https://shop.example/pages/privacy-policy";
            "https://shop.example/pages/privacy";
            "https://shop.example/policies/refund-policy";
            "https://shop.example/pages/refund-policy" ] 1 0)
     ∧ get_policy ReturnPolicy
         (mkPolicies None (Some "Our story") (Some "Our story") None)
       = Some "Our story").
Proof.
  split.
  - apply (text_block_stops_at_first_content Demo.late_store ["/about"]
             ["/pages/about-us"; "/pages/our-story"; "/pages/story"]
             "/pages/about" "https://shop.example/pages/about" Demo.story_html
             "Our story" Demo.story_soup (new_scraper Demo.base)
             (mkScraper Demo.base true None false ["https://shop.example/about"]
                1 0));
      reflexivity.
  - destruct (text_block_stops_at_first_content (L := Demo.lib) Demo.late_store
                ["/policies/refund-policy"]
                ["/pages/returns"; "/pages/return-policy"]
                "/pages/refund-policy" "https://shop.example/pages/refund-policy"
                Demo.story_html "Our story" Demo.story_soup
                (new_scraper Demo.base)
                (mkScraper Demo.base true None false
                   [ "https://shop.example/policies/privacy-policy";
                     "https://shop.example/pages/privacy-policy";
                     "https://shop.example/pages/privacy";
                     "https://shop.example/policies/refund-policy" ] 1 0)
                ltac:(reflexivity) ltac:(reflexivity) ltac:(reflexivity)
                ltac:(reflexivity)) as [_ Hpolicy].
    destruct (Hpolicy ReturnPolicy [Privacy] [Refund; Terms] Policies_default
                (mkScraper Demo.base true None false
                   [ "https://shop.example/policies/privacy-policy";
                     "https://shop.example/pages/privacy-policy";
                     "https://shop.example/pages/privacy" ] 1 0)
                ltac:(reflexivity) ltac:(reflexivity) ltac:(vm_compute; reflexivity)
                ltac:(vm_compute; reflexivity)) as [Hturn Hfield].
    split; [exact Hturn|].
    apply (Hfield _ (_fetch_policies Demo.late_store (new_scraper Demo.base)).2).
    vm_compute. reflexivity.
Defined.

(** C8 as stated fails: on a storefront that answers every path with 200
    and a page without main content, the first about path answers 200 and
    the four later paths are fetched all the same. *)
Lemma first_200_does_not_stop :
  Demo.hollow_store [] "https://shop.example/about" = Response Demo.plain_html 200
  ∧ _fetch_about Demo.hollow_store (new_scraper Demo.base)
    = (Ok None,
       mkScraper Demo.base true None false
         [ "https://shop.example/about"; "https://shop.example/pages/about";
           "https://shop.example/pages/about-us";
           "https://shop.example/pages/our-story";
           "https://shop.example/pages/story" ] 1 0).
Proof. split; vm_compute; reflexivity. Qed.

(** ** The catalog *)

#[local] Arguments new_product : simpl never.
#[local] Arguments append_products : simpl never.

Section Catalog.
Context `{L : Lib} (net : network).

Lemma products_loop_cons endpoint rest products s :
  products_loop net (endpoint :: rest) products s =
  match fetch_path net endpoint s with
  | (Ok (content, status), s1) =>
      if (status =? 200)%Z then
        match feed_records content with
        | Some items =>
            match append_products (base_url s) items products with
            | (products', true) => (Ok products', s1)
            | (products', false) => products_loop net rest products' s1
            end
        | None => products_loop net rest products s1
        end
      else products_loop net rest products s1
  | (Raise e, s1) =>
      if is_Exception e then products_loop net rest products s1
      else (Raise e, s1)
  end.
Proof.
  cbn [products_loop]. rewrite bind_eq. unfold try_except. rewrite bind_eq.
  unfold self at 1. rewrite bind_eq.
  destruct (fetch_path net endpoint s) as [[[content status]|e] s1].
  - destruct (status =? 200)%Z; [|done]. unfold feed_records.
    rewrite bind_eq.
    destruct (json_loads content) as [data|]; [|done]. simpl. rewrite bind_eq.
    destruct (Json.contains "products" data) as [[|]|]; [|done..]. simpl.
    rewrite bind_eq.
    destruct (Json.item "products" data ≫= Json.iter) as [items|]; [|done]. simpl.
    by destruct (append_products (base_url s) items products) as [products' [|]].
  - by destruct (is_Exception e).
Qed.

Lemma append_products_cons base product_data rest products :
  append_products base (product_data :: rest) products =
  match new_product base product_data with
  | Some product => append_products base rest (products ++ [product])
  | None => (products, false)
  end.
Proof. reflexivity. Qed.

(** All records convert: the loop runs to its end. *)
Lemma append_products_all base items products ps :
  mapM (new_product base) items = Some ps →
  append_products base items products = (products ++ ps, true).
Proof.
  revert products ps. induction items as [|pd rest IH]; intros products ps.
  - intros [= <-]. by rewrite app_nil_r.
  - rewrite append_products_cons. cbn [mapM]. 
    destruct (new_product base pd) as [p|]; [|done]. simpl.
    destruct (mapM (new_product base) rest) as [ps'|] eqn:E; [|done]. simpl.
    intros [= <-]. rewrite (IH _ _ eq_refl). by rewrite <- app_assoc.
Qed.

(** A record raises: what was appended before it stays. *)
Lemma append_products_partial base good bad rest products ps :
  mapM (new_product base) good = Some ps →
  new_product base bad = None →
  append_products base (good ++ bad :: rest) products = (products ++ ps, false).
Proof.
  revert products ps. induction good as [|pd good IH]; intros products ps.
  - intros [= <-] Hbad. rewrite app_nil_l, append_products_cons, Hbad.
    by rewrite app_nil_r.
  - rewrite <- app_comm_cons, append_products_cons. cbn [mapM].
    destruct (new_product base pd) as [p|]; [|done]. simpl.
    destruct (mapM (new_product base) good) as [ps'|] eqn:E; [|done]. simpl.
    intros [= <-] Hbad. rewrite (IH _ _ eq_refl Hbad). by rewrite <- app_assoc.
Qed.

End Catalog.

(** C3, as the scraper has it.  When the first endpoint answers 200 with a
    document that decodes, has a [products] collection, and whose records
    all convert to a [Product] (none at all, when the collection is empty),
    [_fetch_products] returns these products and the first endpoint is the
    only one fetched. *)
Theorem catalog_stops_at_first_valid_feed `{L : Lib} (net : network) (s : scraper)
    (url content : string) (items : list Json.t) (ps : list Product) :
  urljoin (base_url s) "/products.json?limit=250" = Some url →
  net (requested s) url = Response content 200 →
  feed_records content = Some items →
  mapM (new_product (base_url s)) items = Some ps →
  (_fetch_products net s).1 = Ok ps
  ∧ requested (_fetch_products net s).2 = requested s ++ [url].
Proof.
  intros Hurl Hnet Hfeed Hall. unfold _fetch_products, product_endpoints.
  rewrite products_loop_cons, (fetch_path_hit net _ _ _ _ Hurl Hnet).
  change (200 =? 200)%Z with true. cbv iota.
  rewrite Hfeed, (append_products_all _ _ _ _ Hall). simpl.
  by rewrite opened_requested.
Qed.

Lemma catalog_stops_at_first_valid_feed_witness :
  (_fetch_products (Demo.feed_store "feed:empty" "feed:three")
     (new_scraper Demo.base)).1 = Ok []
  ∧ requested (_fetch_products (Demo.feed_store "feed:empty" "feed:three")
                 (new_scraper Demo.base)).2
    = [] ++ ["https://shop.example/products.json?limit=250"].
Proof.
  apply (catalog_stops_at_first_valid_feed
           (Demo.feed_store "feed:empty" "feed:three") (new_scraper Demo.base)
           "https://shop.example/products.json?limit=250" "feed:empty" [] []);
    reflexivity.
Defined.

(** C3 as stated fails: the first endpoint answers 200 with a document that
    decodes and has a [products] collection of one record, whose [tags] is
    [null]; converting the record raises, the second endpoint is fetched and
    its three products are the result. *)
Lemma valid_feed_does_not_stop :
  Demo.feed_store "feed:null-tags" "feed:three" []
    "https://shop.example/products.json?limit=250"
  = Response "feed:null-tags" 200
  ∧ feed_records "feed:null-tags"
    = Some [Json.Obj [("id", Json.Int 7); ("title", Json.Str "Scarf");
                      ("handle", Json.Str "scarf"); ("tags", Json.Null)]]
  ∧ (_fetch_products (Demo.feed_store "feed:null-tags" "feed:three")
       (new_scraper Demo.base)).1 = Ok Demo.catalog
  ∧ requested (_fetch_products (Demo.feed_store "feed:null-tags" "feed:three")
                 (new_scraper Demo.base)).2
    = [ "https://shop.example/products.json?limit=250";
        "https://shop.example/collections/all/products.json?limit=250" ].
Proof. repeat split; vm_compute; reflexivity. Qed.

(** C10. Product extraction is not atomic per endpoint.  When the first
    endpoint's records [good] convert and the next record raises, and the
    second endpoint's records convert, [_fetch_products] returns the
    products of [good] followed by those of the second endpoint. *)
Theorem partial_products_are_kept `{L : Lib} (net : network) (s : scraper)
    (url1 url2 content1 content2 : string) (good rest items2 : list Json.t)
    (bad : Json.t) (ps1 ps2 : list Product) :
  urljoin (base_url s) "/products.json?limit=250" = Some url1 →
  net (requested s) url1 = Response content1 200 →
  feed_records content1 = Some (good ++ bad :: rest) →
  mapM (new_product (base_url s)) good = Some ps1 →
  new_product (base_url s) bad = None →
  urljoin (base_url s) "/collections/all/products.json?limit=250" = Some url2 →
  net (requested s ++ [url1]) url2 = Response content2 200 →
  feed_records content2 = Some items2 →
  mapM (new_product (base_url s)) items2 = Some ps2 →
  (_fetch_products net s).1 = Ok (ps1 ++ ps2)
  ∧ requested (_fetch_products net s).2 = requested s ++ [url1; url2].
Proof.
  intros Hurl1 Hnet1 Hfeed1 Hgood Hbad Hurl2 Hnet2 Hfeed2 Hall2.
  unfold _fetch_products, product_endpoints.
  rewrite products_loop_cons, (fetch_path_hit net _ _ _ _ Hurl1 Hnet1).
  change (200 =? 200)%Z with true. cbv iota.
  rewrite Hfeed1, (append_products_partial _ _ _ _ _ _ Hgood Hbad).
  set (s1 := log_request url1 (opened s)).
  assert (base_url s1 = base_url s) as Hbase by (by subst s1; simpl; rewrite opened_base_url).
  assert (requested s1 = requested s ++ [url1]) as Hreq
    by (by subst s1; simpl; rewrite opened_requested).
  rewrite <- Hbase in Hurl2. rewrite <- Hreq in Hnet2.
  rewrite products_loop_cons, (fetch_path_hit net _ _ _ _ Hurl2 Hnet2).
  change (200 =? 200)%Z with true. cbv iota.
  rewrite Hfeed2, Hbase, (append_products_all _ _ _ _ Hall2). simpl.
  rewrite opened_requested, Hreq. by rewrite <- app_assoc.
Qed.

Lemma partial_products_are_kept_witness :
  (_fetch_products (Demo.feed_store "feed:good-then-bad" "feed:three")
     (new_scraper Demo.base)).1
  = Ok ([Demo.product "9" "Belt" "belt"] ++ Demo.catalog)
  ∧ requested (_fetch_products (Demo.feed_store "feed:good-then-bad" "feed:three")
                 (new_scraper Demo.base)).2
    = [] ++ [ "https://shop.example/products.json?limit=250";
              "https://shop.example/collections/all/products.json?limit=250" ].
Proof.
  apply (partial_products_are_kept
           (Demo.feed_store "feed:good-then-bad" "feed:three")
           (new_scraper Demo.base)
           "https://shop.example/products.json?limit=250"
           "https://shop.example/collections/all/products.json?limit=250"
           "feed:good-then-bad" "feed:three"
           [Demo.record 9 "Belt" "belt"] []
           [Demo.record 1 "Red shirt" "red-shirt";
            Demo.record 2 "Blue shirt" "blue-shirt"; Demo.record 3 "Hat" "hat"]
           (Json.Int 5));
    vm_compute; reflexivity.
Defined.

(** ** What the matcher matches *)

Section Matcher.

Lemma starts_with_spec a l :
  Py.starts_with a l = true → l = a ++ drop (length a) l.
Proof.
  revert l. induction a as [|x a IH]; intros [|y l]; simpl; try done.
  intros [Hxy Hrest]%andb_true_iff. apply Ascii.eqb_eq in Hxy as ->.
  f_equal. by apply IH.
Qed.

Lemma downto_bounds lo m n : n ∈ Re.downto lo m → (lo ≤ n ≤ m)%nat.
Proof.
  induction m as [|m IH]; simpl.
  - destruct (0 <? lo)%nat eqn:E; [by intros ?%elem_of_nil|].
    apply Nat.ltb_ge in E. intros [->|[]%elem_of_nil]%elem_of_cons. lia.
  - destruct (S m <? lo)%nat eqn:E; [by intros ?%elem_of_nil|].
    apply Nat.ltb_ge in E. intros [->|Hn]%elem_of_cons; [lia|].
    apply IH in Hn. lia.
Qed.

Lemma run_spec p hi l :
  Forall (λ c, p c = true) (take (Re.run p hi l) l)
  ∧ (Re.run p hi l ≤ length l)%nat
  ∧ ∀ h, hi = Some h → (Re.run p hi l ≤ h)%nat.
Proof.
  revert hi. induction l as [|c l IH]; intros hi.
  - destruct hi as [[|h]|]; simpl; repeat split; auto with lia; by intros ? [= <-]; lia.
  - destruct hi as [[|h]|]; simpl.
    + repeat split; auto with lia. 
    + destruct (p c) eqn:Ec; simpl.
      * destruct (IH (Some h)) as (F & Hlen & Hh). repeat split; [by constructor | lia|].
        intros ? [= <-]. specialize (Hh h eq_refl). lia.
      * repeat split; auto with lia.
    + destruct (p c) eqn:Ec; simpl.
      * destruct (IH None) as (F & Hlen & Hh). repeat split; [by constructor | lia | done].
      * repeat split; auto with lia.
Qed.

(** The matcher is sound: what it consumes is a word of the pattern. *)
Lemma ms_sound r l c rest :
  (c, rest) ∈ Re.ms r l → ∃ w, l = w ++ rest ∧ lang r w.
Proof.
  revert l c rest.
  induction r as [|s| |p|r1 IH1 r2 IH2|r1 IH1 r2 IH2|r IH|p lo hi|r IH];
    intros l c rest; cbn [Re.ms].
  - intros [= -> ->]%list_elem_of_singleton. exists []. split; [done | constructor].
  - destruct (Py.starts_with (Py.chars s) l) eqn:E; [|by intros ?%elem_of_nil].
    intros [= -> ->]%list_elem_of_singleton. exists (Py.chars s).
    split; [by apply starts_with_spec | constructor].
  - destruct l as [|x l]; [by intros ?%elem_of_nil|].
    destruct (Re.not_newline x) eqn:E; [|by intros ?%elem_of_nil].
    intros [= -> ->]%list_elem_of_singleton. exists [x]. split; [done | by constructor].
  - destruct l as [|x l]; [by intros ?%elem_of_nil|].
    destruct (p x) eqn:E; [|by intros ?%elem_of_nil].
    intros [= -> ->]%list_elem_of_singleton. exists [x]. split; [done | by constructor].
  - intros ([c1 l1] & H2 & H1)%list_elem_of_bind.
    apply list_elem_of_bind in H2 as ([c2 l2] & H3 & H2). simpl in *.
    apply list_elem_of_singleton in H3 as [= -> ->].
    apply IH1 in H1 as (w1 & -> & L1). apply IH2 in H2 as (w2 & -> & L2).
    exists (w1 ++ w2). split; [by rewrite app_assoc | by constructor].
  - intros [H|H]%elem_of_app; apply list_elem_of_fmap in H as ([c' l'] & [= -> ->] & H).
    + apply IH1 in H as (w & -> & Lw). exists w. split; [done | by apply lang_alt_l].
    + apply IH2 in H as (w & -> & Lw). exists w. split; [done | by apply lang_alt_r].
  - intros [H|H]%elem_of_app.
    + apply IH in H as (w & -> & Lw). exists w. split; [done | by apply lang_opt_some].
    + apply list_elem_of_singleton in H as [= -> ->]. exists [].
      split; [done | apply lang_opt_none].
  - intros (n & [= -> ->] & Hn)%list_elem_of_fmap.
    apply downto_bounds in Hn as [Hlo Hm].
    destruct (run_spec p hi l) as (F & Hlen & Hh).
    exists (take n l). split; [by rewrite take_drop|].
    apply lang_rep.
    + replace (take n l) with (take n (take (Re.run p hi l) l))
        by (rewrite take_take; f_equal; lia).
      by apply Forall_take.
    + rewrite length_take. lia.
    + intros h Eh. specialize (Hh h Eh). rewrite length_take. lia.
  - intros ([c' l'] & [= -> ->] & H)%list_elem_of_fmap.
    apply IH in H as (w & -> & Lw). exists w. split; [done | by constructor].
Qed.

Lemma head_ms_sound r l c rest :
  head (Re.ms r l) = Some (c, rest) →
  ∃ w, l = w ++ rest ∧ lang r w ∧ length l - length rest = length w.
Proof.
  intros H. apply head_Some_elem_of in H. apply ms_sound in H as (w & -> & Lw).
  exists w. repeat split; [done|]. rewrite length_app. lia.
Qed.

(** What [findall] returns are words of the pattern. *)
Lemma findall_go_sound r skip l x :
  x ∈ Re.findall_go r skip l → ∃ w, x = Py.text w ∧ lang r w.
Proof.
  revert skip. induction l as [|c l IH]; intros skip; [by intros ?%elem_of_nil|].
  cbn [Re.findall_go]. destruct skip as [|k]; [|apply IH].
  destruct (head (Re.ms r (c :: l))) as [[cs rest]|] eqn:E; [|apply IH].
  destruct (length (c :: l) - length rest) as [|k] eqn:En; [apply IH|].
  intros [->|H]%elem_of_cons; [|by eapply IH].
  apply head_ms_sound in E as (w & Hl & Lw & Hlen).
  exists w. split; [|done]. f_equal. rewrite <- En, Hlen, Hl.
  by rewrite take_app_length.
Qed.

Lemma findall_sound r s x :
  x ∈ Re.findall r s → ∃ w, x = Py.text w ∧ lang r w.
Proof. apply findall_go_sound. Qed.

End Matcher.

(** ** Phone numbers *)

#[local] Arguments Re.ms : simpl never.

Section Phones.

Lemma chars_text l : Py.chars (Py.text l) = l.
Proof. apply String.list_ascii_of_string_of_list_ascii. Qed.

Lemma length_text l : String.length (Py.text l) = length l.
Proof. induction l as [|c l IH]; simpl; [done | by rewrite IH]. Qed.

(** A candidate: an optional [+], then 10 to 20 digits, spaces, brackets
    and hyphens. *)
Lemma phone_pattern_words w :
  lang Pat.phone_pattern w →
  ∃ body, (w = body ∨ w = "+"%char :: body)
          ∧ Forall (λ c, Pat.phone_char c = true) body
          ∧ (10 ≤ length body ≤ 20)%nat.
Proof.
  unfold Pat.phone_pattern, Re.cat. cbn [foldr]. intros H.
  inversion H as [| | | |r1 r2 w1 w2 Hopt Hrest| | | | | |]; subst.
  inversion Hrest as [| | | |r1 r2 body w3 Hrep Heps| | | | | |]; subst.
  inversion Heps; subst. rewrite app_nil_r.
  inversion Hrep as [| | | | | | | | |p lo hi w' F Hlo Hhi|]; subst.
  specialize (Hhi 20%nat eq_refl).
  exists body. split; [|split; [done | lia]].
  inversion Hopt as [| | | | | | |r w' Hplus| | |]; subst; [|by left].
  inversion Hplus; subst. by right.
Qed.

Lemma ms_rep p lo hi l :
  Re.ms (Re.Rep p lo hi) l = (λ n, ([], drop n l)) <$> Re.downto lo (Re.run p hi l).
Proof. reflexivity. Qed.

Lemma run_cons_unbounded p c l :
  Re.run p None (c :: l) = if p c then S (Re.run p None l) else 0%nat.
Proof. reflexivity. Qed.

(** Deleting the runs of a class deletes its characters. *)
Lemma delete_go_plus p k l :
  Forall (λ c, p c = true) (take k l) →
  Re.delete_go (Re.plus p) k l = List.filter (λ c, negb (p c)) l.
Proof.
  revert k. induction l as [|c l IH]; intros k; [done|].
  cbn [Re.delete_go]. destruct k as [|k].
  - intros _. unfold Re.plus at 1. rewrite ms_rep.
    destruct (run_spec p None (c :: l)) as (F & Hlen & _).
    rewrite run_cons_unbounded in *.
    destruct (p c) eqn:Ec.
    + cbn [Re.downto Nat.ltb Nat.leb fmap list_fmap head].
      rewrite length_drop.
      replace (length (c :: l) - (length (c :: l) - S (Re.run p None l)))
        with (S (Re.run p None l)) by (simpl in *; lia).
      cbn [List.filter]. rewrite Ec. cbn [negb].
      apply IH. by inversion F.
    + cbn [Re.downto Nat.ltb Nat.leb fmap list_fmap head].
      cbn [List.filter]. rewrite Ec. cbn [negb]. f_equal. by apply IH.
  - cbn [take]. intros F. inversion F as [|? ? Ec F']; subst.
    cbn [List.filter]. rewrite Ec. cbn [negb]. by apply IH.
Qed.

Lemma clean_phone_text w :
  clean_phone (Py.text w)
  = Py.text (List.filter (λ c, negb (Pat.phone_filler c)) w).
Proof.
  unfold clean_phone, Re.delete, Pat.phone_fill. rewrite chars_text.
  f_equal. by apply delete_go_plus.
Qed.

Lemma filter_phone_body body :
  Forall (λ c, Pat.phone_char c = true) body →
  Forall (λ c, Py.is_digit c = true)
         (List.filter (λ c, negb (Pat.phone_filler c)) body).
Proof.
  induction 1 as [|c body Hc F IH]; cbn [List.filter]; [constructor|].
  destruct (Pat.phone_filler c) eqn:E; cbn [negb]; [done|].
  constructor; [|done]. unfold Pat.phone_char, Pat.phone_filler in *.
  destruct (Py.is_digit c); [done|]. simpl in Hc. congruence.
Qed.

(** The cleaned candidate: digits, after the [+] if the candidate has
    one. *)
Lemma clean_phone_words w :
  lang Pat.phone_pattern w →
  ∃ digits,
    Forall (λ c, Py.is_digit c = true) digits
    ∧ (w = "+"%char :: drop 1 w ∧ clean_phone (Py.text w) = Py.text ("+"%char :: digits)
       ∨ clean_phone (Py.text w) = Py.text digits).
Proof.
  intros (body & Hw & F & _)%phone_pattern_words.
  exists (List.filter (λ c, negb (Pat.phone_filler c)) body).
  split; [by apply filter_phone_body|].
  rewrite clean_phone_text. destruct Hw as [->| ->]; [by right|left].
  by split.
Qed.

Lemma found_phones_loop_spec found_phones phones x :
  x ∈ found_phones_loop found_phones phones ↔
  x ∈ phones
  ∨ ∃ phone, phone ∈ found_phones ∧ phone_kept phone = true ∧ x = Py.strip phone.
Proof.
  revert phones. induction found_phones as [|phone rest IH]; intros phones; simpl.
  - split; [by left|]. intros [H|(phone & []%elem_of_nil & _)]. done.
  - rewrite IH. destruct (phone_kept phone) eqn:E.
    + rewrite elem_of_union, elem_of_singleton. split.
      * intros [[H| ->]|(p & Hin & Hk & ->)]; [by left| |].
        -- right. exists phone. split; [by left | done].
        -- right. exists p. split; [by right | done].
      * intros [H|(p & [->|Hin]%elem_of_cons & Hk & ->)]; [by left; left|by left; right|].
        right. by exists p.
    + split.
      * intros [H|(p & Hin & Hk & ->)]; [by left|].
        right. exists p. split; [by right | done].
      * intros [H|(p & [->|Hin]%elem_of_cons & Hk & ->)]; [by left|congruence|].
        right. by exists p.
Qed.

End Phones.

(** C9, as the scraper has it.  A phone of the visible text is in the set
    only as the stripped form of a candidate whose cleaned string (white
    space, brackets and hyphens removed) has length at least 10; the cleaned
    string is a string of digits, or [+] followed by digits when the
    candidate starts with [+]: the plus sign is kept and counted. *)
Theorem kept_phone_is_long_enough (page_text x : string) :
  x ∈ text_phones page_text →
  ∃ phone digits,
    phone ∈ Re.findall Pat.phone_pattern page_text
    ∧ x = Py.strip phone
    ∧ (10 ≤ String.length (clean_phone phone))%nat
    ∧ Forall (λ c, Py.is_digit c = true) digits
    ∧ (clean_phone phone = Py.text digits
       ∨ Py.starts_with (Py.chars "+") (Py.chars phone) = true
         ∧ clean_phone phone = Py.text ("+"%char :: digits)).
Proof.
  unfold text_phones. rewrite found_phones_loop_spec.
  intros [[]%elem_of_empty|(phone & Hin & Hkept & ->)].
  destruct (findall_sound _ _ _ Hin) as (w & -> & Lw).
  destruct (clean_phone_words w Lw) as (digits & F & Hclean).
  exists (Py.text w), digits. split; [done|]. split; [done|].
  split; [by apply Nat.leb_le in Hkept|]. split; [done|].
  destruct Hclean as [[Hw Hc]|Hc]; [right|by left].
  split; [|done]. rewrite chars_text, Hw. by vm_compute.
Qed.

Lemma kept_phone_is_long_enough_witness :
  ∃ phone digits,
    phone ∈ Re.findall Pat.phone_pattern "call (555) 123-4567 now"
    ∧ "(555) 123-4567" = Py.strip phone
    ∧ (10 ≤ String.length (clean_phone phone))%nat
    ∧ Forall (λ c, Py.is_digit c = true) digits
    ∧ (clean_phone phone = Py.text digits
       ∨ Py.starts_with (Py.chars "+") (Py.chars phone) = true
         ∧ clean_phone phone = Py.text ("+"%char :: digits)).
Proof.
  apply (kept_phone_is_long_enough "call (555) 123-4567 now" "(555) 123-4567").
  vm_compute. reflexivity.
Defined.

(** C9 as stated fails: the candidate [+12345-6789] is kept, and its
    cleaned string [+123456789] is not a string of digits (it holds nine). *)
Lemma plus_counts_as_a_digit :
  Re.findall Pat.phone_pattern "call +12345-6789" = ["+12345-6789"]
  ∧ "+12345-6789" ∈ text_phones "call +12345-6789"
  ∧ clean_phone "+12345-6789" = "+123456789"
  ∧ forallb Py.is_digit (Py.chars (clean_phone "+12345-6789")) = false
  ∧ length (List.filter Py.is_digit (Py.chars (clean_phone "+12345-6789"))) = 9%nat.
Proof. repeat split; vm_compute; reflexivity. Qed.

(** ** A storefront with a homepage and nothing else *)

#[local] Arguments contact_of : simpl never.
#[local] Arguments links_of : simpl never.
#[local] Arguments socials_loop : simpl never.
#[local] Arguments hero_loop : simpl never.

Section Bare.
Context `{L : Lib} (net : network).

Lemma bind_ok {A B} (m : M A) (k : A → M B) s v :
  (m s).1 = Ok v → bind m k s = k v (m s).2.
Proof. rewrite bind_eq. destruct (m s) as [r s']. simpl. by intros ->. Qed.

Lemma all_fail_ext s s' :
  all_fail_after net (base_url s) (requested s) → ext s s' →
  all_fail_after net (base_url s') (requested s').
Proof.
  intros H [Hb _ _ _ _ Hreq] l path url Hl Hp Hurl. rewrite Hb in Hurl.
  eapply H; [by etrans | done..].
Qed.

(** A failing candidate: no page, or a page that is not a 200. *)
Lemma fetch_path_fails path s :
  path ∈ candidates →
  all_fail_after net (base_url s) (requested s) →
  match fetch_path net path s with
  | (Ok (_, status), _) => (status =? 200)%Z = false
  | (Raise e, _) => is_Exception e = true
  end.
Proof.
  intros Hp H. rewrite fetch_path_run.
  destruct (urljoin (base_url s) path) as [url|] eqn:Hurl; [|done].
  rewrite session_get_run, opened_requested.
  specialize (H (requested s) path url (reflexivity _) Hp Hurl).
  destruct (net (requested s) url); simpl in *; [by apply Z.eqb_neq|done..].
Qed.

Lemma text_page_loop_fails paths s :
  paths ⊆ candidates →
  all_fail_after net (base_url s) (requested s) →
  (text_page_loop net paths s).1 = Ok None.
Proof.
  revert s. induction paths as [|path rest IH]; intros s Hsub H; [done|].
  rewrite text_page_loop_cons.
  assert (path ∈ candidates) as Hp by (apply Hsub; by left).
  assert (rest ⊆ candidates) as Hrest by (intros x Hx; apply Hsub; by right).
  pose proof (fetch_path_fails path s Hp H) as Hf.
  pose proof (framed_fetch_path net path s) as Hext.
  destruct (fetch_path net path s) as [[[content status]|e] s1]; simpl in Hext.
  - rewrite Hf. apply IH; [done | by eapply all_fail_ext].
  - rewrite Hf. apply IH; [done | by eapply all_fail_ext].
Qed.

Lemma policy_paths_candidates k : policy_paths k ⊆ candidates.
Proof. destruct k; compute_done. Qed.

Lemma policies_loop_fails types policies s :
  all_fail_after net (base_url s) (requested s) →
  (policies_loop net types policies s).1 = Ok policies.
Proof.
  revert s. induction types as [|k rest IH]; intros s H; [done|].
  rewrite policies_loop_cons.
  pose proof (text_page_loop_fails (policy_paths k) s
                (policy_paths_candidates k) H) as Hf.
  pose proof (framed_text_page_loop net (policy_paths k) s) as Hext.
  destruct (text_page_loop net (policy_paths k) s) as [r s1]; simpl in *.
  subst r. apply IH. by eapply all_fail_ext.
Qed.

Lemma faqs_loop_fails paths faqs s :
  paths ⊆ candidates →
  all_fail_after net (base_url s) (requested s) →
  (faqs_loop net paths faqs s).1 = Ok faqs.
Proof.
  revert s. induction paths as [|path rest IH]; intros s Hsub H; [done|].
  rewrite faqs_loop_cons.
  assert (path ∈ candidates) as Hp by (apply Hsub; by left).
  assert (rest ⊆ candidates) as Hrest by (intros x Hx; apply Hsub; by right).
  pose proof (fetch_path_fails path s Hp H) as Hf.
  pose proof (framed_fetch_path net path s) as Hext.
  destruct (fetch_path net path s) as [[[content status]|e] s1]; simpl in Hext.
  - rewrite Hf. apply IH; [done | by eapply all_fail_ext].
  - rewrite Hf. apply IH; [done | by eapply all_fail_ext].
Qed.

Lemma products_loop_fails endpoints products s :
  endpoints ⊆ candidates →
  all_fail_after net (base_url s) (requested s) →
  (products_loop net endpoints products s).1 = Ok products.
Proof.
  revert s. induction endpoints as [|endpoint rest IH]; intros s Hsub H; [done|].
  rewrite products_loop_cons.
  assert (endpoint ∈ candidates) as Hp by (apply Hsub; by left).
  assert (rest ⊆ candidates) as Hrest by (intros x Hx; apply Hsub; by right).
  pose proof (fetch_path_fails endpoint s Hp H) as Hf.
  pose proof (framed_fetch_path net endpoint s) as Hext.
  destruct (fetch_path net endpoint s) as [[[content status]|e] s1]; simpl in Hext.
  - rewrite Hf. apply IH; [done | by eapply all_fail_ext].
  - rewrite Hf. apply IH; [done | by eapply all_fail_ext].
Qed.

Lemma contact_page_loop_cons path rest s :
  contact_page_loop net (path :: rest) s =
  match fetch_path net path s with
  | (Ok (content, status), s1) =>
      if (status =? 200)%Z then
        match BeautifulSoup content with
        | Some sp => (Ok (Some sp), s1)
        | None => contact_page_loop net rest s1
        end
      else contact_page_loop net rest s1
  | (Raise e, s1) =>
      if is_Exception e then contact_page_loop net rest s1 else (Raise e, s1)
  end.
Proof.
  cbn [contact_page_loop]. rewrite bind_eq. unfold try_except. rewrite bind_eq.
  destruct (fetch_path net path s) as [[[content status]|e] s1].
  - destruct (status =? 200)%Z; [|done]. rewrite bind_eq.
    by destruct (BeautifulSoup content).
  - by destruct (is_Exception e).
Qed.

Lemma contact_page_loop_fails paths s :
  paths ⊆ candidates →
  all_fail_after net (base_url s) (requested s) →
  (contact_page_loop net paths s).1 = Ok None.
Proof.
  revert s. induction paths as [|path rest IH]; intros s Hsub H; [done|].
  rewrite contact_page_loop_cons.
  assert (path ∈ candidates) as Hp by (apply Hsub; by left).
  assert (rest ⊆ candidates) as Hrest by (intros x Hx; apply Hsub; by right).
  pose proof (fetch_path_fails path s Hp H) as Hf.
  pose proof (framed_fetch_path net path s) as Hext.
  destruct (fetch_path net path s) as [[[content status]|e] s1]; simpl in Hext.
  - rewrite Hf. apply IH; [done | by eapply all_fail_ext].
  - rewrite Hf. apply IH; [done | by eapply all_fail_ext].
Qed.

Lemma product_endpoints_candidates : product_endpoints ⊆ candidates.
Proof. compute_done. Qed.
Lemma faq_paths_candidates : faq_paths ⊆ candidates.
Proof. compute_done. Qed.
Lemma contact_paths_candidates : contact_paths ⊆ candidates.
Proof. compute_done. Qed.
Lemma about_paths_candidates : about_paths ⊆ candidates.
Proof. compute_done. Qed.

(** The methods that read the parsed homepage. *)
Lemma homepage_soup_hit s sp :
  soup s = Some sp → homepage_soup net s = (Ok sp, s).
Proof.
  intros H. unfold homepage_soup. rewrite bind_eq. unfold self. by rewrite H.
Qed.

Lemma hero_loop_cons all_products link rest hero_products product_handles :
  hero_loop all_products (link :: rest) hero_products product_handles =
  let h := handle_of_href (Bs4.get "href" link) in
  if negb (String.eqb h "") && bool_decide (h ∉ product_handles) then
    match matching_product all_products h with
    | Some p =>
        hero_loop all_products rest (hero_products ++ [p]) (product_handles ∪ {[h]})
    | None => hero_loop all_products rest hero_products (product_handles ∪ {[h]})
    end
  else hero_loop all_products rest hero_products product_handles.
Proof. reflexivity. Qed.

Lemma hero_loop_no_catalog product_links hero_products product_handles :
  hero_loop [] product_links hero_products product_handles = hero_products.
Proof.
  revert product_handles.
  induction product_links as [|link rest IH]; intros product_handles; [done|].
  rewrite hero_loop_cons. cbv zeta. destruct (_ && _); apply IH.
Qed.

Lemma fetch_hero_products_no_catalog s sp :
  soup s = Some sp → _fetch_hero_products net [] s = (Ok [], s).
Proof.
  intros H. unfold _fetch_hero_products.
  rewrite bind_eq, (homepage_soup_hit _ _ H).
  by rewrite hero_loop_no_catalog.
Qed.

Lemma fetch_social_handles_hit s sp :
  soup s = Some sp → _fetch_social_handles net s = (Ok (socials_of sp), s).
Proof.
  intros H. unfold _fetch_social_handles.
  by rewrite bind_eq, (homepage_soup_hit _ _ H).
Qed.

Lemma fetch_important_links_hit s sp v_links :
  soup s = Some sp → links_of (base_url s) sp = Some v_links →
  _fetch_important_links net s = (Ok v_links, s).
Proof.
  intros H Hl. unfold _fetch_important_links.
  rewrite bind_eq, (homepage_soup_hit _ _ H), bind_eq. unfold self.
  by rewrite Hl.
Qed.

Lemma fetch_contact_info_fails s sp :
  soup s = Some sp → all_fail_after net (base_url s) (requested s) →
  (_fetch_contact_info net s).1 = Ok (contact_of sp).
Proof.
  intros H Hf. unfold _fetch_contact_info.
  rewrite bind_eq, (homepage_soup_hit _ _ H).
  rewrite (bind_ok _ _ _ _
             (contact_page_loop_fails contact_paths s contact_paths_candidates Hf)).
  done.
Qed.

End Bare.

Section BareRun.
Context `{L : Lib} (net : network).

Lemma run_body_bare s content sp v_links :
  net (requested s) (base_url s) = Response content 200 →
  BeautifulSoup content = Some sp →
  Py.any (shopify_indicators content sp) = true →
  all_fail_after net (base_url s) (requested s ++ [base_url s]) →
  links_of (base_url s) sp = Some v_links →
  (run_body net s).1
  = Ok (mkBrandContext (netloc (base_url s)) [] [] Policies_default []
          (socials_of sp) (contact_of sp) None v_links).
Proof.
  intros Hnet Hsp Hsig Hfail Hlinks.
  unfold run_body. rewrite bind_eq, check_is_shopify_run, Hnet, Hsp.
  change (200 =? 200)%Z with true. cbv iota. rewrite Hsig. cbn [negb].
  rewrite bind_eq. unfold self.
  set (s1 := checked content sp s).
  assert (base_url s1 = base_url s) as Hb1 by apply opened_base_url.
  assert (soup s1 = Some sp) as Hs1 by done.
  assert (all_fail_after net (base_url s1) (requested s1)) as Hf1.
  { rewrite Hb1. subst s1. unfold checked. simpl. by rewrite opened_requested. }
  rewrite Hb1.
  (* products *)
  rewrite (bind_ok (_fetch_products net) _ s1 []
             (products_loop_fails net product_endpoints [] s1
                product_endpoints_candidates Hf1)).
  pose proof (framed_fetch_products net s1) as E2.
  set (s2 := (_fetch_products net s1).2) in *.
  pose proof (ext_soup _ _ E2 _ Hs1) as Hs2.
  pose proof (all_fail_ext net _ _ Hf1 E2) as Hf2.
  (* hero products *)
  rewrite bind_eq, (fetch_hero_products_no_catalog net s2 sp Hs2).
  (* policies *)
  rewrite (bind_ok (_fetch_policies net) _ s2 Policies_default
             (policies_loop_fails net policy_types Policies_default s2 Hf2)).
  pose proof (framed_fetch_policies net s2) as E3.
  set (s3 := (_fetch_policies net s2).2) in *.
  pose proof (ext_soup _ _ E3 _ Hs2) as Hs3.
  pose proof (all_fail_ext net _ _ Hf2 E3) as Hf3.
  (* faqs *)
  rewrite (bind_ok (_fetch_faqs net) _ s3 []
             (faqs_loop_fails net faq_paths [] s3 faq_paths_candidates Hf3)).
  pose proof (framed_fetch_faqs net s3) as E4.
  set (s4 := (_fetch_faqs net s3).2) in *.
  pose proof (ext_soup _ _ E4 _ Hs3) as Hs4.
  pose proof (all_fail_ext net _ _ Hf3 E4) as Hf4.
  (* socials *)
  rewrite bind_eq, (fetch_social_handles_hit net s4 sp Hs4).
  (* contact *)
  rewrite (bind_ok (_fetch_contact_info net) _ s4 (contact_of sp)
             (fetch_contact_info_fails net s4 sp Hs4 Hf4)).
  pose proof (framed_fetch_contact_info net s4) as E5.
  set (s5 := (_fetch_contact_info net s4).2) in *.
  pose proof (ext_soup _ _ E5 _ Hs4) as Hs5.
  pose proof (all_fail_ext net _ _ Hf4 E5) as Hf5.
  (* about *)
  rewrite (bind_ok (_fetch_about net) _ s5 None
             (text_page_loop_fails net about_paths s5 about_paths_candidates Hf5)).
  pose proof (framed_fetch_about net s5) as E6.
  set (s6 := (_fetch_about net s5).2) in *.
  pose proof (ext_soup _ _ E6 _ Hs5) as Hs6.
  (* links *)
  assert (base_url s6 = base_url s) as Hb6.
  { rewrite (ext_base_url _ _ E6), (ext_base_url _ _ E5), (ext_base_url _ _ E4),
      (ext_base_url _ _ E3), (ext_base_url _ _ E2). done. }
  rewrite <- Hb6 in Hlinks.
  rewrite bind_eq, (fetch_important_links_hit net s6 sp v_links Hs6 Hlinks).
  done.
Qed.

End BareRun.

(** C1, as the scraper has it.  When the homepage answers 200 with a page
    the parser accepts and that carries a signature, every later fetch
    fails, and resolving the homepage's matched links does not raise,
    [get_brand_context] returns a document: products, hero products and FAQs
    are empty, the policies and the about text are absent; socials, contact
    and links are what the homepage itself gives, which need not be empty.
    The two lists of the contact hold the elements of the sets collected on
    the homepage, in some order. *)
Theorem bare_store_document `{L : Lib} (net : network) (s : scraper)
    (content : string) (sp : Bs4.node) (v_links : Links) :
  net (requested s) (base_url s) = Response content 200 →
  BeautifulSoup content = Some sp →
  Py.any (shopify_indicators content sp) = true →
  all_fail_after net (base_url s) (requested s ++ [base_url s]) →
  links_of (base_url s) sp = Some v_links →
  ∃ doc,
    (get_brand_context net s).1 = Ok doc
    ∧ brand doc = netloc (base_url s)
    ∧ products doc = [] ∧ hero_products doc = [] ∧ faqs doc = []
    ∧ policies doc = Policies_default ∧ about doc = None
    ∧ socials doc = socials_of sp
    ∧ emails (contact doc) ≡ₚ elements (emails_of sp)
    ∧ phones (contact doc) ≡ₚ elements (phones_of sp)
    ∧ links doc = v_links.
Proof.
  intros Hnet Hsp Hsig Hfail Hlinks. eexists. split.
  - rewrite get_brand_context_run, try_finally_close by apply run_body_opens.
    by apply (run_body_bare net s content sp v_links).
  - repeat split; apply list_of_set_perm.
Qed.

(** On the bare storefront every candidate is a 404. *)
Lemma bare_store_candidates l path url :
  path ∈ candidates → urljoin Demo.base path = Some url →
  Demo.bare_store l url = Demo.not_found.
Proof.
  intros Hp Hurl. unfold candidates in Hp.
  repeat (apply elem_of_cons in Hp as [->|Hp]; [by injection Hurl as <-|]).
  by apply elem_of_nil in Hp.
Qed.

Lemma bare_store_document_witness :
  ∃ doc,
    (get_brand_context Demo.bare_store (new_scraper Demo.base)).1 = Ok doc
    ∧ brand doc = netloc Demo.base
    ∧ products doc = [] ∧ hero_products doc = [] ∧ faqs doc = []
    ∧ policies doc = Policies_default ∧ about doc = None
    ∧ socials doc = socials_of Demo.home_soup
    ∧ emails (contact doc) ≡ₚ elements (emails_of Demo.home_soup)
    ∧ phones (contact doc) ≡ₚ elements (phones_of Demo.home_soup)
    ∧ links doc
      = mkLinks None (Some "https://shop.example/pages/contact") None None None.
Proof.
  apply (bare_store_document Demo.bare_store (new_scraper Demo.base) Demo.home_html
           Demo.home_soup
           (mkLinks None (Some "https://shop.example/pages/contact") None None None)).
  - reflexivity.
  - reflexivity.
  - vm_compute. reflexivity.
  - intros l path url _ Hp Hurl.
    rewrite (bare_store_candidates l path url Hp Hurl). simpl. lia.
  - vm_compute. reflexivity.
Defined.

(** C1 as stated fails: the homepage answers 200 with a signature, every
    candidate is a 404, the run succeeds, and yet the document has a social
    handle, a contact address, a phone and a link, all read off the
    homepage. *)
Lemma bare_store_has_socials :
  Demo.bare_store [] Demo.base = Response Demo.home_html 200
  ∧ BeautifulSoup Demo.home_html = Some Demo.home_soup
  ∧ Py.any (shopify_indicators Demo.home_html Demo.home_soup) = true
  ∧ (∀ l path url,
       path ∈ candidates → urljoin Demo.base path = Some url →
       Demo.bare_store l url = Response "Not Found" 404)
  ∧ ∃ doc,
      (get_brand_context Demo.bare_store (new_scraper Demo.base)).1 = Ok doc
      ∧ products doc = []
      ∧ instagram (socials doc) = Some "@second"
      ∧ socials doc ≠ Socials_default
      ∧ emails (contact doc) = ["joe@shop.example"]
      ∧ phones (contact doc) = ["+12345-6789"]
      ∧ contact_us (links doc) = Some "https://shop.example/pages/contact".
Proof.
  split; [reflexivity|]. split; [reflexivity|]. split; [vm_compute; reflexivity|].
  split; [apply bare_store_candidates|].
  eexists. split; [vm_compute; reflexivity|].
  repeat split; try (vm_compute; reflexivity). discriminate.
Qed.

(** * Part III: further properties of the service *)

(** ** The homepage fetch and the session *)

(** X1. A homepage that answers with a status other than 200, or whose
    fetch raises an [aiohttp.ClientError], ends the run with
    [WebsiteNotFoundException] after that one request: no document, no
    further fetch. *)
Theorem unreachable_homepage_is_not_found `{L : Lib} (net : network) (s : scraper) :
  (∃ body status,
     net (requested s) (base_url s) = Response body status ∧ status ≠ 200%Z)
  ∨ (∃ msg, net (requested s) (base_url s) = ClientError msg) →
  ∃ detail,
    (get_brand_context net s).1 = Raise (WebsiteNotFoundException detail)
    ∧ requested (get_brand_context net s).2 = requested s ++ [base_url s].
Proof.
  intros H.
  assert (∃ detail,
            run_body net s
            = (Raise (WebsiteNotFoundException detail),
               log_request (base_url s) (opened s))) as [detail Hbody].
  { unfold run_body. rewrite bind_eq, check_is_shopify_run.
    destruct H as [(body & status & -> & Hst)|(msg & ->)]; [|by eexists].
    apply Z.eqb_neq in Hst. rewrite Hst. by eexists. }
  exists detail.
  rewrite get_brand_context_run, try_finally_close; rewrite Hbody; simpl.
  - by rewrite opened_requested.
  - apply opened_session.
Qed.

Lemma unreachable_homepage_is_not_found_witness :
  ∃ detail,
    (get_brand_context Demo.missing_site (new_scraper Demo.base)).1
    = Raise (WebsiteNotFoundException detail)
    ∧ requested (get_brand_context Demo.missing_site (new_scraper Demo.base)).2
      = [] ++ [Demo.base].
Proof.
  apply (unreachable_homepage_is_not_found Demo.missing_site (new_scraper Demo.base)).
  left. exists "Not Found", 404%Z. split; [reflexivity | lia].
Defined.

Section Sessions.
Context `{L : Lib} (net : network).

Lemma check_is_shopify_sessions s :
  opens (_check_is_shopify net s).2 = opens (opened s).
Proof.
  rewrite check_is_shopify_run.
  by destruct (net (requested s) (base_url s)) as [content status|msg|e];
    [destruct (status =? 200)%Z; [destruct (BeautifulSoup content)|]|..].
Qed.

Lemma run_body_sessions s : opens (run_body net s).2 = opens (opened s).
Proof.
  unfold run_body. rewrite bind_eq.
  pose proof (check_is_shopify_opens net s) as [Hs _].
  pose proof (check_is_shopify_sessions s) as Ho.
  destruct (_check_is_shopify net s) as [[ok|e] s1]; simpl in *; [|done].
  destruct ok; simpl; [|done].
  rewrite bind_eq. unfold self.
  pose proof (framed_extractors net (netloc (base_url s1)) s1) as [_ _ _ O _ _].
  by rewrite O.
Qed.

End Sessions.

(** X2. A run creates one session, however many requests it makes, and
    none when the scraper has one already: [_init_session] creates a session
    only when there is none, so that a second call creates nothing, and
    every fetch of [get_brand_context] goes through the session of the
    first.  [_close_session] closes the session only when there is one: a
    second call closes nothing. *)
Theorem session_calls_are_idempotent `{L : Lib} (net : network) (s : scraper) :
  (_init_session ;;; _init_session) s = _init_session s
  ∧ opens (_init_session s).2 = (if session s then opens s else S (opens s))
  ∧ opens (get_brand_context net s).2
    = (if session s then opens s else S (opens s))
  ∧ (_close_session ;;; _close_session) s = _close_session s
  ∧ closes ((_close_session ;;; _close_session) s).2
    = (if session s then S (closes s) else closes s).
Proof.
  split; [|split; [|split; [|split]]].
  - unfold _init_session, bind, self, update, ret.
    by destruct (session s) eqn:E; simpl; rewrite ?E.
  - unfold _init_session, bind, self, update, ret. by destruct (session s).
  - rewrite get_brand_context_run, try_finally_close by apply run_body_opens.
    simpl. by rewrite run_body_sessions, opened_opens.
  - unfold _close_session, bind, self, update, ret.
    by destruct (session s) eqn:E; simpl; rewrite ?E.
  - unfold _close_session, bind, self, update, ret.
    by destruct (session s) eqn:E; simpl; rewrite ?E.
Qed.

(** Twenty-nine requests through one session. *)
Example sessions_of_a_run :
  opens (get_brand_context Demo.bare_store (new_scraper Demo.base)).2 = 1%nat
  ∧ length (requested (get_brand_context Demo.bare_store (new_scraper Demo.base)).2)
    = 29%nat.
Proof. vm_compute. done. Qed.

(** ** The cached homepage *)

Section Homepage.
Context `{L : Lib} (net : network).

Lemma homepage_soup_miss s content status :
  soup s = None →
  net (requested s) (base_url s) = Response content status →
  homepage_soup net s
  = match BeautifulSoup content with
    | Some sp => (Ok sp, set_soup sp (log_request (base_url s) (opened s)))
    | None =>
        (Raise (OtherException "ParserRejectedMarkup"),
         log_request (base_url s) (opened s))
    end.
Proof.
  intros Hsoup Hnet. unfold homepage_soup. rewrite bind_eq. unfold self.
  rewrite Hsoup, bind_eq, fetch_url_run, session_get_run, opened_requested, Hnet.
  rewrite bind_eq. simpl. by destruct (BeautifulSoup content).
Qed.

End Homepage.

(** X3. With the homepage parsed, the hero, socials and links extractors
    make no request and leave the scraper as it is. *)
Theorem cached_homepage_is_not_refetched `{L : Lib} (net : network) (s : scraper)
    (sp : Bs4.node) (all_products : list Product) :
  soup s = Some sp →
  (_fetch_hero_products net all_products s).2 = s
  ∧ (_fetch_social_handles net s).2 = s
  ∧ (_fetch_important_links net s).2 = s.
Proof.
  intros H. repeat split.
  - unfold _fetch_hero_products. by rewrite bind_eq, (homepage_soup_hit net _ _ H).
  - by rewrite (fetch_social_handles_hit net _ _ H).
  - unfold _fetch_important_links.
    rewrite bind_eq, (homepage_soup_hit net _ _ H), bind_eq. unfold self.
    by destruct (links_of (base_url s) sp).
Qed.

Lemma cached_homepage_is_not_refetched_witness :
  (_fetch_hero_products Demo.bare_store Demo.catalog Demo.at_home).2 = Demo.at_home
  ∧ (_fetch_social_handles Demo.bare_store Demo.at_home).2 = Demo.at_home
  ∧ (_fetch_important_links Demo.bare_store Demo.at_home).2 = Demo.at_home.
Proof.
  apply (cached_homepage_is_not_refetched Demo.bare_store Demo.at_home
           Demo.home_soup Demo.catalog).
  reflexivity.
Defined.

(** X4. Without a parsed homepage, an extractor fetches the homepage and
    parses the body it gets whatever the status: the page of a 404 or a
    500, when the parser accepts it, becomes the cached homepage, and the
    socials are read from it. *)
Theorem refetched_homepage_ignores_status `{L : Lib} (net : network) (s : scraper)
    (content : string) (status : Z) (sp : Bs4.node) :
  soup s = None →
  net (requested s) (base_url s) = Response content status →
  BeautifulSoup content = Some sp →
  (_fetch_social_handles net s).1 = Ok (socials_of sp)
  ∧ soup (_fetch_social_handles net s).2 = Some sp
  ∧ requested (_fetch_social_handles net s).2 = requested s ++ [base_url s].
Proof.
  intros Hsoup Hnet Hsp. unfold _fetch_social_handles.
  rewrite bind_eq, (homepage_soup_miss net _ _ _ Hsoup Hnet), Hsp. simpl.
  by rewrite opened_requested.
Qed.

Lemma refetched_homepage_ignores_status_witness :
  (_fetch_social_handles Demo.missing_site (new_scraper Demo.base)).1
  = Ok (socials_of (Demo.document [Bs4.Text "Not Found"]))
  ∧ soup (_fetch_social_handles Demo.missing_site (new_scraper Demo.base)).2
    = Some (Demo.document [Bs4.Text "Not Found"])
  ∧ requested (_fetch_social_handles Demo.missing_site (new_scraper Demo.base)).2
    = [] ++ [Demo.base].
Proof.
  apply (refetched_homepage_ignores_status Demo.missing_site (new_scraper Demo.base)
           "Not Found" 404); reflexivity.
Defined.

(** When the parser rejects the body, its exception leaves the extractor
    and no homepage is cached. *)
Example refetched_homepage_rejected :
  _fetch_social_handles Demo.odd_site (new_scraper Demo.base)
  = (Raise (OtherException "ParserRejectedMarkup"),
     mkScraper Demo.base true None false [Demo.base] 1 0).
Proof. vm_compute. reflexivity. Qed.

(** ** What the candidate loops swallow *)

Section Swallow.
Context `{L : Lib} (net : network).

Lemma text_page_loop_raises paths s e :
  (text_page_loop net paths s).1 = Raise e → is_Exception e = false.
Proof.
  revert s. induction paths as [|path rest IH]; intros s; [done|].
  rewrite text_page_loop_cons.
  destruct (fetch_path net path s) as [[[content status]|e'] s1].
  - destruct (status =? 200)%Z; [|apply IH].
    destruct (BeautifulSoup content ≫= text_block); [done | apply IH].
  - destruct (is_Exception e') eqn:E; [apply IH|]. by intros [= <-].
Qed.

Lemma policies_loop_raises types policies s e :
  (policies_loop net types policies s).1 = Raise e → is_Exception e = false.
Proof.
  revert policies s. induction types as [|k rest IH]; intros policies s; [done|].
  rewrite policies_loop_cons.
  pose proof (text_page_loop_raises (policy_paths k) s) as H.
  destruct (text_page_loop net (policy_paths k) s) as [[[t|]|e'] s1];
    [apply IH | apply IH |]. simpl in *. intros [= <-]. by apply H.
Qed.

Lemma faqs_loop_raises paths faqs s e :
  (faqs_loop net paths faqs s).1 = Raise e → is_Exception e = false.
Proof.
  revert faqs s. induction paths as [|path rest IH]; intros faqs s; [done|].
  rewrite faqs_loop_cons.
  destruct (fetch_path net path s) as [[[content status]|e'] s1].
  - destruct (status =? 200)%Z; [|apply IH].
    destruct (BeautifulSoup content) as [sp|]; [|apply IH]. cbv zeta.
    destruct (bool_decide _); [apply IH | done].
  - destruct (is_Exception e') eqn:E; [apply IH|]. by intros [= <-].
Qed.

Lemma products_loop_raises endpoints products s e :
  (products_loop net endpoints products s).1 = Raise e → is_Exception e = false.
Proof.
  revert products s.
  induction endpoints as [|endpoint rest IH]; intros products s; [done|].
  rewrite products_loop_cons.
  destruct (fetch_path net endpoint s) as [[[content status]|e'] s1].
  - destruct (status =? 200)%Z; [|apply IH].
    destruct (feed_records content) as [items|]; [|apply IH].
    destruct (append_products (base_url s) items products) as [products' [|]];
      [done | apply IH].
  - destruct (is_Exception e') eqn:E; [apply IH|]. by intros [= <-].
Qed.

Lemma contact_page_loop_raises paths s e :
  (contact_page_loop net paths s).1 = Raise e → is_Exception e = false.
Proof.
  revert s. induction paths as [|path rest IH]; intros s; [done|].
  rewrite contact_page_loop_cons.
  destruct (fetch_path net path s) as [[[content status]|e'] s1].
  - destruct (status =? 200)%Z; [|apply IH].
    destruct (BeautifulSoup content); [done | apply IH].
  - destruct (is_Exception e') eqn:E; [apply IH|]. by intros [= <-].
Qed.

End Swallow.

(** X5. The candidate loops swallow every [Exception]: whatever the
    network does, an exception that leaves [_fetch_products],
    [_fetch_policies], [_fetch_faqs] or [_fetch_about] is not an instance of
    [Exception] (a cancellation, say); a failed connection, a malformed
    document or a record that does not validate never leaves them. *)
Theorem extractors_swallow_exceptions `{L : Lib} (net : network) (s : scraper)
    (e : exn) :
  (_fetch_products net s).1 = Raise e
  ∨ (_fetch_policies net s).1 = Raise e
  ∨ (_fetch_faqs net s).1 = Raise e
  ∨ (_fetch_about net s).1 = Raise e →
  is_Exception e = false.
Proof.
  intros [H|[H|[H|H]]].
  - by eapply products_loop_raises.
  - by eapply policies_loop_raises.
  - by eapply faqs_loop_raises.
  - by eapply text_page_loop_raises.
Qed.

Lemma extractors_swallow_exceptions_witness :
  is_Exception (BaseExceptionOnly "CancelledError") = false.
Proof.
  apply (extractors_swallow_exceptions Shop.cancelled_site (new_scraper Demo.base)).
  left. reflexivity.
Defined.

(** ** The contact page *)

Section ContactPage.
Context `{L : Lib} (net : network).

Lemma contact_page_loop_app pre rest s :
  contact_page_loop net (pre ++ rest) s =
  match contact_page_loop net pre s with
  | (Ok None, s1) => contact_page_loop net rest s1
  | r => r
  end.
Proof.
  revert s. induction pre as [|path pre IH]; intros s; [done|].
  rewrite <- app_comm_cons, !contact_page_loop_cons.
  destruct (fetch_path net path s) as [[[content status]|e] s1].
  - destruct (status =? 200)%Z; [|apply IH].
    destruct (BeautifulSoup content); [done | apply IH].
  - destruct (is_Exception e); [apply IH | done].
Qed.

Lemma contact_page_loop_hit pre path post s s1 url content page :
  contact_page_loop net pre s = (Ok None, s1) →
  urljoin (base_url s1) path = Some url →
  net (requested s1) url = Response content 200 →
  BeautifulSoup content = Some page →
  contact_page_loop net (pre ++ path :: post) s
  = (Ok (Some page), log_request url (opened s1)).
Proof.
  intros Hpre Hurl Hnet Hpage.
  rewrite contact_page_loop_app, Hpre, contact_page_loop_cons.
  rewrite (fetch_path_hit net _ _ _ _ Hurl Hnet).
  change (200 =? 200)%Z with true. cbv iota. by rewrite Hpage.
Qed.

End ContactPage.

(** X6. The contact extractor takes the first contact path that answers
    200 with a page the parser accepts: the addresses and phones are the
    elements, in some order, of the sets collected on that page alone (the
    homepage's are not added), and no later contact path is fetched. *)
Theorem contact_page_is_preferred `{L : Lib} (net : network)
    (pre post : list string) (path url content : string) (s s1 : scraper)
    (sp page : Bs4.node) :
  soup s = Some sp →
  contact_paths = pre ++ path :: post →
  contact_page_loop net pre s = (Ok None, s1) →
  urljoin (base_url s1) path = Some url →
  net (requested s1) url = Response content 200 →
  BeautifulSoup content = Some page →
  ∃ v_contact,
    (_fetch_contact_info net s).1 = Ok v_contact
    ∧ emails v_contact ≡ₚ elements (emails_of page)
    ∧ phones v_contact ≡ₚ elements (phones_of page)
    ∧ requested (_fetch_contact_info net s).2 = requested s1 ++ [url].
Proof.
  intros Hsoup Hpaths Hpre Hurl Hnet Hpage. unfold _fetch_contact_info.
  rewrite bind_eq, (homepage_soup_hit net _ _ Hsoup), bind_eq, Hpaths.
  rewrite (contact_page_loop_hit net _ _ _ _ _ _ _ _ Hpre Hurl Hnet Hpage). simpl.
  eexists. split; [done|]. rewrite opened_requested.
  repeat split; apply list_of_set_perm.
Qed.

(** The first contact path answers 200 with a page the parser rejects and
    is passed over; the second is taken, and the address and the phone of
    the homepage are not in the result. *)
Lemma contact_page_is_preferred_witness :
  ∃ v_contact,
    (_fetch_contact_info (L := Shop.lib) Shop.contact_late Demo.at_home).1
    = Ok v_contact
    ∧ emails v_contact ≡ₚ elements (emails_of Shop.contact_soup)
    ∧ phones v_contact ≡ₚ elements (phones_of Shop.contact_soup)
    ∧ requested (_fetch_contact_info (L := Shop.lib) Shop.contact_late Demo.at_home).2
      = [Demo.base; "https://shop.example/contact"]
        ++ ["https://shop.example/pages/contact"].
Proof.
  apply (contact_page_is_preferred (L := Shop.lib) Shop.contact_late
           ["/contact"] ["/pages/contact-us"] "/pages/contact"
           "https://shop.example/pages/contact" Shop.contact_html
           Demo.at_home
           (mkScraper Demo.base true (Some Demo.home_soup) true
              [Demo.base; "https://shop.example/contact"] 1 0)
           Demo.home_soup Shop.contact_soup);
    reflexivity.
Defined.

Example contact_of_the_second_page :
  elements (emails_of Shop.contact_soup) = ["sales@shop.example"; "help@shop.example"]
  ∧ elements (phones_of Shop.contact_soup) = ["911"; "(555) 123-4567"]
  ∧ "joe@shop.example" ∈ emails_of Demo.home_soup.
Proof.
  split; [vm_compute; reflexivity|]. split; [vm_compute; reflexivity|].
  apply elem_of_elements. vm_compute. by left.
Qed.

(** ** A link that does not resolve *)

Section BrokenLink.
Context `{L : Lib} (net : network).

Lemma fetch_important_links_run s sp :
  soup s = Some sp →
  _fetch_important_links net s
  = value "ValueError" (links_of (base_url s) sp) s.
Proof.
  intros H. unfold _fetch_important_links.
  by rewrite bind_eq, (homepage_soup_hit net _ _ H), bind_eq.
Qed.

Lemma run_body_broken_link s content sp :
  net (requested s) (base_url s) = Response content 200 →
  BeautifulSoup content = Some sp →
  Py.any (shopify_indicators content sp) = true →
  all_fail_after net (base_url s) (requested s ++ [base_url s]) →
  links_of (base_url s) sp = None →
  (run_body net s).1 = Raise (OtherException "ValueError").
Proof.
  intros Hnet Hsp Hsig Hfail Hlinks.
  unfold run_body. rewrite bind_eq, check_is_shopify_run, Hnet, Hsp.
  change (200 =? 200)%Z with true. cbv iota. rewrite Hsig. cbn [negb].
  rewrite bind_eq. unfold self.
  set (s1 := checked content sp s).
  assert (base_url s1 = base_url s) as Hb1 by apply opened_base_url.
  assert (soup s1 = Some sp) as Hs1 by done.
  assert (all_fail_after net (base_url s1) (requested s1)) as Hf1.
  { rewrite Hb1. subst s1. unfold checked. simpl. by rewrite opened_requested. }
  rewrite Hb1.
  rewrite (bind_ok (_fetch_products net) _ s1 []
             (products_loop_fails net product_endpoints [] s1
                product_endpoints_candidates Hf1)).
  pose proof (framed_fetch_products net s1) as E2.
  set (s2 := (_fetch_products net s1).2) in *.
  pose proof (ext_soup _ _ E2 _ Hs1) as Hs2.
  pose proof (all_fail_ext net _ _ Hf1 E2) as Hf2.
  rewrite bind_eq, (fetch_hero_products_no_catalog net s2 sp Hs2).
  rewrite (bind_ok (_fetch_policies net) _ s2 Policies_default
             (policies_loop_fails net policy_types Policies_default s2 Hf2)).
  pose proof (framed_fetch_policies net s2) as E3.
  set (s3 := (_fetch_policies net s2).2) in *.
  pose proof (ext_soup _ _ E3 _ Hs2) as Hs3.
  pose proof (all_fail_ext net _ _ Hf2 E3) as Hf3.
  rewrite (bind_ok (_fetch_faqs net) _ s3 []
             (faqs_loop_fails net faq_paths [] s3 faq_paths_candidates Hf3)).
  pose proof (framed_fetch_faqs net s3) as E4.
  set (s4 := (_fetch_faqs net s3).2) in *.
  pose proof (ext_soup _ _ E4 _ Hs3) as Hs4.
  pose proof (all_fail_ext net _ _ Hf3 E4) as Hf4.
  rewrite bind_eq, (fetch_social_handles_hit net s4 sp Hs4).
  rewrite (bind_ok (_fetch_contact_info net) _ s4 (contact_of sp)
             (fetch_contact_info_fails net s4 sp Hs4 Hf4)).
  pose proof (framed_fetch_contact_info net s4) as E5.
  set (s5 := (_fetch_contact_info net s4).2) in *.
  pose proof (ext_soup _ _ E5 _ Hs4) as Hs5.
  pose proof (all_fail_ext net _ _ Hf4 E5) as Hf5.
  rewrite (bind_ok (_fetch_about net) _ s5 None
             (text_page_loop_fails net about_paths s5 about_paths_candidates Hf5)).
  pose proof (framed_fetch_about net s5) as E6.
  set (s6 := (_fetch_about net s5).2) in *.
  pose proof (ext_soup _ _ E6 _ Hs5) as Hs6.
  assert (base_url s6 = base_url s) as Hb6.
  { rewrite (ext_base_url _ _ E6), (ext_base_url _ _ E5), (ext_base_url _ _ E4),
      (ext_base_url _ _ E3), (ext_base_url _ _ E2). done. }
  rewrite <- Hb6 in Hlinks.
  by rewrite bind_eq, (fetch_important_links_run s6 sp Hs6), Hlinks.
Qed.

End BrokenLink.

(** X7. The links extractor is the one extractor without a handler: when
    the homepage, parsed into [sp], has a matching anchor whose href
    [urljoin] rejects, the run, with everything else extracted, ends with
    that [ValueError] and returns no document. *)
Theorem broken_link_aborts_the_run `{L : Lib} (net : network) (s : scraper)
    (content : string) (sp : Bs4.node) :
  net (requested s) (base_url s) = Response content 200 →
  BeautifulSoup content = Some sp →
  Py.any (shopify_indicators content sp) = true →
  all_fail_after net (base_url s) (requested s ++ [base_url s]) →
  links_of (base_url s) sp = None →
  (get_brand_context net s).1 = Raise (OtherException "ValueError").
Proof.
  intros Hnet Hsp Hsig Hfail Hlinks.
  rewrite get_brand_context_run, try_finally_close by apply run_body_opens.
  by apply (run_body_broken_link net s content sp).
Qed.

Lemma broken_store_candidates l path url :
  path ∈ candidates → urljoin (Lib := Shop.lib) Demo.base path = Some url →
  Shop.broken_store l url = Demo.not_found.
Proof.
  intros Hp Hurl. unfold candidates in Hp.
  repeat (apply elem_of_cons in Hp as [->|Hp]; [by injection Hurl as <-|]).
  by apply elem_of_nil in Hp.
Qed.

Lemma broken_link_aborts_the_run_witness :
  (get_brand_context (L := Shop.lib) Shop.broken_store (new_scraper Demo.base)).1
  = Raise (OtherException "ValueError").
Proof.
  apply (broken_link_aborts_the_run (L := Shop.lib) Shop.broken_store
           (new_scraper Demo.base) Shop.broken_html Shop.broken_soup).
  - reflexivity.
  - reflexivity.
  - vm_compute. reflexivity.
  - intros l path url _ Hp Hurl.
    rewrite (broken_store_candidates l path url Hp Hurl). simpl. lia.
  - vm_compute. reflexivity.
Defined.

(** ** Product records *)

(** X8. The price of a record is the [price] of its first variant: absent
    when [variants] is missing, [null] or empty, or when the first variant
    has no [price]; the lookup raises when the first variant is a number.
    The image is the [src] of the first of [images] in the same way. *)
Theorem price_and_image_of_a_record (kv : list (string * Json.t)) :
  match Json.lookup "variants" kv with
  | None | Some Json.Null | Some (Json.Arr []) =>
      _get_product_price (Json.Obj kv) = Some Json.Null
  | Some (Json.Arr (Json.Obj variant :: _)) =>
      _get_product_price (Json.Obj kv)
      = Some (default Json.Null (Json.lookup "price" variant))
  | Some (Json.Arr (Json.Int _ :: _)) => _get_product_price (Json.Obj kv) = None
  | _ => True
  end
  ∧ match Json.lookup "images" kv with
    | None | Some Json.Null | Some (Json.Arr []) =>
        _get_product_image (Json.Obj kv) = Some Json.Null
    | Some (Json.Arr (Json.Obj image :: _)) =>
        _get_product_image (Json.Obj kv)
        = Some (default Json.Null (Json.lookup "src" image))
    | Some (Json.Arr (Json.Int _ :: _)) => _get_product_image (Json.Obj kv) = None
    | _ => True
    end.
Proof.
  split.
  - unfold _get_product_price. cbn [Json.contains Json.item].
    destruct (Json.lookup "variants" kv) as [[| | | | |[|[| | | | | |variant] vs]|]|];
      try done.
    cbn. by destruct (Json.lookup "price" variant).
  - unfold _get_product_image. cbn [Json.contains Json.item].
    destruct (Json.lookup "images" kv) as [[| | | | |[|[| | | | | |image] vs]|]|];
      try done.
    cbn. by destruct (Json.lookup "src" image).
Qed.

Section Split.

Lemma text_chars s : Py.text (Py.chars s) = s.
Proof. apply String.string_of_list_ascii_of_string. Qed.

Lemma text_app a b : Py.text (a ++ b) = Py.text a +:+ Py.text b.
Proof. induction a as [|c a IH]; simpl; [done | by rewrite IH]. Qed.

Lemma split_go_skip sep cur pre rest :
  Py.split_go sep cur (length pre) (pre ++ rest) = Py.split_go sep cur 0 rest.
Proof. induction pre as [|c pre IH]; [done | apply IH]. Qed.

Lemma split_go_nonempty sep cur k l : Py.split_go sep cur k l ≠ [].
Proof.
  revert cur k. induction l as [|c l IH]; intros cur k; [done|].
  cbn [Py.split_go]. destruct k; [|apply IH].
  destruct (Py.starts_with sep (c :: l)); [done | apply IH].
Qed.

Lemma join_cons sep x pieces :
  pieces ≠ [] → Py.join sep (x :: pieces) = x +:+ sep +:+ Py.join sep pieces.
Proof. by destruct pieces. Qed.

(** Joining the pieces with the separator gives the text back. *)
Lemma join_split_go sep n l cur :
  sep ≠ [] → (length l ≤ n)%nat →
  Py.join (Py.text sep) (Py.split_go sep cur 0 l) = Py.text (rev cur ++ l).
Proof.
  intros Hsep. revert l cur. induction n as [|n IH]; intros l cur Hn.
  - destruct l; [|simpl in Hn; lia]. by rewrite app_nil_r.
  - destruct l as [|c l]; [by rewrite app_nil_r|].
    cbn [Py.split_go]. destruct (Py.starts_with sep (c :: l)) eqn:E.
    + apply starts_with_spec in E.
      destruct sep as [|x sep']; [done|]. cbn [length drop] in E.
      injection E as -> El. cbn [length].
      replace (S (length sep') - 1)%nat with (length sep') by lia.
      set (rest := drop (length sep') l) in *.
      rewrite El, split_go_skip.
      rewrite join_cons by apply split_go_nonempty.
      rewrite IH.
      * change (x :: sep' ++ rest) with ((x :: sep') ++ rest).
        by rewrite !text_app.
      * subst rest. rewrite length_drop. simpl in Hn. lia.
    + rewrite IH by (simpl in Hn; lia). cbn [rev].
      by rewrite <- app_assoc.
Qed.

Lemma join_split sep s :
  sep ≠ "" → Py.join sep (Py.split sep s) = s.
Proof.
  intros Hsep. unfold Py.split.
  rewrite <- (text_chars sep) at 1.
  rewrite (join_split_go _ (length (Py.chars s))); [apply text_chars| |done].
  intros E. apply Hsep. by rewrite <- (text_chars sep), E.
Qed.

Lemma starts_with_app sep w l :
  Py.starts_with sep w = true → Py.starts_with sep (w ++ l) = true.
Proof.
  revert w. induction sep as [|a sep IH]; intros [|b w]; simpl; try done.
  intros [-> H]%andb_true_iff. by rewrite IH.
Qed.

(** No occurrence starts at any position of [w]. *)
Lemma occurs_false sep w :
  sep ≠ [] →
  (∀ i, (i < length w)%nat → Py.starts_with sep (drop i w) = false) →
  Py.occurs sep w = false.
Proof.
  intros Hsep. induction w as [|c w IH]; intros H.
  - by destruct sep.
  - cbn [Py.occurs]. pose proof (H 0%nat) as H0. cbn [drop] in H0.
    rewrite H0 by (simpl; lia). simpl.
    apply IH. intros i Hi. apply (H (S i)). simpl. lia.
Qed.

(** The pieces hold no occurrence of the separator: [cur] has been read
    with no occurrence starting in it. *)
Lemma split_go_free sep l cur skip :
  sep ≠ [] →
  (skip = 0%nat →
   ∀ i, (i < length cur)%nat → Py.starts_with sep (drop i (rev cur ++ l)) = false) →
  (skip ≠ 0%nat → cur = []) →
  Forall (λ piece, Py.occurs sep (Py.chars piece) = false)
         (Py.split_go sep cur skip l).
Proof.
  intros Hsep. revert cur skip.
  assert (∀ cur l',
            (∀ i, (i < length cur)%nat →
                  Py.starts_with sep (drop i (rev cur ++ l')) = false) →
            Py.occurs sep (Py.chars (Py.text (rev cur))) = false) as Hpiece.
  { intros cur l' H. rewrite chars_text. apply occurs_false; [done|].
    intros i Hi. rewrite length_rev in Hi.
    destruct (Py.starts_with sep (drop i (rev cur))) eqn:E; [|done].
    apply (starts_with_app _ _ l') in E.
    rewrite <- drop_app_le in E by (rewrite length_rev; lia).
    by rewrite (H i Hi) in E. }
  induction l as [|c t IH]; intros cur skip Hfree Hcur.
  - cbn [Py.split_go]. apply Forall_singleton.
    destruct skip as [|k].
    + by apply (Hpiece cur []), Hfree.
    + rewrite (Hcur (Nat.neq_succ_0 k)). by destruct sep.
  - cbn [Py.split_go]. destruct skip as [|k].
    + destruct (Py.starts_with sep (c :: t)) eqn:E.
      * constructor; [by apply (Hpiece cur (c :: t)), Hfree|].
        apply IH; [|done]. intros _ i Hi. simpl in Hi. lia.
      * apply IH; [|done]. intros _ i Hi. simpl in Hi.
        cbn [rev]. rewrite <- app_assoc. cbn [app].
        destruct (decide (i < length cur)%nat) as [Hlt|Hge].
        -- by apply Hfree.
        -- assert (i = length (rev cur)) as -> by (rewrite length_rev; lia).
           by rewrite drop_app_length.
    + apply IH; [|intros _; by apply Hcur]. intros _ i Hi.
      rewrite (Hcur (Nat.neq_succ_0 k)) in Hi. simpl in Hi. lia.
Qed.

Lemma split_free sep s :
  sep ≠ "" →
  Forall (λ piece, Py.contains sep piece = false) (Py.split sep s).
Proof.
  intros Hsep. unfold Py.split, Py.contains. apply split_go_free.
  - by destruct sep.
  - intros _ i Hi. simpl in Hi. lia.
  - done.
Qed.

End Split.

(** X9. The tags of a record: a list is passed on as it is; a string is
    split on comma-and-space: the pieces hold no comma-and-space and,
    joined with comma-and-space, give the string back; a record without
    [tags] gets the one tag ['']; any other value ([null], a number) makes
    the conversion raise. *)
Theorem tags_of_a_record (kv : list (string * Json.t)) :
  match Json.lookup "tags" kv with
  | Some (Json.Arr l) => product_tags (Json.Obj kv) = Some (Json.Arr l)
  | Some (Json.Str s) =>
      ∃ pieces,
        product_tags (Json.Obj kv) = Some (Json.Arr (Json.Str <$> pieces))
        ∧ Py.join ", " pieces = s
        ∧ Forall (λ piece, Py.contains ", " piece = false) pieces
  | None => product_tags (Json.Obj kv) = Some (Json.Arr [Json.Str ""])
  | Some _ => product_tags (Json.Obj kv) = None
  end.
Proof.
  unfold product_tags. cbn [Json.get].
  destruct (Json.lookup "tags" kv) as [[| | | |s| |]|]; try done.
  cbn. exists (Py.split ", " s). split; [done|].
  split; [by apply join_split | by apply split_free].
Qed.

Example tags_of_a_string :
  product_tags (Json.Obj [("tags", Json.Str "summer, sale,new")])
  = Some (Json.Arr [Json.Str "summer"; Json.Str "sale,new"]).
Proof. vm_compute. reflexivity. Qed.

Section Kept.
Context `{L : Lib} (net : network).

Lemma append_products_prefix base items products :
  products `prefix_of` (append_products base items products).1.
Proof.
  revert products. induction items as [|pd rest IH]; intros products; [done|].
  rewrite append_products_cons.
  destruct (new_product base pd) as [p|]; [|done].
  etrans; [|apply IH]. by apply prefix_app_r.
Qed.

Lemma products_loop_prefix endpoints products s r :
  (products_loop net endpoints products s).1 = Ok r → products `prefix_of` r.
Proof.
  revert products s.
  induction endpoints as [|endpoint rest IH]; intros products s.
  - by intros [= <-].
  - rewrite products_loop_cons.
    destruct (fetch_path net endpoint s) as [[[content status]|e] s1].
    + destruct (status =? 200)%Z; [|apply IH].
      destruct (feed_records content) as [items|]; [|apply IH].
      pose proof (append_products_prefix (base_url s) items products) as Hp.
      destruct (append_products (base_url s) items products) as [products' [|]];
        simpl in Hp.
      * by intros [= <-].
      * intros H. etrans; [exact Hp | by eapply IH].
    + destruct (is_Exception e); [apply IH | done].
Qed.

End Kept.

(** X10. Products once appended are never dropped or reordered: whatever
    the endpoints still to be tried answer, the list the loop of
    [_fetch_products] returns starts with the products it had collected. *)
Theorem collected_products_are_kept `{L : Lib} (net : network)
    (endpoints : list string) (products r : list Product) (s : scraper) :
  (products_loop net endpoints products s).1 = Ok r →
  products `prefix_of` r.
Proof. apply products_loop_prefix. Qed.

Lemma collected_products_are_kept_witness :
  [Demo.product "9" "Belt" "belt"]
    `prefix_of` ([Demo.product "9" "Belt" "belt"] ++ Demo.catalog).
Proof.
  apply (collected_products_are_kept (Demo.feed_store "feed:null-tags" "feed:three")
           product_endpoints
           [Demo.product "9" "Belt" "belt"]
           ([Demo.product "9" "Belt" "belt"] ++ Demo.catalog)
           (new_scraper Demo.base)).
  vm_compute. reflexivity.
Defined.

(** ** Hero products *)

Section Distinct.
Context `{L : Lib} (net : network).

Lemma hero_loop_distinct all_products product_links hero_products product_handles :
  NoDup (handle <$> hero_products) →
  (∀ p, p ∈ hero_products → ∃ h, handle p = Some h ∧ h ∈ product_handles) →
  NoDup (handle <$> hero_loop all_products product_links hero_products product_handles).
Proof.
  revert hero_products product_handles.
  induction product_links as [|link rest IH]; intros hero handles Hnd Hin; [done|].
  rewrite hero_loop_cons. cbv zeta.
  set (h := handle_of_href (Bs4.get "href" link)).
  destruct (negb (String.eqb h "") && bool_decide (h ∉ handles)) eqn:E.
  - apply andb_true_iff in E as [_ Hnew%bool_decide_eq_true_1].
    destruct (matching_product all_products h) as [p|] eqn:Ep.
    + apply matching_product_spec in Ep as [_ Hp]. apply IH.
      * rewrite fmap_app. apply NoDup_app. split; [done|]. split.
        -- intros x Hx [->|[]%elem_of_nil]%elem_of_cons.
           rewrite Hp in Hx.
           apply list_elem_of_fmap in Hx as (q & Hq & Hqin).
           destruct (Hin q Hqin) as (h' & Hh' & Hh'in). congruence.
        -- apply NoDup_singleton.
      * intros q [Hq| ->%list_elem_of_singleton]%elem_of_app.
        -- destruct (Hin q Hq) as (h' & ? & ?). exists h'. split; [done|set_solver].
        -- exists h. split; [done | set_solver].
    + apply IH; [done|]. intros q Hq.
      destruct (Hin q Hq) as (h' & ? & ?). exists h'. split; [done|set_solver].
  - by apply IH.
Qed.

End Distinct.

(** X11. No handle comes twice among the hero products, however often the
    homepage links to a product: the handles of the products returned are
    pairwise distinct. *)
Theorem hero_products_are_distinct `{L : Lib} (net : network)
    (all_products : list Product) (s s' : scraper) (hero : list Product) :
  _fetch_hero_products net all_products s = (Ok hero, s') →
  NoDup (handle <$> hero).
Proof.
  unfold _fetch_hero_products. rewrite bind_eq.
  destruct (homepage_soup net s) as [[sp|e] s1]; [|done].
  unfold ret. intros [= <- <-].
  rewrite fmap_take. eapply sublist_NoDup; [|apply sublist_take].
  apply hero_loop_distinct; [constructor|]. by intros p Hp%elem_of_nil.
Qed.

Lemma hero_products_are_distinct_witness :
  NoDup (handle <$> [Demo.product "1" "Red shirt" "red-shirt";
                     Demo.product "3" "Hat" "hat"]).
Proof.
  apply (hero_products_are_distinct Demo.bare_store Demo.catalog
           Shop.at_twice Shop.at_twice).
  vm_compute. reflexivity.
Defined.

Section Handles.

Lemma elem_of_rev {A} (y : A) (l : list A) : y ∈ rev l ↔ y ∈ l.
Proof. rewrite !list_elem_of_In. symmetry. apply List.in_rev. Qed.

Lemma split_char_pieces c cur l :
  c ∉ cur →
  Forall (λ piece, c ∉ Py.chars piece) (Py.split_go [c] cur 0 l).
Proof.
  revert cur. induction l as [|x l IH]; intros cur Hcur.
  - constructor; [|constructor]. rewrite chars_text. by rewrite elem_of_rev.
  - cbn [Py.split_go Py.starts_with]. rewrite andb_true_r.
    destruct (Ascii.eqb c x) eqn:E.
    + constructor.
      * rewrite chars_text. by rewrite elem_of_rev.
      * apply IH. by intros ?%elem_of_nil.
    + apply IH. apply Ascii.eqb_neq in E.
      by intros [?|?]%elem_of_cons.
Qed.

Lemma split_go_chars sep cur k l :
  Forall (λ piece, ∀ y, y ∈ Py.chars piece → y ∈ cur ∨ y ∈ l)
         (Py.split_go sep cur k l).
Proof.
  revert cur k. induction l as [|x l IH]; intros cur k.
  - constructor; [|constructor]. intros y. rewrite chars_text, elem_of_rev. auto.
  - cbn [Py.split_go]. destruct k as [|k].
    + destruct (Py.starts_with sep (x :: l)).
      * constructor.
        -- intros y. rewrite chars_text, elem_of_rev. auto.
        -- eapply Forall_impl; [apply IH|]. intros piece H y Hy.
           destruct (H y Hy) as [[]%elem_of_nil|?]. right. by right.
      * eapply Forall_impl; [apply IH|]. intros piece H y Hy.
        destruct (H y Hy) as [[->|?]%elem_of_cons|?]; [right; by left|by left|].
        right. by right.
    + eapply Forall_impl; [apply IH|]. intros piece H y Hy.
      destruct (H y Hy) as [?|?]; [by left|]. right. by right.
Qed.

Lemma final_elem (l : list string) c :
  Forall (λ piece, c ∉ Py.chars piece) l → c ∉ Py.chars (Py.final l).
Proof.
  intros F. unfold Py.final. destruct (last l) as [x|] eqn:E; simpl.
  - apply last_Some_elem_of in E. by eapply Forall_forall in F.
  - by intros ?%elem_of_nil.
Qed.

End Handles.

(** X12. The handle read off a product link holds neither a slash nor a
    question mark: it is the last path segment, cut at the query string. *)
Theorem handle_has_no_separator (href : string) (c : ascii) :
  c ∈ Py.chars (handle_of_href href) → c ≠ "/"%char ∧ c ≠ "?"%char.
Proof.
  unfold handle_of_href.
  set (segment := Py.final (Py.split "/" href)).
  assert ("/"%char ∉ Py.chars segment) as Hseg.
  { apply final_elem. apply (split_char_pieces "/"). by intros ?%elem_of_nil. }
  assert ("?"%char ∉ @nil ascii) as Hnil by (by intros ?%elem_of_nil).
  pose proof (split_char_pieces "?" [] (Py.chars segment) Hnil) as Hq.
  pose proof (split_go_chars ["?"%char] [] 0 (Py.chars segment)) as Hc.
  unfold Py.first. unfold Py.split at 1. change (Py.chars "?") with ["?"%char].
  revert Hq Hc. generalize (Py.split_go ["?"%char] [] 0 (Py.chars segment)).
  intros [|piece pieces] Hq Hc; simpl.
  - by intros ?%elem_of_nil.
  - inversion Hc as [|? ? Hpiece _]; subst.
    inversion Hq as [|? ? Hno _]; subst.
    intros Hin. split; intros ->; [|done].
    destruct (Hpiece _ Hin) as [[]%elem_of_nil|?]. done.
Qed.

Lemma handle_has_no_separator_witness :
  "r"%char ≠ "/"%char ∧ "r"%char ≠ "?"%char.
Proof.
  apply (handle_has_no_separator "/collections/all/products/red-shirt?variant=2").
  vm_compute. by left.
Defined.

(** ** Social handles *)

(** X13. A user name that [_extract_social_username] returns is never
    empty, so that [username or href] stores it; and it starts with [@]
    unless it was read by the YouTube branch. *)
Theorem username_is_never_empty (p : platform) (url u : string) :
  _extract_social_username p url = Some u →
  u ≠ ""
  ∧ (p ≠ Youtube → ∃ v, u = "@" +:+ v)
  ∧ social_value p url = u.
Proof.
  unfold social_value, _extract_social_username.
  generalize (Re.search (username_patterns p) url). intros [m|]; [|done].
  unfold Re.group_true.
  generalize (Re.group 1 m) (Re.group 2 m). intros g1 g2 H.
  assert (u ≠ "" ∧ (p ≠ Youtube → ∃ v, u = "@" +:+ v)) as [Hne Hat].
  { pose proof H as H'.
    destruct p, g1 as [t1|], g2 as [t2|]; cbn in H';
      try destruct (String.eqb t1 "") eqn:E1;
      try destruct (String.eqb t2 "") eqn:E2;
      cbn in H'; try discriminate; injection H' as <-;
      try (split; [done | intros _; by eexists]);
      (split; [by apply String.eqb_neq | done]). }
  repeat split; [done..|].
  rewrite H. apply String.eqb_neq in Hne. by rewrite Hne.
Qed.

Lemma username_is_never_empty_witness :
  "@first" ≠ ""
  ∧ (Instagram ≠ Youtube → ∃ v, "@first" = "@" +:+ v)
  ∧ social_value Instagram "https://instagram.com/first" = "@first".
Proof.
  apply (username_is_never_empty Instagram "https://instagram.com/first" "@first").
  vm_compute. reflexivity.
Defined.

Section Search.

Lemma ms_lit s l :
  Re.ms (Re.Lit s) l =
  if Py.starts_with (Py.chars s) l then [([], drop (length (Py.chars s)) l)] else [].
Proof. reflexivity. Qed.

Lemma ms_alt r1 r2 l :
  Re.ms (Re.Alt r1 r2) l =
  ((λ x : Re.caps * list ascii, (x.1 ++ replicate (Re.groups r2) None, x.2))
     <$> Re.ms r1 l)
  ++ ((λ x : Re.caps * list ascii, (replicate (Re.groups r1) None ++ x.1, x.2))
        <$> Re.ms r2 l).
Proof. reflexivity. Qed.

Lemma ms_grp r l :
  Re.ms (Re.Grp r) l =
  (λ x : Re.caps * list ascii,
     (Some (Py.text (take (length l - length x.2) l)) :: x.1, x.2)) <$> Re.ms r l.
Proof. reflexivity. Qed.

Lemma ms_seq r1 r2 l :
  Re.ms (Re.Seq r1 r2) l =
  x1 ← Re.ms r1 l; x2 ← Re.ms r2 x1.2; [((x1.1 ++ x2.1 : Re.caps), x2.2)].
Proof. reflexivity. Qed.

Lemma match_at_some r l :
  bool_decide (is_Some (Re.match_at r l)) = negb (bool_decide (Re.ms r l = [])).
Proof.
  unfold Re.match_at. by destruct (Re.ms r l) as [|[c l'] rest].
Qed.

Lemma search_at_some r l :
  bool_decide (is_Some (Re.search_at r l)) =
  bool_decide (is_Some (Re.match_at r l))
  || match l with
     | [] => false
     | _ :: l' => bool_decide (is_Some (Re.search_at r l'))
     end.
Proof.
  by destruct l as [|c l]; cbn [Re.search_at];
    destruct (Re.match_at r _) as [x|] eqn:E.
Qed.

(** Searching a literal is the substring test. *)
Lemma search_at_lit a l :
  bool_decide (is_Some (Re.search_at (Re.Lit a) l)) = Py.occurs (Py.chars a) l.
Proof.
  induction l as [|c l IH]; rewrite search_at_some, match_at_some, ms_lit;
    cbn [Py.occurs]; [|rewrite IH];
    by destruct (Py.starts_with (Py.chars a) _).
Qed.

Lemma found_lit a s : Re.found (Re.Lit a) s = Py.contains a s.
Proof. apply search_at_lit. Qed.

(** Searching [(a|b)] is the substring test for [a] or for [b]. *)
Lemma search_at_alt_lits a b l :
  bool_decide (is_Some (Re.search_at (Re.Grp (Re.Alt (Re.Lit a) (Re.Lit b))) l))
  = Py.occurs (Py.chars a) l || Py.occurs (Py.chars b) l.
Proof.
  induction l as [|c l IH];
    rewrite search_at_some, match_at_some, ms_grp, ms_alt, !ms_lit;
    cbn [Py.occurs]; [|rewrite IH];
    destruct (Py.starts_with (Py.chars a) _), (Py.starts_with (Py.chars b) _);
    simpl; try done.
  all: by destruct (Py.occurs (Py.chars a) l), (Py.occurs (Py.chars b) l).
Qed.

Lemma found_alt_lits a b s :
  Re.found (Re.Grp (Re.Alt (Re.Lit a) (Re.Lit b))) s
  = Py.contains a s || Py.contains b s.
Proof. apply search_at_alt_lits. Qed.

End Search.

(** X14. An anchor counts for a platform exactly when its lower-cased href
    contains one of the platform's two keywords anywhere; so an anchor to
    any host that ends in [x.com] is taken for the Twitter profile. *)
Theorem social_match_is_a_substring_test (p : platform) (link : Bs4.node) :
  social_match p link
  = Py.contains (social_keywords p).1 (Py.lower (Bs4.get "href" link))
    || Py.contains (social_keywords p).2 (Py.lower (Bs4.get "href" link)).
Proof. unfold social_match. destruct p; apply found_alt_lits. Qed.

Example netflix_is_twitter :
  social_match Twitter (Demo.anchor "https://www.netflix.com/title/1" "Watch") = true
  ∧ social_value Twitter "https://www.netflix.com/title/1" = "@title".
Proof. split; vm_compute; reflexivity. Qed.

Section Captures.

Lemma search_at_elem r l m :
  Re.search_at r l = Some m → ∃ l' rest, (Re.grps m, rest) ∈ Re.ms r l'.
Proof.
  induction l as [|c l IH]; cbn [Re.search_at];
    destruct (Re.match_at r _) as [x|] eqn:E; try done.
  1,2: intros [= <-]; unfold Re.match_at in E;
       destruct (head (Re.ms r _)) as [[cs rest]|] eqn:Eh; [|done];
       injection E as <-; apply head_Some_elem_of in Eh; eauto.
Qed.

Lemma lit_take a l :
  Py.starts_with a l = true →
  take (length l - length (drop (length a) l)) l = a.
Proof.
  intros H. apply starts_with_spec in H.
  rewrite length_drop.
  assert (length a ≤ length l)%nat
    by (rewrite H, length_app; lia).
  replace (length l - (length l - length a))%nat with (length a) by lia.
  rewrite H at 1. apply take_app_length.
Qed.

(** What a group of two literals captures. *)
Lemma grp_alt_lits_capture a b l y :
  y ∈ Re.ms (Re.Grp (Re.Alt (Re.Lit a) (Re.Lit b))) l →
  y.1 = [Some a] ∨ y.1 = [Some b].
Proof.
  rewrite ms_grp, ms_alt, !ms_lit.
  intros (z & -> & Hz)%list_elem_of_fmap. cbn [fst].
  apply elem_of_app in Hz as [Hz|Hz];
    apply list_elem_of_fmap in Hz as (w & -> & Hw); cbn [fst snd Re.groups replicate].
  - destruct (Py.starts_with (Py.chars a) l) eqn:E; [|by apply elem_of_nil in Hw].
    apply list_elem_of_singleton in Hw as ->. cbn [fst snd app]. left.
    by rewrite (lit_take _ _ E), text_chars.
  - destruct (Py.starts_with (Py.chars b) l) eqn:E; [|by apply elem_of_nil in Hw].
    apply list_elem_of_singleton in Hw as ->. cbn [fst snd app]. right.
    by rewrite (lit_take _ _ E), text_chars.
Qed.

Lemma linkedin_first_group l c rest :
  (c, rest) ∈ Re.ms (username_patterns Linkedin) l →
  c !! 0%nat = Some (Some "company") ∨ c !! 0%nat = Some (Some "in").
Proof.
  unfold username_patterns, Re.cat. cbn [foldr].
  rewrite ms_seq. intros (x1 & H & H1)%list_elem_of_bind.
  rewrite ms_lit in H1.
  destruct (Py.starts_with _ l); [|by apply elem_of_nil in H1].
  apply list_elem_of_singleton in H1 as ->. cbn [fst snd] in H.
  apply list_elem_of_bind in H as (x2 & H & H2).
  apply list_elem_of_singleton in H as [= -> ->].
  rewrite ms_seq in H2. apply list_elem_of_bind in H2 as (y1 & H & Hy1).
  apply list_elem_of_bind in H as (y2 & H & Hy2).
  apply list_elem_of_singleton in H as ->. cbn [fst snd app].
  by destruct (grp_alt_lits_capture _ _ _ _ Hy1) as [-> | ->]; [left|right].
Qed.

End Captures.

(** X15. For LinkedIn the user name is read from the wrong group: whatever
    the company or the person, the name extracted is [@company] or [@in]. *)
Theorem linkedin_handle_is_the_path_kind (url u : string) :
  _extract_social_username Linkedin url = Some u →
  u = "@company" ∨ u = "@in".
Proof.
  unfold _extract_social_username, Re.search.
  destruct (Re.search_at (username_patterns Linkedin) (Py.chars url)) as [m|] eqn:E;
    [|done].
  apply search_at_elem in E as (l' & rest & Hm).
  apply linkedin_first_group in Hm.
  cbn [bool_decide decide_rel platform_eq_dec andb].
  unfold Re.group_true, Re.group.
  destruct Hm as [-> | ->]; cbn; intros [= <-]; [by left|by right].
Qed.

Lemma linkedin_handle_is_the_path_kind_witness :
  "@company" = "@company" ∨ "@company" = "@in".
Proof.
  apply (linkedin_handle_is_the_path_kind "https://www.linkedin.com/company/acme-shop").
  vm_compute. reflexivity.
Defined.

(** ** Fields the homepage's anchors fill *)

Section Filled.
Context `{L : Lib}.

Lemma socials_loop_filled p l x :
  is_Some (get_social p (socials_loop l x))
  ↔ is_Some (get_social p x) ∨ ∃ a, a ∈ l ∧ social_match p a = true.
Proof.
  revert x. induction l as [|a l IH]; intros x.
  - simpl. split; [by left|]. intros [?|(a & []%elem_of_nil & _)]; done.
  - change (socials_loop (a :: l) x)
      with (socials_loop l
              (social_patterns_loop platforms (Py.lower (Bs4.get "href" a)) x)).
    rewrite IH, social_patterns_loop_get.
    rewrite (bool_decide_eq_true_2 _ (platforms_all p)), andb_true_l.
    fold (social_match p a). destruct (social_match p a) eqn:Ea.
    + split; [|by left]. intros _. right. exists a. split; [by left | done].
    + split.
      * intros [?|(b & Hb & ?)]; [by left|]. right. exists b. split; [by right | done].
      * intros [?|(b & [->|Hb]%elem_of_cons & ?)]; [by left | congruence |].
        right. by exists b.
Qed.

Lemma link_patterns_loop_joined k ks base href anchor_text x y :
  link_patterns_loop ks base href anchor_text x = Some y →
  k ∈ ks →
  Re.found (link_patterns k) href || Re.found (link_patterns k) anchor_text = true →
  is_Some (urljoin base href).
Proof.
  revert x. induction ks as [|j rest IH]; intros x H Hin Hk.
  - by apply elem_of_nil in Hin.
  - rewrite link_patterns_loop_cons in H.
    destruct (urljoin base href) as [u|] eqn:Eu; [by eexists|].
    apply elem_of_cons in Hin as [->|Hin].
    + by rewrite Hk in H.
    + destruct (Re.found (link_patterns j) href
                || Re.found (link_patterns j) anchor_text); [done|].
      by eapply IH.
Qed.

Lemma links_loop_filled k base l x y :
  links_loop base l x = Some y →
  is_Some (get_link k y)
  ↔ is_Some (get_link k x) ∨ ∃ a, a ∈ l ∧ link_match k a = true.
Proof.
  revert x. induction l as [|a l IH]; intros x.
  - intros [= ->]. split; [by left|]. intros [?|(a & []%elem_of_nil & _)]; done.
  - simpl.
    destruct (link_patterns_loop _ _ _ _ _) as [x'|] eqn:E; [|done]. simpl.
    intros H. rewrite (IH _ H), (link_patterns_loop_get k _ _ _ _ _ _ E).
    rewrite (bool_decide_eq_true_2 _ (link_types_all k)), andb_true_l.
    fold (link_match k a). destruct (link_match k a) eqn:Ea.
    + pose proof (link_patterns_loop_joined k _ _ _ _ _ _ E (link_types_all k) Ea).
      split; [|by left]. intros _. right. exists a. split; [by left | done].
    + split.
      * intros [?|(b & Hb & ?)]; [by left|]. right. exists b. split; [by right | done].
      * intros [?|(b & [->|Hb]%elem_of_cons & ?)]; [by left | congruence |].
        right. by exists b.
Qed.

End Filled.

(** X16. A platform of the socials, and a category of the links, is filled
    exactly when some anchor of the homepage matches its pattern: by its
    href for a platform, by its href or its text for a category.  A field
    no anchor matches stays absent. *)
Theorem fields_are_filled_by_matching_anchors `{L : Lib} (net : network)
    (s : scraper) (sp : Bs4.node) (v_links : Links) :
  soup s = Some sp →
  links_of (base_url s) sp = Some v_links →
  ∃ v_socials,
    _fetch_social_handles net s = (Ok v_socials, s)
    ∧ _fetch_important_links net s = (Ok v_links, s)
    ∧ (∀ p, is_Some (get_social p v_socials)
            ↔ ∃ a, a ∈ Bs4.find_all ["a"] (Bs4.has "href") sp
                   ∧ social_match p a = true)
    ∧ (∀ k, is_Some (get_link k v_links)
            ↔ ∃ a, a ∈ Bs4.find_all ["a"] (Bs4.has "href") sp
                   ∧ link_match k a = true).
Proof.
  intros Hsoup Hlinks.
  assert (homepage_soup net s = (Ok sp, s)) as Hhome.
  { unfold homepage_soup. rewrite bind_eq. unfold self. by rewrite Hsoup. }
  eexists. split; [|split; [|split]].
  - unfold _fetch_social_handles. rewrite bind_eq, Hhome. reflexivity.
  - unfold _fetch_important_links. rewrite bind_eq, Hhome, bind_eq.
    unfold self. by rewrite Hlinks.
  - intros p. rewrite socials_loop_filled. split; [|by right].
    intros [[? H]|?]; [by destruct p | done].
  - intros k. unfold links_of in Hlinks.
    rewrite (links_loop_filled k _ _ _ _ Hlinks). split; [|by right].
    intros [[? H]|?]; [by destruct k | done].
Qed.

Lemma fields_are_filled_by_matching_anchors_witness :
  ∃ v_socials,
    _fetch_social_handles Demo.bare_store Demo.at_home = (Ok v_socials, Demo.at_home)
    ∧ _fetch_important_links Demo.bare_store Demo.at_home
      = (Ok (mkLinks None (Some "https://shop.example/pages/contact") None None None),
         Demo.at_home)
    ∧ (∀ p, is_Some (get_social p v_socials)
            ↔ ∃ a, a ∈ Bs4.find_all ["a"] (Bs4.has "href") Demo.home_soup
                   ∧ social_match p a = true)
    ∧ (∀ k, is_Some
              (get_link k
                 (mkLinks None (Some "https://shop.example/pages/contact")
                    None None None))
            ↔ ∃ a, a ∈ Bs4.find_all ["a"] (Bs4.has "href") Demo.home_soup
                   ∧ link_match k a = true).
Proof.
  apply (fields_are_filled_by_matching_anchors Demo.bare_store Demo.at_home
           Demo.home_soup);
    vm_compute; reflexivity.
Defined.

(** ** The pairs of the FAQ and the two lists of the contact *)

Section Pairs.
Context `{L : Lib}.

Lemma accordion_pair_filled item f :
  accordion_pair item = Some f → question f ≠ "" ∧ answer f ≠ "".
Proof.
  unfold accordion_pair.
  destruct (Bs4.find _ (Bs4.matches "class" Pat.question_class) item) as [q|]; [|done].
  destruct (Bs4.find _ (Bs4.matches "class" Pat.answer_class) item) as [a|]; [|done].
  simpl.
  destruct (String.eqb (Bs4.get_text_strip "" q) "") eqn:Eq; [done|].
  destruct (String.eqb (Bs4.get_text_strip "" a) "") eqn:Ea; [done|].
  intros [= <-]. simpl. by apply String.eqb_neq in Eq, Ea.
Qed.

Lemma flat_pair_filled q f :
  flat_pair q = Some f → question f ≠ "" ∧ answer f ≠ "".
Proof.
  unfold flat_pair.
  destruct (Bs4.find_next _ q.2) as [a|]; [|done]. simpl.
  destruct (String.eqb (Bs4.get_text_strip "" q.1) "") eqn:Eq; [done|].
  destruct (String.eqb (Bs4.get_text_strip "" a) "") eqn:Ea; [done|].
  intros [= <-]. simpl. by apply String.eqb_neq in Eq, Ea.
Qed.

Lemma page_faqs_filled sp f :
  f ∈ page_faqs sp [] → question f ≠ "" ∧ answer f ≠ "".
Proof.
  rewrite page_faqs_nil.
  destruct (bool_decide (accordion_faqs sp = []));
    intros (x & _ & Hx)%list_elem_of_omap;
    [by eapply flat_pair_filled | by eapply accordion_pair_filled].
Qed.

End Pairs.

(** X17. No pair of the FAQ list has an empty question or an empty answer,
    whatever the pages hold. *)
Theorem faq_pairs_are_filled `{L : Lib} (net : network) (s s' : scraper)
    (v_faqs : list FAQ) (f : FAQ) :
  _fetch_faqs net s = (Ok v_faqs, s') →
  f ∈ v_faqs →
  question f ≠ "" ∧ answer f ≠ "".
Proof.
  intros H Hf.
  apply faqs_loop_one_page in H as [->|(log & url & content & sp & _ & _ & _ & ->)].
  - by apply elem_of_nil in Hf.
  - by eapply page_faqs_filled.
Qed.

Lemma faq_pairs_are_filled_witness :
  question (mkFAQ "Q1?" "A1") ≠ "" ∧ answer (mkFAQ "Q1?" "A1") ≠ "".
Proof.
  apply (faq_pairs_are_filled Demo.faq_store (new_scraper Demo.base)
           (mkScraper Demo.base true None false ["https://shop.example/faq"] 1 0)
           [mkFAQ "Q1?" "A1"]).
  - vm_compute. reflexivity.
  - apply list_elem_of_singleton. reflexivity.
Defined.

Section ContactSets.

Lemma mailto_loop_spec ls (E : gset string) x :
  x ∈ mailto_loop ls E
  ↔ x ∈ E ∨ ∃ link, link ∈ ls ∧ x = mailto_address link
                    ∧ is_Some (Re.match_ Pat.email_pattern x).
Proof.
  revert E. induction ls as [|a ls IH]; intros E.
  - simpl. split; [by left|]. intros [?|(a & []%elem_of_nil & _)]; done.
  - cbn [mailto_loop]. cbv zeta. fold (mailto_address a). rewrite IH.
    destruct (bool_decide (is_Some (Re.match_ Pat.email_pattern (mailto_address a))))
      eqn:Ea.
    + apply bool_decide_eq_true_1 in Ea. rewrite elem_of_union, elem_of_singleton.
      split.
      * intros [[?| ->]|(b & Hb & ? & ?)]; [by left | |].
        -- right. exists a. split; [by left | done].
        -- right. exists b. split; [by right | done].
      * intros [?|(b & [->|Hb]%elem_of_cons & -> & ?)];
          [by left; left | by left; right |].
        right. by exists b.
    + apply bool_decide_eq_false_1 in Ea. split.
      * intros [?|(b & Hb & ? & ?)]; [by left|].
        right. exists b. split; [by right | done].
      * intros [?|(b & [->|Hb]%elem_of_cons & -> & ?)]; [by left | done |].
        right. by exists b.
Qed.

Lemma tel_loop_spec ls (P : gset string) x :
  x ∈ tel_loop ls P ↔ x ∈ P ∨ ∃ link, link ∈ ls ∧ x = tel_number link.
Proof.
  revert P. induction ls as [|a ls IH]; intros P.
  - simpl. split; [by left|]. intros [?|(a & []%elem_of_nil & _)]; done.
  - cbn [tel_loop]. cbv zeta. fold (tel_number a). rewrite IH.
    rewrite elem_of_union, elem_of_singleton. split.
    + intros [[?| ->]|(b & Hb & ?)]; [by left | |].
      * right. exists a. split; [by left | done].
      * right. exists b. split; [by right | done].
    + intros [?|(b & [->|Hb]%elem_of_cons & ->)];
        [by left; left | by left; right |].
      right. by exists b.
Qed.

End ContactSets.

(** X18. The two lists of the contact have no duplicates.  An address is in
    [emails] exactly when the pattern finds it in the page's text or it is
    the address of a [mailto:] link that starts with a match of the
    pattern; a number is in [phones] exactly when it is a kept candidate of
    the text, stripped, or the number of a [tel:] link, which is taken as
    it is, with no test of its length. *)
Theorem contact_lists_are_sets `{L : Lib} (contact_soup : Bs4.node) :
  let page_text := Bs4.get_text contact_soup in
  let contact := contact_of contact_soup in
  NoDup (emails contact) ∧ NoDup (phones contact)
  ∧ (∀ x, x ∈ emails contact
          ↔ x ∈ Re.findall Pat.email_pattern page_text
            ∨ ∃ link,
                link ∈ Bs4.find_all ["a"] (Bs4.matches "href" Pat.mailto) contact_soup
                ∧ x = mailto_address link
                ∧ is_Some (Re.match_ Pat.email_pattern x))
  ∧ (∀ x, x ∈ phones contact
          ↔ (∃ phone, phone ∈ Re.findall Pat.phone_pattern page_text
                      ∧ phone_kept phone = true ∧ x = Py.strip phone)
            ∨ ∃ link,
                link ∈ Bs4.find_all ["a"] (Bs4.matches "href" Pat.tel) contact_soup
                ∧ x = tel_number link).
Proof.
  intros page_text contact. unfold contact, contact_of. cbn [emails phones].
  split; [rewrite list_of_set_perm; apply NoDup_elements|].
  split; [rewrite list_of_set_perm; apply NoDup_elements|].
  split; intros x; rewrite list_of_set_perm, elem_of_elements.
  - unfold emails_of. fold page_text.
    by rewrite mailto_loop_spec, elem_of_list_to_set.
  - unfold phones_of. fold page_text.
    rewrite tel_loop_spec. unfold text_phones. rewrite found_phones_loop_spec.
    split; [intros [[[]%elem_of_empty|?]|?] | intros [?|?]]; auto.
Qed.

Example short_tel_number_is_kept :
  "911" ∈ phones (contact_of Shop.contact_soup)
  ∧ "911" ∈ phones (contact_of (L := Shop.lib) Shop.contact_soup).
Proof. split; vm_compute; set_solver. Qed.

(** ** The endpoint *)

Section Endpoint.
Context `{L : Lib}.
Variable net : network.

Lemma get_brand_context_result s :
  (get_brand_context net s).1 = (run_body net s).1.
Proof.
  rewrite get_brand_context_run, try_finally_close; [done|].
  apply run_body_opens.
Qed.

Lemma run_body_failed_homepage b :
  (∀ content sp, net [] b = Response content 200 →
                 BeautifulSoup content = Some sp →
                 Py.any (shopify_indicators content sp) = false) →
  (run_body net (new_scraper b)).1 =
  match net [] b with
  | Response content status =>
      if (status =? 200)%Z then
        match BeautifulSoup content with
        | Some _ => Raise InvalidShopifyStoreError
        | None => Raise (OtherException "ParserRejectedMarkup")
        end
      else Raise (WebsiteNotFoundException
                    ("Website returned status code " +:+ pretty status))
  | ClientError msg =>
      Raise (WebsiteNotFoundException ("Failed to fetch " +:+ b +:+ ": " +:+ msg))
  | Failure e => Raise e
  end.
Proof.
  intros Hsig. unfold run_body. rewrite bind_eq, check_is_shopify_run.
  change (requested (new_scraper b)) with (@nil string).
  change (base_url (new_scraper b)) with b.
  destruct (net [] b) as [content status|msg|e] eqn:Hnet; try done.
  destruct (status =? 200)%Z eqn:Est; [|done].
  apply Z.eqb_eq in Est as ->.
  destruct (BeautifulSoup content) as [sp|] eqn:Esp; [|done].
  by rewrite (Hsig _ _ eq_refl Esp).
Qed.

Lemma has_scheme_https v : has_scheme ("https://" +:+ v) = true.
Proof. unfold has_scheme. apply orb_true_iff. right. reflexivity. Qed.

Lemma validate_has_scheme v : has_scheme (validate_website_url v) = true.
Proof.
  unfold validate_website_url. destruct (has_scheme v) eqn:E; simpl; [done|].
  apply has_scheme_https.
Qed.

Lemma chars_app a b : Py.chars (a +:+ b) = Py.chars a ++ Py.chars b.
Proof. induction a as [|c a IH]; simpl; [done | by rewrite <- IH]. Qed.

Lemma lstrip_slashes_head l : head (lstrip_slashes l) ≠ Some "/"%char.
Proof.
  induction l as [|c l IH]; simpl; [done|].
  destruct (Ascii.eqb c "/") eqn:E; [done|]. simpl.
  apply Ascii.eqb_neq in E. congruence.
Qed.

Lemma last_rev {A} (l : list A) : last (rev l) = head l.
Proof. destruct l as [|a l]; simpl; [done | by rewrite last_snoc]. Qed.

Lemma rstrip_slashes_last s : last (Py.chars (rstrip_slashes s)) ≠ Some "/"%char.
Proof.
  unfold rstrip_slashes. rewrite chars_text, last_rev. apply lstrip_slashes_head.
Qed.

Lemma lstrip_slashes_suffix l :
  ∃ n, l = replicate n "/"%char ++ lstrip_slashes l.
Proof.
  induction l as [|c l [n IH]]; [by exists 0%nat|]. simpl.
  destruct (Ascii.eqb c "/") eqn:E; [|by exists 0%nat].
  apply Ascii.eqb_eq in E as ->. exists (S n). simpl. by rewrite <- IH.
Qed.

Lemma rev_replicate {A} n (a : A) : rev (replicate n a) = replicate n a.
Proof.
  induction n as [|n IH]; [done|]. simpl. rewrite IH.
  clear. induction n as [|n IH]; [done|]. simpl. by rewrite IH.
Qed.

Lemma rstrip_slashes_prefix s :
  ∃ n, Py.chars s = Py.chars (rstrip_slashes s) ++ replicate n "/"%char.
Proof.
  unfold rstrip_slashes. rewrite chars_text.
  destruct (lstrip_slashes_suffix (rev (Py.chars s))) as [n Hn]. exists n.
  rewrite <- (rev_replicate n "/"%char), <- rev_app_distr, <- Hn.
  by rewrite rev_involutive.
Qed.

End Endpoint.

(** X19. What the endpoint answers when the homepage does not pass: 401
    with the status in the detail for a homepage that is not a 200, 401 with
    the URL and the client's message when the connection fails, 400 for a
    200 page the parser accepts and that has no platform signature, 500 for
    a 200 page the parser rejects; any other exception of the fetch goes
    through the three handlers.  The URL requested is the normalized
    one. *)
Theorem endpoint_answers_a_failed_homepage `{L : Lib}
    (urlparse : string -> option ParseResult) (exception_text : exn -> string)
    (net : network) (website_url b : string) :
  _normalize_url urlparse website_url = Some b →
  (∀ content sp, net [] b = Response content 200 →
                 BeautifulSoup content = Some sp →
                 Py.any (shopify_indicators content sp) = false) →
  get_insights urlparse exception_text net website_url =
  match net [] b with
  | Response content status =>
      if (status =? 200)%Z
      then
        match BeautifulSoup content with
        | Some _ =>
            HTTPException 400 "The provided URL is not a valid Shopify store"
        | None =>
            HTTPException 500
              ("Internal server error: "
               +:+ exception_text (OtherException "ParserRejectedMarkup"))
        end
      else HTTPException 401 ("Website returned status code " +:+ pretty status)
  | ClientError msg =>
      HTTPException 401 ("Failed to fetch " +:+ b +:+ ": " +:+ msg)
  | Failure e => handlers exception_text e
  end.
Proof.
  intros Hb Hsig. unfold get_insights, ShopifyScraper. rewrite Hb. simpl.
  rewrite get_brand_context_result, (run_body_failed_homepage net b Hsig).
  destruct (net [] b) as [content status|msg|e]; try done.
  destruct (status =? 200)%Z; [|done]. by destruct (BeautifulSoup content).
Qed.

Lemma endpoint_answers_a_failed_homepage_witness :
  get_insights Shop.parse Shop.text_of Demo.other_site "shop.example/"
  = HTTPException 400 "The provided URL is not a valid Shopify store".
Proof.
  rewrite (endpoint_answers_a_failed_homepage Shop.parse Shop.text_of
             Demo.other_site "shop.example/" Demo.base).
  - vm_compute. reflexivity.
  - vm_compute. reflexivity.
  - intros content sp H Hsp. vm_compute in H. injection H as <-.
    vm_compute in Hsp. injection Hsp as <-. vm_compute. reflexivity.
Defined.

Example endpoint_replies (exception_text : exn -> string) :
  get_insights Shop.parse exception_text Demo.missing_site "https://shop.example"
  = HTTPException 401 "Website returned status code 404"
  ∧ get_insights Shop.parse exception_text Demo.down_site "shop.example//"
    = HTTPException 401 "Failed to fetch https://shop.example: Cannot connect to host"
  ∧ get_insights Shop.parse exception_text Demo.odd_site "shop.example"
    = HTTPException 500
        ("Internal server error: "
         +:+ exception_text (OtherException "ParserRejectedMarkup"))
  ∧ get_insights Shop.parse exception_text Demo.slow_site "shop.example"
    = HTTPException 500
        ("Internal server error: " +:+ exception_text (OtherException "TimeoutError"))
  ∧ get_insights Shop.parse exception_text Shop.cancelled_site "shop.example"
    = Uncaught (BaseExceptionOnly "CancelledError")
  ∧ get_insights Shop.parse exception_text Demo.bare_store "http://[shop"
    = HTTPException 500
        ("Internal server error: " +:+ exception_text (OtherException "ValueError")).
Proof. repeat split; vm_compute; reflexivity. Qed.

(** X20. The validator of the request model has already put the scheme the
    constructor tests for: validating twice changes nothing, the
    constructor's own scheme test never fires on a validated URL, and the
    endpoint answers the same for a URL and for its validated form. *)
Theorem validated_url_keeps_its_scheme `{L : Lib}
    (urlparse : string -> option ParseResult) (exception_text : exn -> string)
    (net : network) (v : string) :
  validate_website_url (validate_website_url v) = validate_website_url v
  ∧ _normalize_url urlparse (validate_website_url v)
    = (parsed ← urlparse (validate_website_url v);
       Some (url_scheme parsed +:+ "://" +:+ url_netloc parsed
             +:+ rstrip_slashes (url_path parsed)))
  ∧ get_insights urlparse exception_text net (validate_website_url v)
    = get_insights urlparse exception_text net v.
Proof.
  assert (_normalize_url urlparse (validate_website_url v) = _normalize_url urlparse v)
    as Hn.
  { unfold _normalize_url. rewrite validate_has_scheme. simpl.
    unfold validate_website_url. by destruct (has_scheme v). }
  split; [|split].
  - unfold validate_website_url at 1. by rewrite validate_has_scheme.
  - unfold _normalize_url. by rewrite validate_has_scheme.
  - unfold get_insights, ShopifyScraper. by rewrite Hn.
Qed.

(** X21. The normalized URL is the scheme, the host and the path without
    its trailing slashes; when the host is not empty it does not end with a
    slash. *)
Theorem normalized_url_has_no_trailing_slash
    (urlparse : string -> option ParseResult) (url b : string) :
  _normalize_url urlparse url = Some b →
  ∃ parsed n,
    urlparse (validate_website_url url) = Some parsed
    ∧ Py.chars (url_scheme parsed +:+ "://" +:+ url_netloc parsed
                +:+ url_path parsed)
      = Py.chars b ++ replicate n "/"%char
    ∧ (url_netloc parsed ≠ "" →
       last (Py.chars (url_netloc parsed)) ≠ Some "/"%char →
       last (Py.chars b) ≠ Some "/"%char).
Proof.
  unfold _normalize_url. fold (validate_website_url url).
  destruct (urlparse (validate_website_url url)) as [parsed|]; [|done].
  simpl. intros [= <-].
  destruct (rstrip_slashes_prefix (url_path parsed)) as [n Hn].
  exists parsed, n. split; [done|]. split.
  - rewrite !chars_app, Hn. by rewrite ?app_assoc.
  - intros Hhost Hlast. rewrite !chars_app, !app_assoc.
    pose proof (rstrip_slashes_last (url_path parsed)) as Hp.
    destruct (Py.chars (rstrip_slashes (url_path parsed))) as [|c p _]
      using rev_ind.
    + rewrite app_nil_r.
      destruct (Py.chars (url_netloc parsed)) as [|c h _] eqn:Eh using rev_ind.
      * destruct (url_netloc parsed); done.
      * rewrite app_assoc, last_snoc. by rewrite last_snoc in Hlast.
    + rewrite app_assoc, last_snoc. by rewrite last_snoc in Hp.
Qed.

Lemma normalized_url_has_no_trailing_slash_witness :
  ∃ parsed n,
    Shop.parse (validate_website_url "shop.example/a//") = Some parsed
    ∧ Py.chars (url_scheme parsed +:+ "://" +:+ url_netloc parsed
                +:+ url_path parsed)
      = Py.chars "https://shop.example/a" ++ replicate n "/"%char
    ∧ (url_netloc parsed ≠ "" →
       last (Py.chars (url_netloc parsed)) ≠ Some "/"%char →
       last (Py.chars "https://shop.example/a") ≠ Some "/"%char).
Proof.
  apply (normalized_url_has_no_trailing_slash Shop.parse "shop.example/a//").
  vm_compute. reflexivity.
Defined.
